(** * PDeeF: the compression route of [app.py]

    A shallow embedding of [process_pdf] (the [/process] route) with the
    third-party toolkits (pikepdf, PyMuPDF, Pillow) taken as an interface of
    library calls and the table of file records as a list.  Python exceptions are values of
    an error type and a computation is an outcome together with the trace
    of the toolkit calls it made ([pikepdf.open], [page.get], [pdf.save],
    [fitz.open], [get_images], [extract_image], [Image.open], [resize],
    [image.save], [update_image], [doc.save], ...), each with its outcome.
    Python floats are IEEE-754 binary64 numbers ([SpecFloat], precision 53,
    round to nearest even).  The other routes ([split_final], [download],
    [preview_image]) follow, with pypdf as a second interface. *)

From Stdlib Require Import ZArith List String Ascii Bool Lia.
From Stdlib Require Import Strings.Byte DecimalString.
From Stdlib Require Import Floats.SpecFloat.
From Stdlib Require DecimalNat Lists.Finite.
Import ListNotations.
Local Open Scope string_scope.
Local Open Scope list_scope.
Local Open Scope Z_scope.

(** ** Python values, exceptions and numbers *)

Module Py.

Definition bytes := list byte.

(** The exceptions the route can meet.  [LibraryError] stands for whatever a
    third-party call raises; the others are raised by the interpreter. *)
Inductive exn : Type :=
| LibraryError (origin detail : string)
| UnboundLocalError (name : string)
| KeyError (key : string)
| ZeroDivisionError
| OverflowError
| ValueError.

Inductive result (A : Type) : Type :=
| Ok (a : A)
| Raise (e : exn).
Arguments Ok {A} a.
Arguments Raise {A} e.

Definition rbind {A B} (r : result A) (k : A -> result B) : result B :=
  match r with
  | Ok a => k a
  | Raise e => Raise e
  end.

Definition forget {A} (r : result A) : result unit :=
  match r with
  | Ok _ => Ok tt
  | Raise e => Raise e
  end.

(** binary64 *)
Definition prec : Z := 53.
Definition emax : Z := 1024.

(** A Python number as [image.info["dpi"]] holds it: an [int] (JFIF
    density) or a [float] (PNG, EXIF). *)
Inductive pynum : Type :=
| PyInt (z : Z)
| PyFloat (f : spec_float).

(** [float(z)]: correctly rounded, [OverflowError] beyond the largest float. *)
Definition float_of_int (z : Z) : result spec_float :=
  match binary_normalize prec emax z 0 false with
  | S754_infinity _ => Raise OverflowError
  | f => Ok f
  end.

Definition int_mantissa (z : Z) : spec_float :=
  match z with
  | Z0 => S754_zero false
  | Zpos p => S754_finite false p 0
  | Zneg p => S754_finite true p 0
  end.

(** [a / b] on two ints: the correctly rounded quotient. *)
Definition int_truediv (a b : Z) : result spec_float :=
  if b =? 0 then Raise ZeroDivisionError
  else match SFdiv prec emax (int_mantissa a) (int_mantissa b) with
       | S754_infinity _ => Raise OverflowError
       | f => Ok f
       end.

Definition is_zero (f : spec_float) : bool :=
  match f with
  | S754_zero _ => true
  | _ => false
  end.

(** [k / x] for an int [k] *)
Definition truediv_int (k : Z) (x : pynum) : result spec_float :=
  match x with
  | PyInt z => int_truediv k z
  | PyFloat f =>
      if is_zero f then Raise ZeroDivisionError
      else rbind (float_of_int k) (fun fk => Ok (SFdiv prec emax fk f))
  end.

(** [x > k] for an int [k] that a float holds exactly *)
Definition gt_int (x : pynum) (k : Z) : bool :=
  match x with
  | PyInt z => k <? z
  | PyFloat f => SFltb (binary_normalize prec emax k 0 false) f
  end.

(** [w * f] for an int [w] and a float [f] *)
Definition mul_int_float (w : Z) (f : spec_float) : result spec_float :=
  rbind (float_of_int w) (fun fw => Ok (SFmul prec emax fw f)).

(** [int(f)]: truncation toward zero *)
Definition int_of_float (f : spec_float) : result Z :=
  match f with
  | S754_zero _ => Ok 0
  | S754_finite s m e =>
      let a := match e with
               | Zneg p => Z.shiftr (Zpos m) (Zpos p)
               | _ => Z.shiftl (Zpos m) e
               end in
      Ok (if s then - a else a)
  | S754_infinity _ => Raise OverflowError
  | S754_nan => Raise ValueError
  end.

(** [s.replace(old, new)] for a non-empty [old]: every occurrence, left to
    right, without overlap.  [skip] counts the characters of a match that
    are still to be dropped. *)
Fixpoint replace_from (old new s : string) (skip : nat) : string :=
  match s with
  | EmptyString => EmptyString
  | String c s' =>
      match skip with
      | S k => replace_from old new s' k
      | O =>
          if String.prefix old s
          then (new ++ replace_from old new s' (String.length old - 1)%nat)%string
          else String c (replace_from old new s' 0)
      end
  end.

Definition replace (s old new : string) : string := replace_from old new s 0.

End Py.
Export Py.

Notation "x <-? c1 ;; c2" := (rbind c1 (fun x => c2))
  (at level 61, c1 at next level, right associativity).

(** ** The toolkits as an interface *)

Module Lib.

(** A decoded Pillow image: the attributes the route reads, and its pixels.
    [info_dpi] is [image.info.get("dpi")], a pair when the file declares a
    resolution. *)
Record Image : Type := {
  mode : string;
  info_dpi : option (pynum * pynum);
  width : Z;
  height : Z;
  pixels : bytes
}.

Inductive resample : Type := LANCZOS.

(** keyword arguments of [image.save] *)
Record image_save_kw : Type := {
  format : string;
  kw_compression : option string;
  kw_quality : option Z;
  kw_optimize : bool
}.

Inductive CompressionLevel : Type := CompressionLevel_default.

(** keyword arguments of pikepdf's [pdf.save] *)
Record pdf_save_kw : Type := {
  optimize_streams : bool;
  compression : option CompressionLevel
}.

(** keyword arguments of PyMuPDF's [doc.save] *)
Record doc_save_kw : Type := {
  garbage : Z;
  deflate : bool
}.

(** An entry of [page.get_images(full=True)].  The route reads [img[0]],
    the cross-reference number; of the other nine fields only the name is
    kept. *)
Record image_item : Type := {
  item_xref : Z;
  item_name : string
}.

(** The library calls of the route.  Object types are the libraries' own.
    [pdf_pages] is the iteration of [pdf.pages], where each step may raise;
    [page_get] is [page.get(key)], [None] when the key is absent;
    [object_bool] is the truth value of a pikepdf object.  [pdf_save] and
    [fitz_save] return what the call writes to the buffer.  [pdf_save] does
    not change the [Pdf] object; [update_image] returns the document after
    the update.  [pdf_page_count] is not called by the route: it is the
    number of pages a reader finds in a serialized document. *)
Record library : Type := {
  PDF_DIR : string;
  PREVIEW_DIR : string;
  os_path_join : string -> string -> string;
  file_save : string -> bytes -> result unit;
  (* pikepdf *)
  Pdf : Type;
  PdfPage : Type;
  PdfObject : Type;
  pikepdf_open : string -> result Pdf;
  pdf_pages : Pdf -> list (result PdfPage);
  page_get : PdfPage -> string -> result (option PdfObject);
  object_bool : PdfObject -> result bool;
  pdf_save : Pdf -> pdf_save_kw -> result bytes;
  (* PyMuPDF *)
  FitzDoc : Type;
  FitzPage : Type;
  fitz_open : string -> result FitzDoc;
  fitz_len : FitzDoc -> nat;
  fitz_getitem : FitzDoc -> nat -> result FitzPage;
  page_get_images : FitzDoc -> FitzPage -> result (list image_item);
  extract_image : FitzDoc -> Z -> result (option bytes);
  update_image : FitzDoc -> Z -> bytes -> result FitzDoc;
  fitz_save : FitzDoc -> doc_save_kw -> result bytes;
  pdf_page_count : bytes -> option nat;
  (* Pillow *)
  Image_open : bytes -> result Image;
  Image_resize : Image -> Z * Z -> resample -> result Image;
  Image_save : Image -> image_save_kw -> result bytes;
  Image_save_file : Image -> string -> string -> result unit;
  (* pdf2image, pytesseract, python-docx *)
  convert_from_path : string -> option Z -> result (list Image);
  image_to_string : Image -> result string;
  docx_save : list string -> result bytes
}.

(** A library call with its arguments and its outcome. *)
Inductive call : Type :=
| c_file_save (path : string) (r : result unit)
| c_pikepdf_open (path : string) (r : result unit)
| c_page_get (key : string) (r : result unit)
| c_pdf_save (kw : pdf_save_kw) (r : result bytes)
| c_fitz_open (path : string) (r : result unit)
| c_get_images (page_index : nat) (r : result (list image_item))
| c_extract_image (xref : Z) (r : result (option bytes))
| c_Image_open (data : bytes) (r : result Image)
| c_resize (image : Image) (size : Z * Z) (filter : resample) (r : result Image)
| c_Image_save (image : Image) (kw : image_save_kw) (r : result bytes)
| c_update_image (xref : Z) (stream : bytes) (r : result unit)
| c_fitz_save (kw : doc_save_kw) (r : result bytes)
| c_convert_from_path (path : string) (dpi : option Z) (r : result (list Image))
| c_Image_save_file (path fmt : string) (r : result unit)
| c_image_to_string (r : result string)
| c_docx_save (paragraphs : list string) (r : result bytes)
| c_print (line : string).

(** Computations: an outcome and the calls made on the way. *)
Definition M (A : Type) : Type := (result A * list call)%type.

Definition ret {A} (a : A) : M A := (Ok a, []).

Definition bind {A B} (m : M A) (k : A -> M B) : M B :=
  match m with
  | (Ok a, t) => let (r, t') := k a in (r, t ++ t')
  | (Raise e, t) => (Raise e, t)
  end.

Definition lift {A} (r : result A) : M A := (r, []).

(** a call: its outcome, and the event that records it *)
Definition invoke {A} (r : result A) (ev : result A -> call) : M A := (r, [ev r]).

Definition print (line : string) : M unit := (Ok tt, [c_print line]).

(** [try: m except: h] with a bare [except] *)
Definition try_except {A} (m : M A) (h : exn -> M A) : M A :=
  match m with
  | (Ok a, t) => (Ok a, t)
  | (Raise e, t) => let (r, t') := h e in (r, t ++ t')
  end.

(** reading a local variable that may not have been assigned *)
Definition local {A} (name : string) (v : option A) : M A :=
  match v with
  | Some a => ret a
  | None => lift (Raise (UnboundLocalError name))
  end.

Definition outcome {A} (m : M A) : result A := fst m.
Definition trace {A} (m : M A) : list call := snd m.

End Lib.
Export Lib.

Notation "x <- c1 ;; c2" := (bind c1 (fun x => c2))
  (at level 61, c1 at next level, right associativity).
Notation "c1 ;;; c2" := (bind c1 (fun _ => c2))
  (at level 61, right associativity).

(** ** The database table *)

Module Db.

(** [class FileRecord(db.Model)] *)
Record FileRecord : Type := {
  id : Z;
  filename : string;
  operation : string;
  file_data : bytes
}.

Definition table : Type := list FileRecord.

(** [db.session.add(record); db.session.commit()]: one new row, with the
    next value of the auto-incremented key. *)
Definition add_commit (db : table) (filename operation : string) (file_data : bytes)
  : table * FileRecord :=
  let record := {| id := Z.of_nat (List.length db) + 1;
                   filename := filename;
                   operation := operation;
                   file_data := file_data |} in
  (db ++ [record], record).

End Db.

(** ** The route *)

Module App.

(** the uploaded file, [request.files.get("file")] *)
Record FileStorage : Type := {
  upload_filename : string;
  upload_content : bytes
}.

Record request : Type := {
  files_file : option FileStorage;
  form_operation : option string
}.

Inductive response : Type :=
| PlainText (body : string) (status : Z)
| PreviewPage (pdf_name : string) (images : list string)
| ResultPage (filename operation : string) (file_id : Z)
| InternalServerError (e : exn).

(** what a branch of the route leaves behind: an early [return], or the
    values of [output_filename] and [output_bytes] *)
Inductive branch_result : Type :=
| Return (r : response)
| Continue (output_filename : string) (output_bytes : bytes).

Definition DPI_THRESHOLD : Z := 200.
Definition TARGET_DPI : Z := 150.
Definition JPEG_QUALITY : Z := 85.

(** lines 132-137 *)
Definition choose_compression (image : Image) : string :=
  if (mode image =? "1")%string then "CCITT"
  else if (mode image =? "L")%string then "JPEG"
  else "JPEG".

(** line 138: [image.info.get("dpi", (TARGET_DPI, TARGET_DPI))[0]] *)
Definition effective_dpi (image : Image) : pynum :=
  fst (match info_dpi image with
       | Some d => d
       | None => (PyInt TARGET_DPI, PyInt TARGET_DPI)
       end).

(** lines 140-142 *)
Definition new_size (image : Image) (dpi : pynum) : result (Z * Z) :=
  factor <-? truediv_int TARGET_DPI dpi ;;
  new_width <-? (x <-? mul_int_float (width image) factor ;; int_of_float x) ;;
  new_height <-? (y <-? mul_int_float (height image) factor ;; int_of_float y) ;;
  Ok (new_width, new_height).

(** lines 145-148: the arguments of [image.save] *)
Definition save_kw (compression : string) : image_save_kw :=
  if (compression =? "CCITT")%string
  then {| format := "TIFF"; kw_compression := Some "group4";
          kw_quality := None; kw_optimize := false |}
  else {| format := "JPEG"; kw_compression := None;
          kw_quality := Some JPEG_QUALITY; kw_optimize := true |}.

Definition op_is (operation : option string) (name : string) : bool :=
  match operation with
  | Some s => (s =? name)%string
  | None => false
  end.

Definition op_name (operation : option string) : string :=
  match operation with
  | Some s => s
  | None => EmptyString
  end.

(** [if not file]: no upload, or an upload without a file name *)
Definition not_file (file : option FileStorage) : bool :=
  match file with
  | None => true
  | Some f => (upload_filename f =? EmptyString)%string
  end.

Definition string_of_nat (n : nat) : string :=
  DecimalString.NilEmpty.string_of_uint (Nat.to_uint n).

Section Route.

Context (L : library).

(** the truth value [any] takes of [page.get("/Contents")] *)
Definition truth (v : option (PdfObject L)) : result bool :=
  match v with
  | None => Ok false
  | Some o => object_bool L o
  end.

(** line 107: [any(page.get("/Contents") for page in pdf.pages)] *)
Fixpoint any_contents (pages : list (result (PdfPage L))) : M bool :=
  match pages with
  | [] => ret false
  | next :: rest =>
      page <- lift next ;;
      v <- invoke (page_get L page "/Contents")
             (fun r => c_page_get "/Contents" (forget r)) ;;
      b <- lift (truth v) ;;
      if b then ret true else any_contents rest
  end.

(** lines 106-107, the body of the [try] *)
Definition try_body (pdf_path : string) : M (Pdf L * bool) :=
  pdf <- invoke (pikepdf_open L pdf_path)
           (fun r => c_pikepdf_open pdf_path (forget r)) ;;
  has_vector <- any_contents (pdf_pages L pdf) ;;
  ret (pdf, has_vector).

(** the local [pdf] when the [except] clause runs: bound once
    [pikepdf.open] has returned *)
Definition pdf_binding (pdf_path : string) : option (Pdf L) :=
  match pikepdf_open L pdf_path with
  | Ok pdf => Some pdf
  | Raise _ => None
  end.

(** lines 105-109: the locals [pdf] and [has_vector] after the [try] *)
Definition classify (pdf_path : string) : M (option (Pdf L) * bool) :=
  try_except
    (r <- try_body pdf_path ;; ret (Some (fst r), snd r))
    (fun _ => ret (pdf_binding pdf_path, false)).

(** lines 111-121 *)
Definition vector_branch (pdf : Pdf L) : M bytes :=
  let kw1 := {| optimize_streams := true; compression := None |} in
  output_bytes <- invoke (pdf_save L pdf kw1) (c_pdf_save kw1) ;;
  let kw2 := {| optimize_streams := true;
                compression := Some CompressionLevel_default |} in
  output_bytes <- invoke (pdf_save L pdf kw2) (c_pdf_save kw2) ;;
  print "Digital PDF compressed using vector optimization." ;;;
  ret output_bytes.

(** lines 132-149: from the decoded image to the re-encoded stream *)
Definition reencode (image : Image) : M bytes :=
  let compression := choose_compression image in
  let dpi := effective_dpi image in
  image <- (if gt_int dpi DPI_THRESHOLD
            then
              size <- lift (new_size image dpi) ;;
              invoke (Image_resize L image size LANCZOS)
                (c_resize image size LANCZOS)
            else ret image) ;;
  invoke (Image_save L image (save_kw compression))
    (c_Image_save image (save_kw compression)).

(** lines 128-150: one turn of the inner loop *)
Definition process_image (doc : FitzDoc L) (img : image_item) : M (FitzDoc L) :=
  let xref := item_xref img in
  base_image <- invoke (extract_image L doc xref) (c_extract_image xref) ;;
  img_bytes <- lift (match base_image with
                     | Some b => Ok b
                     | None => Raise (KeyError "image")
                     end) ;;
  image <- invoke (Image_open L img_bytes) (c_Image_open img_bytes) ;;
  stream <- reencode image ;;
  invoke (update_image L doc xref stream)
    (fun r => c_update_image xref stream (forget r)).

(** lines 127-150 *)
Fixpoint for_images (doc : FitzDoc L) (images : list image_item) : M (FitzDoc L) :=
  match images with
  | [] => ret doc
  | img :: rest =>
      doc <- process_image doc img ;;
      for_images doc rest
  end.

(** lines 124-150, over the page indices of [range(len(doc))] *)
Fixpoint for_pages (doc : FitzDoc L) (indices : list nat) : M (FitzDoc L) :=
  match indices with
  | [] => ret doc
  | page_index :: rest =>
      page <- lift (fitz_getitem L doc page_index) ;;
      images <- invoke (page_get_images L doc page) (c_get_images page_index) ;;
      doc <- for_images doc images ;;
      for_pages doc rest
  end.

(** lines 123-150 *)
Definition raster_branch (pdf_path : string) : M (FitzDoc L) :=
  doc <- invoke (fitz_open L pdf_path)
           (fun r => c_fitz_open pdf_path (forget r)) ;;
  for_pages doc (seq 0 (fitz_len L doc)).

Definition final_save_kw : doc_save_kw := {| garbage := 4; deflate := true |}.

(** lines 100-155.  Lines 151-155 stand after the [if]/[else], at the level
    of the branch, so they run on both paths and read the local [doc],
    which only the [else] path assigns. *)
Definition compress (file : FileStorage) (pdf_path : string) : M (string * bytes) :=
  let output_filename := replace (upload_filename file) ".pdf" "_compressed.pdf" in
  locals <- classify pdf_path ;;
  let pdf := fst locals in
  let has_vector := snd locals in
  doc <- (if has_vector
          then
            pdf <- local "pdf" pdf ;;
            output_bytes <- vector_branch pdf ;;
            ret None
          else
            doc <- raster_branch pdf_path ;;
            ret (Some doc)) ;;
  doc <- local "doc" doc ;;
  output_bytes <- invoke (fitz_save L doc final_save_kw) (c_fitz_save final_save_kw) ;;
  print "Scanned PDF compressed with image optimization." ;;;
  ret (output_filename, output_bytes).

(** lines 75-79 *)
Fixpoint save_previews (file_name : string) (i : nat) (images : list Image)
  : M (list string) :=
  match images with
  | [] => ret []
  | img :: rest =>
      let img_name := (file_name ++ "_" ++ string_of_nat i ++ ".png")%string in
      let img_path := os_path_join L (PREVIEW_DIR L) img_name in
      invoke (Image_save_file L img img_path "PNG")
        (c_Image_save_file img_path "PNG") ;;;
      names <- save_previews file_name (S i) rest ;;
      ret (img_name :: names)
  end.

(** lines 72-81 *)
Definition split (file : FileStorage) (pdf_path : string) : M branch_result :=
  images <- invoke (convert_from_path L pdf_path (Some 120))
              (c_convert_from_path pdf_path (Some 120)) ;;
  img_paths <- save_previews (upload_filename file) 0 images ;;
  ret (Return (PreviewPage (upload_filename file) img_paths)).

(** lines 90-91 *)
Fixpoint ocr_pages (pages : list Image) : M (list string) :=
  match pages with
  | [] => ret []
  | p :: rest =>
      text <- invoke (image_to_string L p) c_image_to_string ;;
      texts <- ocr_pages rest ;;
      ret (text :: texts)
  end.

(** lines 85-96 *)
Definition convert (file : FileStorage) (pdf_path : string) : M branch_result :=
  let output_filename := replace (upload_filename file) ".pdf" ".docx" in
  pages <- invoke (convert_from_path L pdf_path None)
             (c_convert_from_path pdf_path None) ;;
  paragraphs <- ocr_pages pages ;;
  output_bytes <- invoke (docx_save L paragraphs) (c_docx_save paragraphs) ;;
  ret (Continue output_filename output_bytes).

(** lines 64-159 *)
Definition route_body (file : FileStorage) (operation : option string)
  : M branch_result :=
  let pdf_path := os_path_join L (PDF_DIR L) (upload_filename file) in
  invoke (file_save L pdf_path (upload_content file)) (c_file_save pdf_path) ;;;
  if op_is operation "split" then split file pdf_path
  else if op_is operation "convert" then convert file pdf_path
  else if op_is operation "compress" then
    r <- compress file pdf_path ;;
    ret (Continue (fst r) (snd r))
  else ret (Return (PlainText "Invalid operation" 400)).

(** [process_pdf]: the response, the table afterwards, and the calls made.
    An exception that leaves the function is the server's error response;
    the table is then as it was. *)
Definition process_pdf (req : request) (db : Db.table)
  : response * Db.table * list call :=
  match files_file req with
  | None => (PlainText "No file uploaded" 400, db, [])
  | Some file =>
      if not_file (files_file req)
      then (PlainText "No file uploaded" 400, db, [])
      else
        match route_body file (form_operation req) with
        | (Raise e, t) => (InternalServerError e, db, t)
        | (Ok (Return r), t) => (r, db, t)
        | (Ok (Continue output_filename output_bytes), t) =>
            let (db', record) :=
              Db.add_commit db output_filename (op_name (form_operation req))
                output_bytes in
            (ResultPage output_filename (op_name (form_operation req))
               (Db.id record), db', t)
        end
  end.

End Route.

End App.
Export App.

(** ** The vocabulary of the specification *)

Module Spec.

Inductive doc_class : Type := Vector | Scanned.

Definition classification (has_vector : bool) : doc_class :=
  if has_vector then Vector else Scanned.

Inductive color_mode : Type := bilevel | grayscale | color.

Inductive encoding : Type :=
| lossless_group4
| lossy (quality : Z).

(** the table of the specification:
    {bilevel: lossless, grayscale: lossy85, color: lossy85} *)
Definition encoding_table (c : color_mode) : encoding :=
  match c with
  | bilevel => lossless_group4
  | grayscale => lossy 85
  | color => lossy 85
  end.

(** Pillow's mode strings: ["1"] is bilevel, ["L"] grayscale, any other
    mode counts as color *)
Definition color_mode_of (mode : string) : color_mode :=
  if (mode =? "1")%string then bilevel
  else if (mode =? "L")%string then grayscale
  else color.

(** how an encoding is asked of [image.save] *)
Definition kw_of_encoding (e : encoding) : image_save_kw :=
  match e with
  | lossless_group4 =>
      {| format := "TIFF"; kw_compression := Some "group4";
         kw_quality := None; kw_optimize := false |}
  | lossy q =>
      {| format := "JPEG"; kw_compression := None;
         kw_quality := Some q; kw_optimize := true |}
  end.

(** a dimension scaled by 150/dpi and rounded down, in exact arithmetic *)
Definition scaled_down (dim dpi : Z) : Z := (150 * dim) / dpi.

(** the vector branch as the specification has it: one save *)
Definition vector_single_save (L : library) (pdf : Pdf L) : M bytes :=
  let kw2 := {| optimize_streams := true;
                compression := Some CompressionLevel_default |} in
  output_bytes <- invoke (pdf_save L pdf kw2) (c_pdf_save kw2) ;;
  print "Digital PDF compressed using vector optimization." ;;;
  ret output_bytes.

(** the exception a call recorded, if it raised *)
Definition failure_of {A} (r : result A) : option exn :=
  match r with
  | Ok _ => None
  | Raise e => Some e
  end.

Definition failed (c : call) : option exn :=
  match c with
  | c_file_save _ r => failure_of r
  | c_pikepdf_open _ r => failure_of r
  | c_page_get _ r => failure_of r
  | c_pdf_save _ r => failure_of r
  | c_fitz_open _ r => failure_of r
  | c_get_images _ r => failure_of r
  | c_extract_image _ r => failure_of r
  | c_Image_open _ r => failure_of r
  | c_resize _ _ _ r => failure_of r
  | c_Image_save _ _ r => failure_of r
  | c_update_image _ _ r => failure_of r
  | c_fitz_save _ r => failure_of r
  | c_convert_from_path _ _ r => failure_of r
  | c_Image_save_file _ _ r => failure_of r
  | c_image_to_string r => failure_of r
  | c_docx_save _ r => failure_of r
  | c_print _ => None
  end.

(** the calls of structural inspection, made inside the [try] *)
Definition inspection_call (c : call) : bool :=
  match c with
  | c_pikepdf_open _ _ | c_page_get _ _ => true
  | _ => false
  end.

(** the Pillow calls on an embedded image: a file that does not decode
    fails in [Image.open] or, when its pixels are loaded late, in the
    resize or the save that follows *)
Definition pillow_call (c : call) : bool :=
  match c with
  | c_Image_open _ _ | c_resize _ _ _ _ | c_Image_save _ _ _ => true
  | _ => false
  end.

(** the cross-reference numbers [get_images] listed, in order *)
Definition listed (t : list call) : list Z :=
  flat_map (fun c => match c with
                     | c_get_images _ (Ok items) => map item_xref items
                     | _ => []
                     end) t.

(** the cross-reference numbers whose stream was replaced, in order *)
Definition updated (t : list call) : list Z :=
  flat_map (fun c => match c with
                     | c_update_image xref _ (Ok _) => [xref]
                     | _ => []
                     end) t.

(** the arguments of the [image.save] calls *)
Definition saves (t : list call) : list image_save_kw :=
  flat_map (fun c => match c with
                     | c_Image_save _ kw _ => [kw]
                     | _ => []
                     end) t.

(** the [Image.open] calls that returned before the first one that raised:
    the index of the image that failed to decode *)
Fixpoint failing_index (t : list call) : option nat :=
  match t with
  | [] => None
  | c_Image_open _ (Raise _) :: _ => Some O
  | c_Image_open _ (Ok _) :: rest => option_map S (failing_index rest)
  | _ :: rest => failing_index rest
  end.

(** the arguments [image.save] gets for an image *)
Definition chosen_kw (image : Image) : image_save_kw :=
  save_kw (choose_compression image).

(** the value of [output_filename] on the compress branch *)
Definition compressed_name (file : FileStorage) : string :=
  replace (upload_filename file) ".pdf" "_compressed.pdf".

(** A failure outside structural inspection ends the computation: the call
    that raised is the last one made, and its exception is the outcome. *)
Definition escapes {A} (m : M A) : Prop :=
  forall c e, In c (trace m) -> failed c = Some e -> inspection_call c = false ->
    outcome m = Raise e /\ exists t0, trace m = t0 ++ [c].

Section Classifier.

Context (L : library).

(** the value of [pdf_path] *)
Definition pdf_path_of (file : FileStorage) : string :=
  os_path_join L (PDF_DIR L) (upload_filename file).

(** a page exposes a non-empty content stream: [/Contents] is there and
    its truth value is [True] *)
Definition exposes_content (page : PdfPage L) : Prop :=
  exists o, page_get L page "/Contents" = Ok (Some o) /\ object_bool L o = Ok true.


(** the classifier: lines 105-109 read as Vector / Scanned *)
Definition classifier (pdf_path : string) : result doc_class :=
  match outcome (classify L pdf_path) with
  | Ok locals => Ok (classification (snd locals))
  | Raise e => Raise e
  end.

End Classifier.

End Spec.
Export Spec.

(** ** A reference instance of the toolkits

    An in-memory document format and a table-driven image codec: enough of
    the libraries to run the route on closed examples. *)

Module Toy.

Record page : Type := {
  contents : option bytes;
  images : list image_item
}.

Record document : Type := {
  pages : list page;
  objects : list (Z * bytes)
}.

Fixpoint bytes_eqb (a b : bytes) : bool :=
  match a, b with
  | [], [] => true
  | x :: a', y :: b' => Byte.eqb x y && bytes_eqb a' b'
  | _, _ => false
  end.

Fixpoint lookup {K V} (eqb : K -> K -> bool) (k : K) (l : list (K * V)) : option V :=
  match l with
  | [] => None
  | (k', v) :: rest => if eqb k k' then Some v else lookup eqb k rest
  end.

Definition open (files : list (string * document)) (path : string) : result document :=
  match lookup String.eqb path files with
  | Some d => Ok d
  | None => Raise (LibraryError "open" "no such file")
  end.

Definition set_object (xref : Z) (stream : bytes) (objs : list (Z * bytes))
  : list (Z * bytes) :=
  map (fun o => if fst o =? xref then (xref, stream) else o) objs.

Definition update (d : document) (xref : Z) (stream : bytes) : result document :=
  match lookup Z.eqb xref (objects d) with
  | Some _ => Ok {| pages := pages d; objects := set_object xref stream (objects d) |}
  | None => Raise (LibraryError "fitz" "bad xref")
  end.

Definition referenced (d : document) : list Z :=
  flat_map (fun p => map item_xref (images p)) (pages d).

(** garbage collection: objects no page refers to are dropped *)
Definition collect (d : document) : document :=
  {| pages := pages d;
     objects := filter (fun o => existsb (Z.eqb (fst o)) (referenced d)) (objects d) |}.

(** one byte [01] per page, a byte [00], then the streams *)
Definition serialize (d : document) : bytes :=
  repeat x01 (List.length (pages d)) ++ x00 :: List.concat (map snd (objects d)).

Fixpoint count_pages (b : bytes) : option nat :=
  match b with
  | [] => None
  | x :: rest =>
      if Byte.eqb x x00 then Some O
      else if Byte.eqb x x01 then option_map S (count_pages rest)
      else None
  end.

Definition resize (im : Image) (size : Z * Z) (filter : resample) : result Image :=
  if (fst size <=? 0) || (snd size <=? 0)
  then Raise (LibraryError "PIL" "height and width must be > 0")
  else Ok {| mode := mode im; info_dpi := info_dpi im;
             width := fst size; height := snd size; pixels := pixels im |}.

Definition decode (codec : list (bytes * Image)) (data : bytes) : result Image :=
  match lookup bytes_eqb data codec with
  | Some im => Ok im
  | None => Raise (LibraryError "PIL" "cannot identify image file")
  end.

Definition encode (im : Image) (kw : image_save_kw) : result bytes :=
  Ok ((if (format kw =? "TIFF")%string then x49 else xff) :: pixels im).

Definition library_of (files : list (string * document)) (codec : list (bytes * Image))
  : library :=
  {| PDF_DIR := "pdf";
     PREVIEW_DIR := "preview";
     os_path_join := fun a b => (a ++ "/" ++ b)%string;
     file_save := fun _ _ => Ok tt;
     Pdf := document;
     PdfPage := page;
     PdfObject := bytes;
     pikepdf_open := open files;
     pdf_pages := fun d => map Ok (pages d);
     page_get := fun p key =>
       Ok (if (key =? "/Contents")%string then contents p else None);
     object_bool := fun o => Ok (negb (bytes_eqb o []));
     pdf_save := fun d _ => Ok (serialize d);
     FitzDoc := document;
     FitzPage := page;
     fitz_open := open files;
     fitz_len := fun d => List.length (pages d);
     fitz_getitem := fun d i =>
       match nth_error (pages d) i with
       | Some p => Ok p
       | None => Raise (LibraryError "fitz" "page not in document")
       end;
     page_get_images := fun _ p => Ok (images p);
     extract_image := fun d xref => Ok (lookup Z.eqb xref (objects d));
     update_image := update;
     fitz_save := fun d _ => Ok (serialize (collect d));
     pdf_page_count := count_pages;
     Image_open := decode codec;
     Image_resize := resize;
     Image_save := encode;
     Image_save_file := fun _ _ _ => Ok tt;
     convert_from_path := fun _ _ => Ok [];
     image_to_string := fun _ => Ok EmptyString;
     docx_save := fun _ => Ok [] |}.

(** *** Sample data *)

Definition im_bilevel : Image :=
  {| mode := "1"; info_dpi := Some (PyInt 150, PyInt 150);
     width := 1000; height := 800; pixels := [x01] |}.

Definition im_gray : Image :=
  {| mode := "L"; info_dpi := Some (PyInt 300, PyInt 300);
     width := 3000; height := 2400; pixels := [x02] |}.

Definition im_color : Image :=
  {| mode := "RGB"; info_dpi := Some (PyInt 600, PyInt 600);
     width := 2000; height := 1000; pixels := [x03] |}.

(** 318 x 424 pixels at 212 DPI *)
Definition im_212 : Image :=
  {| mode := "RGB"; info_dpi := Some (PyInt 212, PyInt 212);
     width := 318; height := 424; pixels := [x04] |}.

(** one pixel wide at 300 DPI *)
Definition im_thin : Image :=
  {| mode := "L"; info_dpi := Some (PyInt 300, PyInt 300);
     width := 1; height := 2400; pixels := [x05] |}.

(** no declared resolution *)
Definition im_plain : Image :=
  {| mode := "RGB"; info_dpi := None;
     width := 640; height := 480; pixels := [x06] |}.

Definition codec : list (bytes * Image) :=
  [([x0a], im_bilevel); ([x0b], im_gray); ([x0c], im_color);
   ([x0d], im_212); ([x0e], im_thin); ([x0f], im_plain)].

Definition item (xref : Z) : image_item := {| item_xref := xref; item_name := "Im" |}.

(** a text page: a content stream, no image *)
Definition vector_doc : document :=
  {| pages := [ {| contents := Some [x42; x54]; images := [] |} ];
     objects := [] |}.

(** two scanned pages with three images, and an object no page refers to *)
Definition scanned_doc : document :=
  {| pages := [ {| contents := None; images := [item 5; item 6] |};
                {| contents := None; images := [item 7] |} ];
     objects := [(5, [x0a]); (6, [x0b]); (7, [x0c]); (9, [x00; x00])] |}.

(** a scan whose only image does not decode *)
Definition broken_first : document :=
  {| pages := [ {| contents := None; images := [item 5] |} ];
     objects := [(5, [xee])] |}.

(** a scan whose second image does not decode *)
Definition broken_second : document :=
  {| pages := [ {| contents := None; images := [item 5; item 6] |} ];
     objects := [(5, [x0a]); (6, [xee])] |}.

Definition files : list (string * document) :=
  [("pdf/text.pdf", vector_doc); ("pdf/scan.pdf", scanned_doc);
   ("pdf/bad1.pdf", broken_first); ("pdf/bad2.pdf", broken_second)].

Definition lib : library := library_of files codec.

Definition named (name : string) : FileStorage :=
  {| upload_filename := name; upload_content := [] |}.

(** a compress request for the file of that name *)
Definition upload (name : string) : request :=
  {| files_file := Some (named name);
     form_operation := Some "compress" |}.

Definition decode_error : exn := LibraryError "PIL" "cannot identify image file".

End Toy.

(** ** The other routes *)

Module Routes.

(** [FileRecord.query.get(file_id)]: the row with that key *)
Definition get (db : Db.table) (file_id : Z) : option Db.FileRecord :=
  find (fun r => Db.id r =? file_id) db.

Inductive download_response : Type :=
| Attachment (download_name : string) (data : bytes)
| NotFound.

(** lines 211-219: [download] *)
Definition download (db : Db.table) (file_id : Z) : download_response :=
  match get db file_id with
  | Some record => Attachment (Db.filename record) (Db.file_data record)
  | None => NotFound
  end.

(** lines 222-224: [preview_image], as the path it hands to [send_file] *)
Definition preview_image (L : library) (filename : string) : string :=
  os_path_join L (PREVIEW_DIR L) filename.

(** pypdf and the builtin [int], as [split_final] uses them.
    [pages_getitem] is [reader.pages[i]]; [PdfWriter] is the empty writer,
    [add_page] the writer after one more page, [writer_write] the bytes
    [writer.write(buffer)] leaves in the buffer; [int_of_str] is [int(p)]
    on a form value. *)
Record pypdf : Type := {
  Reader : Type;
  ReaderPage : Type;
  Writer : Type;
  PdfReader : string -> result Reader;
  pages_getitem : Reader -> Z -> result ReaderPage;
  PdfWriter : Writer;
  add_page : Writer -> ReaderPage -> result Writer;
  writer_write : Writer -> result bytes;
  int_of_str : string -> result Z
}.

Section SplitFinal.

Context (L : library) (P : pypdf).

(** lines 186-187 *)
Fixpoint add_pages (reader : Reader P) (writer : Writer P) (pages : list string)
  : result (Writer P) :=
  match pages with
  | [] => Ok writer
  | p :: rest =>
      i <-? int_of_str P p ;;
      page <-? pages_getitem P reader i ;;
      writer <-? add_page P writer page ;;
      add_pages reader writer rest
  end.

(** a form field that may be missing, where a string is needed *)
Definition needs_str (origin : string) (v : option string) : result string :=
  match v with
  | Some s => Ok s
  | None => Raise (LibraryError origin "TypeError")
  end.

(** lines 180-193, with [pdf_name = request.form.get("pdf_name")] and
    [pages = request.form.getlist("pages")] *)
Definition split_final_body (pdf_name : option string) (pages : list string)
  : result (string * bytes) :=
  name <-? needs_str "os.path.join" pdf_name ;;
  reader <-? PdfReader P (os_path_join L (PDF_DIR L) name) ;;
  writer <-? add_pages reader (PdfWriter P) pages ;;
  data <-? writer_write P writer ;;
  Ok (replace name ".pdf" "_selected.pdf", data).

(** lines 178-208: [split_final] *)
Definition split_final (pdf_name : option string) (pages : list string) (db : Db.table)
  : response * Db.table :=
  match split_final_body pdf_name pages with
  | Raise e => (InternalServerError e, db)
  | Ok (output_filename, data) =>
      let (db', record) := Db.add_commit db output_filename "split" data in
      (ResultPage output_filename "split" (Db.id record), db')
  end.

End SplitFinal.

(** *** Vocabulary *)

(** the keys of the table are 1, 2, ..., in row order *)
Definition sequential (db : Db.table) : Prop :=
  map Db.id db = map (fun i => Z.of_nat i + 1) (seq 0 (List.length db)).

(** line 76: [f"{file.filename}_{i}.png"] *)
Definition preview_name (file_name : string) (i : nat) : string :=
  (file_name ++ "_" ++ string_of_nat i ++ ".png")%string.


(** [old] occurs in [s] *)
Fixpoint occurs (old s : string) : bool :=
  match s with
  | EmptyString => String.prefix old EmptyString
  | String _ s' => String.prefix old s || occurs old s'
  end.

(** [extract_image] returned a dict without the key ["image"] *)
Definition missing_image (c : call) : bool :=
  match c with
  | c_extract_image _ (Ok None) => true
  | _ => false
  end.

(** the calls that touch an embedded image *)
Definition image_call (c : call) : bool :=
  match c with
  | c_extract_image _ _ | c_Image_open _ _ | c_resize _ _ _ _
  | c_Image_save _ _ _ | c_update_image _ _ _ => true
  | _ => false
  end.

(** the page indices [get_images] was called for, in order *)
Definition visited (t : list call) : list nat :=
  flat_map (fun c => match c with
                     | c_get_images page_index _ => [page_index]
                     | _ => []
                     end) t.

(** the exception a call leads to without raising itself: the missing key
    of line 130 *)
Definition key_error (c : call) : option exn :=
  if missing_image c then Some (KeyError "image") else None.

(** A call that [bad] marks ends the computation: it is the last call
    made, and the exception [bad] gives for it is the outcome. *)
Definition aborts_on (bad : call -> option exn) {A} (m : M A) : Prop :=
  forall c e, In c (trace m) -> bad c = Some e ->
    outcome m = Raise e /\ exists t0, trace m = t0 ++ [c].

(** *** A reference instance of pypdf *)

Definition toy_getitem (reader : list byte) (i : Z) : result byte :=
  let n := Z.of_nat (List.length reader) in
  let j := if i <? 0 then i + n else i in
  if (0 <=? j) && (j <? n)
  then match nth_error reader (Z.to_nat j) with
       | Some p => Ok p
       | None => Raise (LibraryError "pypdf" "IndexError")
       end
  else Raise (LibraryError "pypdf" "IndexError").

Definition toy_int (s : string) : result Z :=
  match s with
  | EmptyString => Raise ValueError
  | _ => match DecimalString.NilEmpty.uint_of_string s with
         | Some u => Ok (Z.of_nat (Nat.of_uint u))
         | None => Raise ValueError
         end
  end.

(** a reader page is one byte, a written document the bytes of its pages *)
Definition toy_pypdf : pypdf :=
  {| Reader := list byte;
     ReaderPage := byte;
     Writer := list byte;
     PdfReader := fun path =>
       if (path =? "pdf/scan.pdf")%string then Ok [x0a; x0b; x0c]
       else Raise (LibraryError "pypdf" "FileNotFoundError");
     pages_getitem := toy_getitem;
     PdfWriter := [];
     add_page := fun w p => Ok (w ++ [p]);
     writer_write := fun w => Ok w;
     int_of_str := toy_int |}.

(** *** A reference instance with page images and text recognition *)

(** the libraries of [base], with [convert_from_path] rendering [scans],
    [image_to_string] reading the mode of the image as its text, and
    [docx_save] writing one byte per paragraph *)
Definition with_ocr (base : library) (scans : list Image) : library :=
  {| PDF_DIR := PDF_DIR base;
     PREVIEW_DIR := PREVIEW_DIR base;
     os_path_join := os_path_join base;
     file_save := file_save base;
     Pdf := Pdf base;
     PdfPage := PdfPage base;
     PdfObject := PdfObject base;
     pikepdf_open := pikepdf_open base;
     pdf_pages := pdf_pages base;
     page_get := page_get base;
     object_bool := object_bool base;
     pdf_save := pdf_save base;
     FitzDoc := FitzDoc base;
     FitzPage := FitzPage base;
     fitz_open := fitz_open base;
     fitz_len := fitz_len base;
     fitz_getitem := fitz_getitem base;
     page_get_images := page_get_images base;
     extract_image := extract_image base;
     update_image := update_image base;
     fitz_save := fitz_save base;
     pdf_page_count := pdf_page_count base;
     Image_open := Image_open base;
     Image_resize := Image_resize base;
     Image_save := Image_save base;
     Image_save_file := Image_save_file base;
     convert_from_path := fun _ _ => Ok scans;
     image_to_string := fun im => Ok (mode im);
     docx_save := fun paragraphs => Ok (map (fun _ => x01) paragraphs) |}.

Definition toy_ocr : library :=
  with_ocr Toy.lib [Toy.im_bilevel; Toy.im_gray; Toy.im_color].

(** a scan that lists an image whose object is gone, and a scan without
    images *)
Definition toy_files : list (string * Toy.document) :=
  [("pdf/hole.pdf",
    {| Toy.pages := [ {| Toy.contents := None; Toy.images := [Toy.item 8] |} ];
       Toy.objects := [] |});
   ("pdf/blank.pdf",
    {| Toy.pages := [ {| Toy.contents := None; Toy.images := [] |};
                      {| Toy.contents := None; Toy.images := [] |} ];
       Toy.objects := [] |});
   ("pdf/mixed.pdf",
    {| Toy.pages := [ {| Toy.contents := None; Toy.images := [] |};
                      {| Toy.contents := Some [x42]; Toy.images := [] |};
                      {| Toy.contents := Some [x43]; Toy.images := [] |} ];
       Toy.objects := [] |})].

Definition toy_more : library := Toy.library_of toy_files Toy.codec.

(** a request for [operation] on an upload of that name *)
Definition toy_request (name : string) (operation : option string) : request :=
  {| files_file := Some (Toy.named name); form_operation := operation |}.

End Routes.
Export Routes.

(** * Facts *)

(** ** binary64 rounding

    What [SpecFloat]'s rounding does to a mantissa of at least 53 bits,
    from its definition: enough to bound [int(w * (150 / d))]. *)

(** [digits2_pos p] is the number of binary digits of [p] *)
Lemma digits2_pos_bounds (p : positive) :
  2 ^ (Zpos (digits2_pos p) - 1) <= Zpos p < 2 ^ Zpos (digits2_pos p).
Proof.
  induction p as [p IH | p IH |]; cbn [digits2_pos].
  - rewrite Pos2Z.inj_succ. change (Zpos p~1) with (2 * Zpos p + 1).
    replace (Z.succ (Zpos (digits2_pos p)) - 1) with (Z.succ (Zpos (digits2_pos p) - 1)) by lia.
    rewrite !Z.pow_succ_r by lia.
    generalize dependent (2 ^ (Zpos (digits2_pos p) - 1)).
    generalize (2 ^ Zpos (digits2_pos p)). lia.
  - rewrite Pos2Z.inj_succ. change (Zpos p~0) with (2 * Zpos p).
    replace (Z.succ (Zpos (digits2_pos p)) - 1) with (Z.succ (Zpos (digits2_pos p) - 1)) by lia.
    rewrite !Z.pow_succ_r by lia.
    generalize dependent (2 ^ (Zpos (digits2_pos p) - 1)).
    generalize (2 ^ Zpos (digits2_pos p)). lia.
  - cbn. lia.
Qed.

(** a one-bit shift halves the mantissa *)
Lemma shr_1_m (mrs : shr_record) :
  0 <= shr_m mrs -> shr_m (shr_1 mrs) = shr_m mrs / 2.
Proof.
  destruct mrs as [m r s]. cbn [shr_m]. intros Hm.
  rewrite <- Z.div2_div.
  destruct m as [|[p|p|]|p]; try reflexivity; lia.
Qed.

(** and [p] shifts divide it by [2^p] *)
Lemma iter_shr_1_m (p : positive) : forall mrs,
  0 <= shr_m mrs -> shr_m (iter_pos shr_1 p mrs) = shr_m mrs / 2 ^ Zpos p.
Proof.
  induction p as [p IH | p IH |]; intros mrs Hm; cbn [iter_pos].
  - assert (H1 : 0 <= shr_m (shr_1 mrs)) by (rewrite shr_1_m by lia; apply Z.div_pos; lia).
    assert (H2 : 0 <= shr_m (iter_pos shr_1 p (shr_1 mrs))) by (rewrite IH by lia; apply Z.div_pos; lia).
    rewrite IH, IH, shr_1_m by lia.
    rewrite !Z.div_div by lia.
    f_equal. replace (Zpos p~1) with (Z.succ (Zpos p + Zpos p)) by lia. rewrite Z.pow_succ_r, Z.pow_add_r by lia. lia.
  - assert (H2 : 0 <= shr_m (iter_pos shr_1 p mrs)) by (rewrite IH by lia; apply Z.div_pos; lia).
    rewrite IH, IH by lia.
    rewrite !Z.div_div by lia.
    f_equal. replace (Zpos p~0) with (Zpos p + Zpos p) by lia. rewrite Z.pow_add_r by lia. lia.
  - rewrite shr_1_m by lia. reflexivity.
Qed.

(** rounding keeps the truncated mantissa or adds one to it *)
Lemma round_nearest_even_range (m : Z) (l : location) :
  m <= round_nearest_even m l <= m + 1.
Proof.
  destruct l as [|[| |]]; cbn; try lia. destruct (Z.even m); lia.
Qed.

Lemma shr_nonneg (mrs : shr_record) (e n : Z) :
  0 <= shr_m mrs -> 0 <= n ->
  exists mrs', shr mrs e n = (mrs', e + n) /\ shr_m mrs' = shr_m mrs / 2 ^ n /\
               (n = 0 -> mrs' = mrs).
Proof.
  intros Hm Hn. destruct n as [|q|q]; cbn [shr]; try lia.
  - exists mrs. rewrite Z.add_0_r, Z.pow_0_r, Z.div_1_r. auto.
  - exists (iter_pos shr_1 q mrs). rewrite iter_shr_1_m by lia.
    repeat split. lia.
Qed.

Lemma shr_m_of_loc (m : Z) (l : location) : shr_m (shr_record_of_loc m l) = m.
Proof. destruct l as [|[| |]]; reflexivity. Qed.

Lemma loc_of_shr_of_loc (m : Z) (l : location) :
  loc_of_shr_record (shr_record_of_loc m l) = l.
Proof. destruct l as [|[| |]]; reflexivity. Qed.

Lemma Zdigits2_bounds (m : Z) :
  0 < m -> 2 ^ (Zdigits2 m - 1) <= m < 2 ^ Zdigits2 m.
Proof.
  destruct m as [|p|p]; try lia. intros _. apply digits2_pos_bounds.
Qed.

(** the digit count is determined by the power-of-two bracket *)
Lemma Zdigits2_unique (m d : Z) :
  2 ^ (d - 1) <= m < 2 ^ d -> 0 < d -> Zdigits2 m = d.
Proof.
  intros [Hlo Hhi] Hd.
  assert (Hm : 0 < m) by (pose proof (Z.pow_pos_nonneg 2 (d - 1)); lia).
  pose proof (Zdigits2_bounds m Hm) as [Hlo' Hhi'].
  assert (Hd' : 0 < Zdigits2 m) by (destruct m; cbn; lia).
  assert (d - 1 < Zdigits2 m).
  { apply (Z.pow_lt_mono_r_iff 2); try lia. }
  assert (Zdigits2 m - 1 < d).
  { apply (Z.pow_lt_mono_r_iff 2); try lia. }
  lia.
Qed.

(** One rounding step of binary64, for a mantissa of at least 53 bits in
    the normal range: the result is the mantissa shifted right by the bits
    in excess, or that plus one. *)
Lemma binary_round_aux_enclosure (mx ex : Z) (lx : location) :
  2 ^ 52 <= mx ->
  -1074 <= ex + (Zdigits2 mx - 53) ->
  ex + (Zdigits2 mx - 53) + 1 <= 971 ->
  exists (m : positive) (e r : Z),
    binary_round_aux prec emax false mx ex lx = S754_finite false m e /\
    ex <= e <= ex + (Zdigits2 mx - 53) + 1 /\
    Zpos m * 2 ^ (e - ex) = r * 2 ^ (Zdigits2 mx - 53) /\
    mx / 2 ^ (Zdigits2 mx - 53) <= r <= mx / 2 ^ (Zdigits2 mx - 53) + 1 /\
    (Zdigits2 mx = 53 -> r = round_nearest_even mx lx) /\
    2 ^ 52 <= Zpos m < 2 ^ 53.
Proof.
  intros Hmx Hlo Hhi.
  assert (Hpos : 0 < mx) by lia.
  pose proof (Zdigits2_bounds mx Hpos) as [Hd1 Hd2].
  assert (Hd0 : 0 < Zdigits2 mx) by (destruct mx; cbn; lia).
  set (d := Zdigits2 mx) in *.
  assert (Hd : 53 <= d).
  { assert (52 < d); [|lia]. apply (Z.pow_lt_mono_r_iff 2); lia. }
  set (n := d - 53) in *.
  unfold binary_round_aux, shr_fexp.
  fold d.
  assert (Hfexp : fexp prec emax (d + ex) - ex = n).
  { unfold fexp, emin, prec, emax. lia. }
  rewrite Hfexp.
  destruct (shr_nonneg (shr_record_of_loc mx lx) ex n) as (mrs1 & E1 & Hm1 & Hz1).
  { rewrite shr_m_of_loc. lia. }
  { lia. }
  rewrite E1. rewrite shr_m_of_loc in Hm1.
  set (m1 := shr_m mrs1) in *.
  assert (Hm1r : 2 ^ 52 <= m1 < 2 ^ 53).
  { rewrite Hm1. split.
    - apply Z.div_le_lower_bound; [lia|].
      rewrite <- Z.pow_add_r by lia. replace (n + 52) with (d - 1) by lia. exact Hd1.
    - apply Z.div_lt_upper_bound; [lia|].
      rewrite <- Z.pow_add_r by lia. replace (n + 53) with d by lia. exact Hd2. }
  pose proof (round_nearest_even_range m1 (loc_of_shr_record mrs1)) as Hr.
  set (m2 := round_nearest_even m1 (loc_of_shr_record mrs1)) in *.
  assert (Hexact : d = 53 -> m2 = round_nearest_even mx lx).
  { intros E53. subst m2 m1. assert (En : n = 0) by lia.
    rewrite (Hz1 En), loc_of_shr_of_loc, shr_m_of_loc. reflexivity. }
  clearbody m2 m1.
  destruct (Z.eq_dec m2 (2 ^ 53)) as [Etop | Ntop].
  - (* the rounded mantissa reached 2^53: one more shift *)
    assert (Hdig : Zdigits2 m2 = 54) by (rewrite Etop; reflexivity).
    rewrite Hdig.
    assert (Hf2 : fexp prec emax (54 + (ex + n)) - (ex + n) = 1).
    { unfold fexp, emin, prec, emax. lia. }
    rewrite Hf2. rewrite Etop. cbn [shr_record_of_loc shr iter_pos shr_1 shr_m].
    change (2 ^ 53) with 9007199254740992. cbn [shr_1 shr_m].
    assert (Hle : (ex + n + 1 <=? emax - prec) = true) by (apply Z.leb_le; unfold emax, prec; lia).
    rewrite Hle.
    eexists _, _, m2. split; [reflexivity|].
    repeat split; try lia.
    replace (ex + n + 1 - ex) with (n + 1) by lia.
    rewrite Z.pow_add_r by lia. rewrite Etop. lia.
  - assert (Hdig : Zdigits2 m2 = 53) by (apply Zdigits2_unique; lia).
    rewrite Hdig.
    assert (Hf2 : fexp prec emax (53 + (ex + n)) - (ex + n) = 0).
    { unfold fexp, emin, prec, emax. lia. }
    rewrite Hf2. cbn [shr shr_record_of_loc shr_m].
    destruct m2 as [|p2|p2]; try lia.
    assert (Hle : (ex + n <=? emax - prec) = true) by (apply Z.leb_le; unfold emax, prec; lia).
    rewrite Hle.
    exists p2, (ex + n), (Zpos p2). split; [reflexivity|].
    repeat split; try lia.
    replace (ex + n - ex) with n by lia. reflexivity.
Qed.



(** appending [k] zero bits multiplies by [2^k] *)
Lemma iter_xO_pow2 (p k : positive) :
  Zpos (Pos.iter xO p k) = Zpos p * 2 ^ Zpos k.
Proof.
  induction k as [|k IH] using Pos.peano_ind.
  - cbn [Pos.iter]. lia.
  - rewrite Pos.iter_succ, Pos2Z.inj_succ, Z.pow_succ_r by lia.
    change (Zpos (Pos.iter xO p k)~0) with (2 * Zpos (Pos.iter xO p k)).
    rewrite IH. lia.
Qed.

Lemma pow2_pos (n : Z) : 0 <= n -> 0 < 2 ^ n.
Proof. intros. apply Z.pow_pos_nonneg; lia. Qed.

Lemma Zdigits2_pos (m : Z) : 0 < m -> 0 < Zdigits2 m.
Proof. destruct m; cbn; lia. Qed.

Lemma Zdigits2_le (m b : Z) : 0 < m -> 0 <= b -> m < 2 ^ b -> Zdigits2 m <= b.
Proof.
  intros Hm Hb Hlt. pose proof (Zdigits2_bounds m Hm) as [Hlo _].
  pose proof (Zdigits2_pos m Hm).
  assert (Zdigits2 m - 1 < b); [|lia].
  apply (Z.pow_lt_mono_r_iff 2); lia.
Qed.

Lemma Zdigits2_ge (m b : Z) : 0 <= b -> 2 ^ b <= m -> b < Zdigits2 m.
Proof.
  intros Hb Hle. pose proof (pow2_pos b Hb).
  assert (Hm : 0 < m) by lia.
  pose proof (Zdigits2_bounds m Hm) as [_ Hhi].
  pose proof (Zdigits2_pos m Hm).
  apply (Z.pow_lt_mono_r_iff 2); lia.
Qed.

(** [float(w)] is exact below 2^53 *)
Lemma float_of_int_exact (w : Z) :
  0 < w < 2 ^ 53 ->
  exists (m : positive) (e : Z),
    float_of_int w = Ok (S754_finite false m e) /\
    e = Zdigits2 w - 53 /\
    Zpos m = w * 2 ^ (- e) /\
    2 ^ 52 <= Zpos m < 2 ^ 53.
Proof.
  intros [Hw0 Hw1].
  destruct w as [|p|p]; try lia.
  pose proof (Zdigits2_bounds (Zpos p) Hw0) as [Hlo Hhi].
  pose proof (Zdigits2_le (Zpos p) 53 Hw0 ltac:(lia) Hw1) as Hd53.
  pose proof (Zdigits2_pos (Zpos p) Hw0) as Hd0.
  cbn [Zdigits2] in *. set (dw := Zpos (digits2_pos p)) in *.
  unfold float_of_int, binary_normalize, binary_round.
  fold dw.
  assert (Hfexp : fexp prec emax (dw + 0) = dw - 53).
  { unfold fexp, emin, prec, emax. lia. }
  rewrite Hfexp.
  assert (Hal : exists mz, shl_align p 0 (dw - 53) = (mz, dw - 53) /\
                           Zpos mz = Zpos p * 2 ^ (53 - dw)).
  { unfold shl_align. destruct (dw - 53 - 0) as [|k|k] eqn:Ek; try lia.
    - exists p. replace (dw - 53) with 0 by lia. replace (53 - dw) with 0 by lia.
      split; [reflexivity | lia].
    - exists (Pos.iter xO p k). split; [reflexivity|].
      rewrite iter_xO_pow2. replace (53 - dw) with (Zpos k) by lia. reflexivity. }
  destruct Hal as (mz & Eal & Hmz). rewrite Eal.
  assert (Hrange : 2 ^ 52 <= Zpos mz < 2 ^ 53).
  { rewrite Hmz. split.
    - replace 52 with ((dw - 1) + (53 - dw)) by lia.
      rewrite Z.pow_add_r by lia.
      apply Z.mul_le_mono_nonneg_r; [pose proof (pow2_pos (53 - dw)); lia | lia].
    - replace 53 with (dw + (53 - dw)) at 2 by lia.
      rewrite Z.pow_add_r by lia.
      apply Z.mul_lt_mono_pos_r; [apply pow2_pos; lia | lia]. }
  assert (Hdig : Zdigits2 (Zpos mz) = 53) by (apply Zdigits2_unique; lia).
  destruct (binary_round_aux_enclosure (Zpos mz) (dw - 53) loc_Exact)
    as (m & e & r & Eres & He & Hval & Hr & Hex & Hm); try lia.
  rewrite Eres. exists m, e.
  rewrite Hdig in *. replace (53 - 53) with 0 in * by lia.
  rewrite (Hex eq_refl) in Hval. cbn [round_nearest_even] in Hval.
  rewrite Z.pow_0_r, Z.mul_1_r in Hval.
  assert (Ee : e = dw - 53).
  { destruct (Z.eq_dec e (dw - 53)) as [|Ne]; [assumption|].
    exfalso. assert (He1 : e = dw - 53 + 1) by lia.
    rewrite He1 in Hval. replace (dw - 53 + 1 - (dw - 53)) with 1 in Hval by lia.
    lia. }
  subst e. replace (dw - 53 - (dw - 53)) with 0 in Hval by lia.
  rewrite Z.pow_0_r, Z.mul_1_r in Hval.
  repeat split; try lia.
  rewrite Hval, Hmz. f_equal. f_equal. lia.
Qed.

(** [150 / d] on ints: the quotient of [150 * 2^s] by [d], kept to 53 bits *)
Lemma int_truediv_target (d : Z) :
  200 < d < 2 ^ 31 ->
  exists (mf : positive) (ef j : Z),
    int_truediv 150 d = Ok (S754_finite false mf ef) /\
    j = ef + (45 + Zdigits2 d) /\
    0 <= j <= 2 /\
    (150 * 2 ^ (45 + Zdigits2 d)) / d - 1 <= Zpos mf * 2 ^ j
      <= (150 * 2 ^ (45 + Zdigits2 d)) / d + 2 /\
    2 ^ 52 <= Zpos mf < 2 ^ 53.
Proof.
  intros [Hd0 Hd1].
  assert (Hdpos : 0 < d) by lia.
  pose proof (Zdigits2_bounds d Hdpos) as [Hlo Hhi].
  pose proof (Zdigits2_le d 31 Hdpos ltac:(lia) Hd1) as Hd31.
  assert (Hd8 : 7 < Zdigits2 d) by (apply Zdigits2_ge; lia).
  unfold int_truediv.
  destruct (Z.eqb_spec d 0) as [|_]; [lia|].
  destruct d as [|pd|pd]; try lia.
  cbn [int_mantissa SFdiv xorb].
  unfold SFdiv_core_binary.
  set (d2 := Zdigits2 (Zpos pd)) in *.
  change (Zdigits2 150) with 8.
  assert (He' : Z.min (fexp prec emax (8 + 0 - (d2 + 0))) (0 - 0) = - (45 + d2)).
  { unfold fexp, emin, prec, emax. lia. }
  rewrite He'.
  replace (0 - 0 - - (45 + d2)) with (45 + d2) by lia.
  set (s := 45 + d2) in *.
  assert (Hs : 0 < s) by lia.
  assert (Hm' : match s with
                | 0 => 150
                | Zpos _ => Z.shiftl 150 s
                | Zneg _ => 0
                end = 150 * 2 ^ s).
  { destruct s; try lia. apply Z.shiftl_mul_pow2. lia. }
  rewrite Hm'.
  set (A := 150 * 2 ^ s) in *.
  pose proof (Z.div_mod A (Zpos pd) ltac:(lia)) as Hdm.
  pose proof (Z.mod_pos_bound A (Zpos pd) ltac:(lia)) as Hmod.
  unfold Z.div, Z.modulo in Hdm, Hmod.
  assert (Equo : A / Zpos pd = fst (Z.div_eucl A (Zpos pd))) by reflexivity.
  rewrite Equo.
  destruct (Z.div_eucl A (Zpos pd)) as [q r].
  cbn [fst snd] in *. clear Equo.
  (* the quotient has 53 or 54 bits *)
  assert (HS : 2 ^ s = 2 ^ 45 * 2 ^ d2) by (unfold s; rewrite Z.pow_add_r by lia; reflexivity).
  assert (Hp45 : 2 ^ 45 = 35184372088832) by reflexivity.
  assert (Hd2pos : 0 < 2 ^ d2) by (apply pow2_pos; lia).
  assert (Hd2half : 2 ^ d2 = 2 * 2 ^ (d2 - 1)).
  { rewrite <- Z.pow_succ_r by lia. f_equal. lia. }
  assert (Hq_lo : 2 ^ 52 <= q).
  { assert (2 ^ 52 * Zpos pd < (q + 1) * Zpos pd); [|nia].
    change (2 ^ 52) with (128 * 2 ^ 45). nia. }
  assert (Hq_hi : q < 2 ^ 54).
  { assert (q * Zpos pd < 2 ^ 54 * Zpos pd); [|nia].
    change (2 ^ 54) with (512 * 2 ^ 45). nia. }
  assert (Hdq : 53 <= Zdigits2 q <= 54).
  { split.
    - assert (52 < Zdigits2 q) by (apply Zdigits2_ge; lia). lia.
    - apply Zdigits2_le; lia. }
  destruct (binary_round_aux_enclosure q (- s) (new_location (Zpos pd) r))
    as (m & e & rr & Eres & He & Hval & Hr & _ & Hm); try lia.
  rewrite Eres.
  exists m, e, (e + s).
  split; [reflexivity|].
  split; [reflexivity|].
  split; [lia|].
  split; [|exact Hm].
  replace (e - - s) with (e + s) in Hval by lia.
  rewrite Hval.
  set (n := Zdigits2 q - 53) in *.
  assert (Hn : n = 0 \/ n = 1) by lia.
  destruct Hn as [En | En]; rewrite En in *.
  - rewrite Z.pow_0_r, Z.div_1_r in *. lia.
  - change (2 ^ 1) with 2 in *.
    pose proof (Z.div_mod q 2 ltac:(lia)) as Hq2.
    pose proof (Z.mod_pos_bound q 2 ltac:(lia)) as Hq2m.
    lia.
Qed.

(** The arithmetic behind the two roundings: [Y] is the rounded product in
    units of [1/T], [X] the exact product of [w] by the rounded factor. *)
Lemma scale_arith (w d q Rf P S T X Y N : Z) :
  0 < w < 2 ^ 31 -> 200 < d -> 2 ^ 45 * d <= S -> 0 < P -> T = P * S ->
  q * d <= 150 * S < q * d + d ->
  q - 1 <= Rf <= q + 2 ->
  X = w * P * Rf ->
  2 ^ 52 * Y <= (2 ^ 52 + 1) * X ->
  (2 ^ 52 - 1) * X <= 2 ^ 52 * Y ->
  N * T <= Y < (N + 1) * T ->
  (150 * w) / d - 1 <= N <= (150 * w) / d.
Proof.
  intros Hw Hd HS HP HT Hq HRf HX HY1 HY2 HN.
  change (2 ^ 31) with 2147483648 in *.
  change (2 ^ 45) with 35184372088832 in *.
  change (2 ^ 52) with 4503599627370496 in *.
  assert (HTpos : 0 < T) by nia.
  set (a := w * T).
  set (E := w * P * d).
  assert (Ha : T <= a <= 2147483647 * T) by (unfold a; nia).
  assert (HE0 : 0 < E) by (unfold E; nia).
  assert (HE : 16384 * E <= T).
  { unfold E. rewrite HT.
    assert (16384 * (w * d) <= S) by nia.
    replace (16384 * (w * P * d)) with (P * (16384 * (w * d))) by ring.
    apply Z.mul_le_mono_nonneg_l; lia. }
  assert (HqS : w * P * (q * d) <= 150 * a /\ 150 * a < w * P * (q * d) + E).
  { unfold a, E. rewrite HT.
    replace (150 * (w * (P * S))) with (w * P * (150 * S)) by ring.
    assert (0 < w * P) by nia.
    split.
    - apply Z.mul_le_mono_nonneg_l; lia.
    - replace (w * P * (q * d) + w * P * d) with (w * P * (q * d + d)) by ring.
      apply Z.mul_lt_mono_pos_l; lia. }
  assert (HXd : 150 * a - 2 * E <= X * d <= 150 * a + 2 * E).
  { rewrite HX.
    replace (w * P * Rf * d) with (w * P * (q * d) + E * (Rf - q)) by (unfold E; ring).
    assert (- E <= E * (Rf - q) <= 2 * E) by nia.
    lia. }
  assert (HXpos : 0 <= X * d) by lia.
  assert (HYd1 : 4503599627370496 * (Y * d) <= 4503599627370497 * (X * d)).
  { replace (4503599627370496 * (Y * d)) with (4503599627370496 * Y * d) by ring.
    replace (4503599627370497 * (X * d)) with ((4503599627370496 + 1) * X * d) by ring.
    apply Z.mul_le_mono_nonneg_r; lia. }
  assert (HYd2 : 4503599627370495 * (X * d) <= 4503599627370496 * (Y * d)).
  { replace (4503599627370496 * (Y * d)) with (4503599627370496 * Y * d) by ring.
    replace (4503599627370495 * (X * d)) with ((4503599627370496 - 1) * X * d) by ring.
    apply Z.mul_le_mono_nonneg_r; lia. }
  assert (HNd : N * d * T <= Y * d /\ Y * d < (N * d + d) * T).
  { split.
    - replace (N * d * T) with (N * T * d) by ring.
      apply Z.mul_le_mono_nonneg_r; lia.
    - replace ((N * d + d) * T) with ((N + 1) * T * d) by ring.
      apply Z.mul_lt_mono_pos_r; lia. }
  split.
  - (* floor - 1 <= N *)
    assert (Hup : 150 * w <= (N + 1) * d).
    { destruct (Z_le_gt_dec (150 * w) ((N + 1) * d)) as [|Hgt]; [assumption|].
      exfalso.
      assert (((N * d + d) + 1) * T <= 150 * a).
      { unfold a. replace (150 * (w * T)) with ((150 * w) * T) by ring.
        apply Z.mul_le_mono_nonneg_r; lia. }
      lia. }
    assert ((150 * w) / d < N + 2); [|lia].
    apply Z.div_lt_upper_bound; lia.
  - (* N <= floor *)
    apply Z.div_le_lower_bound; [lia|].
    destruct (Z_le_gt_dec (d * N) (150 * w)) as [|Hgt]; [assumption|].
    exfalso.
    assert ((150 * a) + T <= N * d * T).
    { unfold a. replace (150 * (w * T) + T) with ((150 * w + 1) * T) by ring.
      apply Z.mul_le_mono_nonneg_r; lia. }
    lia.
Qed.

(** [int(w * (150 / d))] in binary64, against the exact quotient *)
Lemma scaled_dimension (w d : Z) :
  0 <= w < 2 ^ 31 -> 200 < d < 2 ^ 31 ->
  exists (factor : spec_float) (N : Z),
    int_truediv 150 d = Ok factor /\
    (x <-? mul_int_float w factor ;; int_of_float x) = Ok N /\
    0 <= N /\
    (150 * w) / d - 1 <= N <= (150 * w) / d.
Proof.
  intros Hw Hd.
  destruct (int_truediv_target d Hd) as (mf & ef & j & Ediv & Ej & Hj & HRf & Hmf).
  exists (S754_finite false mf ef).
  destruct (Z.eq_dec w 0) as [-> | Hw0].
  { exists 0. split; [exact Ediv|]. split; [reflexivity|].
    rewrite Z.mul_0_r, Z.div_0_l by lia. lia. }
  assert (Hwpos : 0 < w) by lia.
  destruct (float_of_int_exact w) as (mW & eW & EW & HeW & HmW & HmWr).
  { change (2 ^ 53) with 9007199254740992. change (2 ^ 31) with 2147483648 in Hw. lia. }
  assert (Hdpos : 0 < d) by lia.
  pose proof (Zdigits2_bounds d Hdpos) as [Hdlo Hdhi].
  pose proof (Zdigits2_le d 31 Hdpos ltac:(lia) (proj2 Hd)) as Hd31.
  assert (Hd8 : 7 < Zdigits2 d) by (apply Zdigits2_ge; lia).
  pose proof (Zdigits2_le w 31 Hwpos ltac:(lia) (proj2 Hw)) as Hw31.
  pose proof (Zdigits2_pos w Hwpos) as Hw1.
  set (d2 := Zdigits2 d) in *. set (dw := Zdigits2 w) in *.
  set (s := 45 + d2) in *.
  unfold mul_int_float. rewrite EW. cbn [rbind SFmul xorb].
  rewrite Pos2Z.inj_mul.
  set (mx := Zpos mW * Zpos mf).
  assert (Hmx : 2 ^ 104 <= mx < 2 ^ 106).
  { unfold mx. change (2 ^ 104) with (2 ^ 52 * 2 ^ 52).
    change (2 ^ 106) with (2 ^ 53 * 2 ^ 53). nia. }
  assert (Hdx : 105 <= Zdigits2 mx <= 106).
  { split.
    - assert (104 < Zdigits2 mx) by (apply Zdigits2_ge; lia). lia.
    - apply Zdigits2_le; lia. }
  assert (Hmxpos : 0 < mx) by (change (2 ^ 104) with 20282409603651670423947251286016 in Hmx; lia).
  pose proof (Zdigits2_bounds mx Hmxpos) as [Hxlo _].
  destruct (binary_round_aux_enclosure mx (eW + ef) loc_Exact)
    as (mp & ep & r & Eres & Hep & Hval & Hr & _ & Hmp); try lia.
  rewrite Eres.
  set (n := Zdigits2 mx - 53) in *.
  assert (Hepneg : ep < 0) by lia.
  destruct ep as [|pe|pe]; try lia.
  cbn [int_of_float].
  rewrite Z.shiftr_div_pow2 by lia.
  eexists. split; [exact Ediv|]. split; [reflexivity|].
  split; [apply Z.div_pos; [lia | apply pow2_pos; lia]|].
  (* the scales *)
  set (i := Zneg pe - (eW + ef)) in *.
  set (k := - eW) in *.
  assert (Hk : 0 <= k) by lia.
  assert (Hi : 0 <= i) by lia.
  assert (Hscale : 2 ^ Zpos pe * 2 ^ i * 2 ^ j = 2 ^ k * 2 ^ s).
  { rewrite <- !Z.pow_add_r by lia. f_equal. lia. }
  pose proof (pow2_pos (Zpos pe) ltac:(lia)) as Hpe.
  pose proof (pow2_pos i Hi) as Hpi.
  pose proof (pow2_pos j ltac:(lia)) as Hpj.
  pose proof (pow2_pos k Hk) as Hpk.
  pose proof (pow2_pos s ltac:(lia)) as Hps.
  pose proof (pow2_pos n ltac:(lia)) as Hpn.
  set (N := Zpos mp / 2 ^ Zpos pe).
  pose proof (Z.div_mod (Zpos mp) (2 ^ Zpos pe) ltac:(lia)) as HNdm.
  pose proof (Z.mod_pos_bound (Zpos mp) (2 ^ Zpos pe) Hpe) as HNmod.
  fold N in HNdm.
  pose proof (Z.div_mod mx (2 ^ n) ltac:(lia)) as Hxdm.
  pose proof (Z.mod_pos_bound mx (2 ^ n) Hpn) as Hxmod.
  assert (Hn52 : 2 ^ n * 2 ^ 52 <= mx).
  { rewrite <- Z.pow_add_r by lia. replace (n + 52) with (Zdigits2 mx - 1) by lia.
    exact Hxlo. }
  pose proof (Z.div_mod (150 * 2 ^ s) d ltac:(lia)) as Hqdm.
  pose proof (Z.mod_pos_bound (150 * 2 ^ s) d Hdpos) as Hqmod.
  set (q := 150 * 2 ^ s / d) in *.
  apply (scale_arith w d q (Zpos mf * 2 ^ j) (2 ^ k) (2 ^ s) (2 ^ k * 2 ^ s)
           (mx * 2 ^ j) (Zpos mp * 2 ^ i * 2 ^ j) N); try lia.
  - (* 2^45 * d <= 2^s *)
    unfold s. rewrite Z.pow_add_r by lia.
    apply Z.mul_le_mono_nonneg_l; lia.
  - (* upper rounding bound *)
    rewrite Hval.
    assert (H0 : r * 2 ^ n <= (mx / 2 ^ n + 1) * 2 ^ n)
      by (apply Z.mul_le_mono_nonneg_r; lia).
    assert (H1 : 2 ^ 52 * (r * 2 ^ n) <= (2 ^ 52 + 1) * mx) by lia.
    replace (2 ^ 52 * (r * 2 ^ n * 2 ^ j)) with (2 ^ 52 * (r * 2 ^ n) * 2 ^ j) by ring.
    replace ((2 ^ 52 + 1) * (mx * 2 ^ j)) with ((2 ^ 52 + 1) * mx * 2 ^ j) by ring.
    apply Z.mul_le_mono_nonneg_r; lia.
  - rewrite Hval.
    assert (H0 : mx / 2 ^ n * 2 ^ n <= r * 2 ^ n)
      by (apply Z.mul_le_mono_nonneg_r; lia).
    assert (H1 : (2 ^ 52 - 1) * mx <= 2 ^ 52 * (r * 2 ^ n)) by lia.
    replace (2 ^ 52 * (r * 2 ^ n * 2 ^ j)) with (2 ^ 52 * (r * 2 ^ n) * 2 ^ j) by ring.
    replace ((2 ^ 52 - 1) * (mx * 2 ^ j)) with ((2 ^ 52 - 1) * mx * 2 ^ j) by ring.
    apply Z.mul_le_mono_nonneg_r; lia.
  - rewrite <- Hscale. split.
    + replace (N * (2 ^ Zpos pe * 2 ^ i * 2 ^ j)) with (N * 2 ^ Zpos pe * (2 ^ i * 2 ^ j)) by ring.
      replace (Zpos mp * 2 ^ i * 2 ^ j) with (Zpos mp * (2 ^ i * 2 ^ j)) by ring.
      apply Z.mul_le_mono_nonneg_r; [apply Z.mul_nonneg_nonneg; lia | lia].
    + replace ((N + 1) * (2 ^ Zpos pe * 2 ^ i * 2 ^ j)) with ((N + 1) * 2 ^ Zpos pe * (2 ^ i * 2 ^ j)) by ring.
      replace (Zpos mp * 2 ^ i * 2 ^ j) with (Zpos mp * (2 ^ i * 2 ^ j)) by ring.
      apply Z.mul_lt_mono_pos_r; [apply Z.mul_pos_pos; lia | lia].
Qed.

(** ** Computations and their traces *)

Lemma bind_ok {A B} (m : M A) (k : A -> M B) (a : A) :
  outcome m = Ok a -> bind m k = (outcome (k a), trace m ++ trace (k a)).
Proof.
  destruct m as [[a' | e] t]; cbn; intros H; inversion H; subst.
  destruct (k a); reflexivity.
Qed.

Lemma bind_raise {A B} (m : M A) (k : A -> M B) (e : exn) :
  outcome m = Raise e -> bind m k = (Raise e, trace m).
Proof.
  destruct m as [[a' | e'] t]; cbn; intros H; inversion H; subst. reflexivity.
Qed.

Lemma bind_cases {A B} (m : M A) (k : A -> M B) :
  (exists a, outcome m = Ok a /\ bind m k = (outcome (k a), trace m ++ trace (k a))) \/
  (exists e, outcome m = Raise e /\ bind m k = (Raise e, trace m)).
Proof.
  destruct (outcome m) as [a | e] eqn:E.
  - left. exists a. split; [reflexivity | apply bind_ok; exact E].
  - right. exists e. split; [reflexivity | apply bind_raise; exact E].
Qed.

Lemma bind_ok_inv {A B} (m : M A) (k : A -> M B) (b : B) :
  outcome (bind m k) = Ok b ->
  exists a, outcome m = Ok a /\ outcome (k a) = Ok b /\
            trace (bind m k) = trace m ++ trace (k a).
Proof.
  destruct (bind_cases m k) as [(a & Ea & Eb) | (e & Ee & Eb)]; rewrite Eb; cbn.
  - intros H. exists a. auto.
  - discriminate.
Qed.

Lemma outcome_bind {A B} (m : M A) (k : A -> M B) :
  outcome (bind m k) = rbind (outcome m) (fun a => outcome (k a)).
Proof.
  destruct (bind_cases m k) as [(a & Ea & Eb) | (e & Ee & Eb)]; rewrite Eb.
  - rewrite Ea. reflexivity.
  - rewrite Ee. reflexivity.
Qed.

Lemma trace_bind {A B} (m : M A) (k : A -> M B) :
  trace (bind m k) =
  trace m ++ match outcome m with
             | Ok a => trace (k a)
             | Raise _ => []
             end.
Proof.
  destruct (bind_cases m k) as [(a & Ea & Eb) | (e & Ee & Eb)]; rewrite Eb.
  - rewrite Ea. reflexivity.
  - rewrite Ee. cbn. rewrite app_nil_r. reflexivity.
Qed.

Lemma invoke_outcome {A} (r : result A) (ev : result A -> call) :
  outcome (invoke r ev) = r.
Proof. reflexivity. Qed.

Lemma invoke_trace {A} (r : result A) (ev : result A -> call) :
  trace (invoke r ev) = [ev r].
Proof. reflexivity. Qed.

Lemma failure_of_forget {A} (r : result A) : failure_of (forget r) = failure_of r.
Proof. destruct r; reflexivity. Qed.

Lemma failure_of_raise {A} (r : result A) (e : exn) :
  failure_of r = Some e -> r = Raise e.
Proof. destruct r; cbn; congruence. Qed.

Lemma escapes_quiet {A} (r : result A) : escapes (r, []).
Proof. intros c e []. Qed.

Lemma escapes_print (line : string) : escapes (print line).
Proof. intros c e [<- | []]; cbn; discriminate. Qed.

Lemma escapes_invoke {A} (r : result A) (ev : result A -> call) :
  failed (ev r) = failure_of r -> escapes (invoke r ev).
Proof.
  intros Hev c e [<- | []] Hf _. rewrite Hev in Hf.
  split.
  - apply failure_of_raise. exact Hf.
  - exists []. reflexivity.
Qed.

Lemma escapes_bind {A B} (m : M A) (k : A -> M B) :
  escapes m -> (forall a, outcome m = Ok a -> escapes (k a)) -> escapes (bind m k).
Proof.
  intros Hm Hk c e Hin Hf Hi.
  destruct (bind_cases m k) as [(a & Ea & Eb) | (e' & Ee & Eb)];
    rewrite Eb in *; cbn [outcome trace fst snd] in *.
  - apply in_app_or in Hin. destruct Hin as [Hin | Hin].
    + destruct (Hm c e Hin Hf Hi) as [Hraise _]. congruence.
    + destruct (Hk a Ea c e Hin Hf Hi) as [Ho [t0 Et]].
      split; [exact Ho|]. exists (trace m ++ t0). rewrite Et. apply app_assoc.
  - destruct (Hm c e Hin Hf Hi) as [Ho Ht]. split; [congruence | exact Ht].
Qed.

Lemma trace_bind_Forall {A B} (P : call -> Prop) (m : M A) (k : A -> M B) :
  Forall P (trace m) -> (forall a, outcome m = Ok a -> Forall P (trace (k a))) ->
  Forall P (trace (bind m k)).
Proof.
  intros Hm Hk.
  destruct (bind_cases m k) as [(a & Ea & Eb) | (e' & Ee & Eb)];
    rewrite Eb; cbn [trace snd].
  - apply Forall_app. split; [exact Hm | exact (Hk a Ea)].
  - exact Hm.
Qed.

Lemma escapes_inspection {A} (m : M A) :
  Forall (fun c => inspection_call c = true) (trace m) -> escapes m.
Proof.
  intros Hall c e Hin _ Hi. rewrite Forall_forall in Hall.
  rewrite (Hall c Hin) in Hi. discriminate.
Qed.

Lemma escapes_local {A} (name : string) (v : option A) : escapes (local name v).
Proof. destruct v; apply escapes_quiet. Qed.

Ltac escapes_step :=
  lazymatch goal with
  | |- escapes (bind _ _) => apply escapes_bind; [ | intros ? ? ]
  | |- escapes (ret _) => apply escapes_quiet
  | |- escapes (lift _) => apply escapes_quiet
  | |- escapes (local _ _) => apply escapes_local
  | |- escapes (print _) => apply escapes_print
  | |- escapes (invoke _ _) =>
      apply escapes_invoke; cbn; try apply failure_of_forget; reflexivity
  end.

Section RouteFacts.

Context (L : library).

Lemma any_contents_inspection (pages : list (result (PdfPage L))) :
  Forall (fun c => inspection_call c = true) (trace (any_contents L pages)).
Proof.
  induction pages as [| next rest IH]; cbn [any_contents].
  - constructor.
  - apply trace_bind_Forall; [constructor | intros page _].
    apply trace_bind_Forall; [repeat constructor | intros v _].
    apply trace_bind_Forall; [constructor | intros b _].
    destruct b; [constructor | exact IH].
Qed.

Lemma classify_inspection (pdf_path : string) :
  Forall (fun c => inspection_call c = true) (trace (classify L pdf_path)).
Proof.
  unfold classify, try_except.
  set (body := bind (try_body L pdf_path) _).
  assert (Hbody : Forall (fun c => inspection_call c = true) (trace body)).
  { unfold body, try_body.
    apply trace_bind_Forall; [| intros r _; constructor].
    apply trace_bind_Forall; [repeat constructor | intros pdf _].
    apply trace_bind_Forall; [apply any_contents_inspection | intros b _].
    constructor. }
  destruct body as [[locals | e] t]; cbn [trace snd ret] in *.
  - exact Hbody.
  - rewrite app_nil_r. exact Hbody.
Qed.

(** the classifier never raises *)
Lemma classify_returns (pdf_path : string) :
  exists locals, outcome (classify L pdf_path) = Ok locals.
Proof.
  unfold classify, try_except.
  destruct (bind (try_body L pdf_path) _) as [[locals | e] t]; cbn.
  - exists locals. reflexivity.
  - eexists. reflexivity.
Qed.

Lemma reencode_escapes (image : Image) : escapes (reencode L image).
Proof.
  unfold reencode.
  apply escapes_bind; [| intros ? ?; escapes_step].
  destruct (gt_int _ _); repeat escapes_step.
Qed.

(** the loop body and the loops have no handler *)
Lemma process_image_escapes (doc : FitzDoc L) (img : image_item) :
  escapes (process_image L doc img).
Proof.
  unfold process_image. repeat escapes_step. apply reencode_escapes.
Qed.

Lemma for_images_escapes (images : list image_item) : forall doc,
  escapes (for_images L doc images).
Proof.
  induction images as [| img rest IH]; intros doc; cbn [for_images].
  - escapes_step.
  - escapes_step; [apply process_image_escapes | apply IH].
Qed.

Lemma for_pages_escapes (indices : list nat) : forall doc,
  escapes (for_pages L doc indices).
Proof.
  induction indices as [| i rest IH]; intros doc; cbn [for_pages].
  - escapes_step.
  - repeat escapes_step; [apply for_images_escapes | apply IH].
Qed.

(** after the [try], nothing on the compress branch catches *)
Lemma compress_escapes (file : FileStorage) (pdf_path : string) :
  escapes (compress L file pdf_path).
Proof.
  unfold compress.
  escapes_step; [apply escapes_inspection, classify_inspection |].
  escapes_step.
  - destruct (snd a).
    + unfold vector_branch. repeat escapes_step.
    + unfold raster_branch. repeat escapes_step. apply for_pages_escapes.
  - repeat escapes_step.
Qed.

Lemma route_body_compress_escapes (file : FileStorage) :
  escapes (route_body L file (Some "compress")).
Proof.
  unfold route_body. cbn [op_is String.eqb Ascii.eqb Bool.eqb].
  repeat escapes_step. apply compress_escapes.
Qed.

End RouteFacts.

(** ** The classifier (lines 105-109) *)

Section ClassifierFacts.

Context (L : library).


Lemma truth_true (v : option (PdfObject L)) :
  truth L v = Ok true <-> exists o, v = Some o /\ object_bool L o = Ok true.
Proof.
  destruct v as [o |]; cbn; split.
  - intros H. exists o. auto.
  - intros (o' & E & H). inversion E; subst. exact H.
  - discriminate.
  - intros (o' & E & _). discriminate.
Qed.



(** the [except] clause: any exception of the body gives [has_vector = False] *)
Lemma classify_of_try_body (pdf_path : string) :
  outcome (classify L pdf_path) =
  match outcome (try_body L pdf_path) with
  | Ok r => Ok (Some (fst r), snd r)
  | Raise _ => Ok (pdf_binding L pdf_path, false)
  end.
Proof.
  unfold classify, try_except.
  destruct (bind_cases (try_body L pdf_path) (fun r => ret (Some (fst r), snd r)))
    as [(r & Er & Eb) | (e & Ee & Eb)]; rewrite Eb.
  - rewrite Er. reflexivity.
  - rewrite Ee. reflexivity.
Qed.

Lemma try_body_ok (pdf_path : string) (pdf : Pdf L) (hv : bool) :
  outcome (try_body L pdf_path) = Ok (pdf, hv) ->
  pikepdf_open L pdf_path = Ok pdf /\
  outcome (any_contents L (pdf_pages L pdf)) = Ok hv.
Proof.
  unfold try_body. intros H.
  apply bind_ok_inv in H. destruct H as (pdf' & Eopen & H & _).
  apply bind_ok_inv in H. destruct H as (b & Eany & H & _).
  cbn in H, Eopen. inversion H; subst. auto.
Qed.


End ClassifierFacts.


(** ** The compress branch as a whole (lines 99-175) *)

Section CompressFacts.

Context (L : library).

Lemma local_outcome {A} (name : string) (v : option A) :
  outcome (local name v) =
  match v with
  | Some a => Ok a
  | None => Raise (UnboundLocalError name)
  end.
Proof. destruct v; reflexivity. Qed.

(** on the vector path the branch never gets past line 152 *)
Lemma compress_vector_raises (file : FileStorage) (pdf_path : string)
  (pdf : option (Pdf L)) :
  outcome (classify L pdf_path) = Ok (pdf, true) ->
  exists e, outcome (compress L file pdf_path) = Raise e /\
    (forall p b1 b2,
       pdf = Some p ->
       pdf_save L p {| optimize_streams := true; compression := None |} = Ok b1 ->
       pdf_save L p {| optimize_streams := true;
                       compression := Some CompressionLevel_default |} = Ok b2 ->
       e = UnboundLocalError "doc").
Proof.
  intros Hc. unfold compress.
  rewrite outcome_bind, Hc. cbn [rbind fst snd].
  rewrite outcome_bind, outcome_bind, local_outcome.
  destruct pdf as [p |]; cbn [rbind].
  - rewrite outcome_bind. unfold vector_branch.
    rewrite outcome_bind, invoke_outcome.
    destruct (pdf_save L p {| optimize_streams := true; compression := None |})
      as [b1 | e1] eqn:E1; cbn [rbind].
    + rewrite outcome_bind, invoke_outcome.
      destruct (pdf_save L p {| optimize_streams := true;
                                compression := Some CompressionLevel_default |})
        as [b2 | e2] eqn:E2; cbn [rbind].
      * cbn. eexists. split; [reflexivity|]. reflexivity.
      * exists e2. split; [reflexivity|]. intros p' b1' b2' Ep _ E2'.
        inversion Ep; subst p'. congruence.
    + exists e1. split; [reflexivity|]. intros p' b1' b2' Ep E1' _.
      inversion Ep; subst p'. congruence.
  - eexists. split; [reflexivity|]. intros p' b1' b2' Ep. discriminate.
Qed.

Lemma route_body_compress (file : FileStorage) :
  route_body L file (Some "compress") =
  (invoke (file_save L (pdf_path_of L file) (upload_content file))
     (c_file_save (pdf_path_of L file)) ;;;
   r <- compress L file (pdf_path_of L file) ;;
   ret (Continue (fst r) (snd r))).
Proof. reflexivity. Qed.

Lemma process_pdf_compress (req : request) (db : Db.table) (file : FileStorage) :
  files_file req = Some file ->
  not_file (files_file req) = false ->
  form_operation req = Some "compress" ->
  process_pdf L req db =
  match route_body L file (Some "compress") with
  | (Raise e, t) => (InternalServerError e, db, t)
  | (Ok (Return r), t) => (r, db, t)
  | (Ok (Continue output_filename output_bytes), t) =>
      (ResultPage output_filename "compress" (Z.of_nat (List.length db) + 1),
       db ++ [ {| Db.id := Z.of_nat (List.length db) + 1;
                  Db.filename := output_filename;
                  Db.operation := "compress";
                  Db.file_data := output_bytes |} ],
       t)
  end.
Proof.
  intros Hf Hn Ho. unfold process_pdf. rewrite Hf in *. rewrite Hn, Ho.
  destruct (route_body L file (Some "compress")) as [[[r | fn out] | e] t]; reflexivity.
Qed.

(** when the branch returns, the last two calls are the final save and the
    print that follows it *)
Lemma compress_ok_trace (file : FileStorage) (pdf_path : string) (fn : string)
  (out : bytes) :
  outcome (compress L file pdf_path) = Ok (fn, out) ->
  fn = compressed_name file /\
  exists t0,
    trace (compress L file pdf_path) =
    t0 ++ [c_fitz_save final_save_kw (Ok out);
           c_print "Scanned PDF compressed with image optimization."].
Proof.
  unfold compress. intros H.
  apply bind_ok_inv in H. destruct H as (locals & _ & H & ->).
  apply bind_ok_inv in H. destruct H as (doc & _ & H & ->).
  apply bind_ok_inv in H. destruct H as (d & Elocal & H & ->).
  destruct doc as [d' |]; [| discriminate].
  apply bind_ok_inv in H. destruct H as (bs & Esave & H & ->).
  apply bind_ok_inv in H. destruct H as (u & _ & H & ->).
  cbn in H. inversion H; subst. split; [reflexivity|].
  rewrite invoke_outcome in Esave.
  rewrite invoke_trace, Esave.
  cbn [local trace print ret snd app].
  eexists. rewrite app_assoc. reflexivity.
Qed.

End CompressFacts.

Section ProcessFacts.

Context (L : library).

Lemma route_body_compress_outcome (file : FileStorage) :
  outcome (route_body L file (Some "compress")) =
  (_ <-? file_save L (pdf_path_of L file) (upload_content file) ;;
   r <-? outcome (compress L file (pdf_path_of L file)) ;;
   Ok (Continue (fst r) (snd r))).
Proof.
  rewrite route_body_compress, outcome_bind, invoke_outcome.
  destruct (file_save L (pdf_path_of L file) (upload_content file)); cbn [rbind];
    [| reflexivity].
  rewrite outcome_bind. reflexivity.
Qed.

Lemma route_body_compress_trace (file : FileStorage) :
  trace (route_body L file (Some "compress")) =
  c_file_save (pdf_path_of L file)
    (file_save L (pdf_path_of L file) (upload_content file)) ::
  match file_save L (pdf_path_of L file) (upload_content file) with
  | Ok _ => trace (compress L file (pdf_path_of L file))
  | Raise _ => []
  end.
Proof.
  rewrite route_body_compress, trace_bind, invoke_outcome, invoke_trace.
  destruct (file_save L (pdf_path_of L file) (upload_content file)); cbn [app];
    [| reflexivity].
  rewrite trace_bind.
  destruct (outcome (compress L file (pdf_path_of L file))); cbn [trace ret snd];
    rewrite app_nil_r; reflexivity.
Qed.

(** a call outside structural inspection that raises ends the request: its
    exception is the response, the table is untouched, no call follows *)
Lemma process_failure (req : request) (db : Db.table) (file : FileStorage)
  (resp : response) (db' : Db.table) (t : list call) :
  files_file req = Some file ->
  not_file (files_file req) = false ->
  form_operation req = Some "compress" ->
  process_pdf L req db = (resp, db', t) ->
  forall c e, In c t -> failed c = Some e -> inspection_call c = false ->
    resp = InternalServerError e /\ db' = db /\ exists t0, t = t0 ++ [c].
Proof.
  intros Hf Hn Ho Hp c e Hin Hfail Hins.
  rewrite (process_pdf_compress L req db file Hf Hn Ho) in Hp.
  pose proof (route_body_compress_escapes L file) as Hesc.
  destruct (route_body L file (Some "compress")) as [o t'] eqn:E.
  assert (Et : t' = t) by (destruct o as [[r | fn out] | e']; inversion Hp; reflexivity).
  subst t'.
  destruct (Hesc c e Hin Hfail Hins) as [Hout Hlast].
  cbn [outcome trace fst snd] in Hout, Hlast. subst o.
  inversion Hp; subst. auto.
Qed.

(** the request either fails and leaves the table as it was, or stores the
    bytes the final save returned *)
Lemma process_outcomes (req : request) (db : Db.table) (file : FileStorage)
  (resp : response) (db' : Db.table) (t : list call) :
  files_file req = Some file ->
  not_file (files_file req) = false ->
  form_operation req = Some "compress" ->
  process_pdf L req db = (resp, db', t) ->
  (exists e, resp = InternalServerError e /\ db' = db) \/
  (exists out t0,
     outcome (compress L file (pdf_path_of L file)) = Ok (compressed_name file, out) /\
     resp = ResultPage (compressed_name file) "compress"
              (Z.of_nat (List.length db) + 1) /\
     db' = db ++ [ {| Db.id := Z.of_nat (List.length db) + 1;
                      Db.filename := compressed_name file;
                      Db.operation := "compress";
                      Db.file_data := out |} ] /\
     t = t0 ++ [c_fitz_save final_save_kw (Ok out);
                c_print "Scanned PDF compressed with image optimization."]).
Proof.
  intros Hf Hn Ho Hp.
  rewrite (process_pdf_compress L req db file Hf Hn Ho) in Hp.
  pose proof (route_body_compress_outcome file) as Hout.
  pose proof (route_body_compress_trace file) as Htr.
  destruct (route_body L file (Some "compress")) as [o t'].
  cbn [outcome trace fst snd] in Hout, Htr.
  destruct (file_save L (pdf_path_of L file) (upload_content file)) as [u | e];
    cbn [rbind] in Hout.
  - destruct (outcome (compress L file (pdf_path_of L file))) as [[fn out] | e] eqn:Ec;
      cbn [rbind fst snd] in Hout; subst o.
    + destruct (compress_ok_trace L file _ fn out Ec) as [-> [t0 Et0]].
      right. exists out, (c_file_save (pdf_path_of L file) (Ok u) :: t0).
      inversion Hp; subst. rewrite Et0. auto.
    + left. exists e. inversion Hp; subst. auto.
  - subst o. left. exists e. inversion Hp; subst. auto.
Qed.

(** C2 (the code departs from it).  Whenever the document is classified
    Vector the request ends in an error and nothing is stored; when both
    vector saves succeed the error is the unbound local [doc] of line 152. *)
Theorem vector_request_never_stored (req : request) (db : Db.table)
  (file : FileStorage) :
  files_file req = Some file ->
  not_file (files_file req) = false ->
  form_operation req = Some "compress" ->
  classifier L (pdf_path_of L file) = Ok Vector ->
  exists e t,
    process_pdf L req db = (InternalServerError e, db, t) /\
    (forall pdf b1 b2,
       file_save L (pdf_path_of L file) (upload_content file) = Ok tt ->
       pikepdf_open L (pdf_path_of L file) = Ok pdf ->
       pdf_save L pdf {| optimize_streams := true; compression := None |} = Ok b1 ->
       pdf_save L pdf {| optimize_streams := true;
                         compression := Some CompressionLevel_default |} = Ok b2 ->
       e = UnboundLocalError "doc").
Proof.
  intros Hf Hn Ho Hc.
  rewrite (process_pdf_compress L req db file Hf Hn Ho).
  pose proof (route_body_compress_outcome file) as Hout.
  destruct (route_body L file (Some "compress")) as [o t].
  cbn [outcome fst] in Hout.
  unfold classifier in Hc. rewrite classify_of_try_body in Hc.
  pose proof (classify_of_try_body L (pdf_path_of L file)) as Hcl.
  destruct (outcome (try_body L (pdf_path_of L file))) as [[pdf hv] | e0] eqn:Etb;
    cbn [fst snd] in Hc, Hcl; [| discriminate].
  destruct hv; [| discriminate].
  destruct (try_body_ok L _ pdf true Etb) as [Eopen _].
  destruct (compress_vector_raises L file _ (Some pdf) Hcl) as (e & Ee & Hdoc).
  rewrite Ee in Hout.
  destruct (file_save L (pdf_path_of L file) (upload_content file)) as [u | e1];
    cbn [rbind] in Hout; subst o.
  - exists e, t. split; [reflexivity|].
    intros pdf' b1 b2 _ Eopen' E1 E2. rewrite Eopen in Eopen'.
    inversion Eopen'; subst pdf'. exact (Hdoc pdf b1 b2 eq_refl E1 E2).
  - exists e1, t. split; [reflexivity|]. intros pdf' b1 b2 Hsave. discriminate.
Qed.

(** C6. On a compress request a failure after classification surfaces as
    the one error response and nothing is stored; the only other outcome is
    the result page, with the bytes returned by the final save stored after
    that save. *)
Theorem compress_all_or_nothing (req : request) (db : Db.table) (file : FileStorage)
  (resp : response) (db' : Db.table) (t : list call) :
  files_file req = Some file ->
  not_file (files_file req) = false ->
  form_operation req = Some "compress" ->
  process_pdf L req db = (resp, db', t) ->
  (forall c e, In c t -> failed c = Some e -> inspection_call c = false ->
     resp = InternalServerError e /\ db' = db) /\
  (forall u e,
     file_save L (pdf_path_of L file) (upload_content file) = Ok u ->
     outcome (compress L file (pdf_path_of L file)) = Raise e ->
     resp = InternalServerError e /\ db' = db) /\
  ((exists e, resp = InternalServerError e /\ db' = db) \/
   (exists out t0,
      resp = ResultPage (compressed_name file) "compress"
               (Z.of_nat (List.length db) + 1) /\
      db' = db ++ [ {| Db.id := Z.of_nat (List.length db) + 1;
                       Db.filename := compressed_name file;
                       Db.operation := "compress";
                       Db.file_data := out |} ] /\
      t = t0 ++ [c_fitz_save final_save_kw (Ok out);
                 c_print "Scanned PDF compressed with image optimization."])).
Proof.
  intros Hf Hn Ho Hp. split; [| split].
  - intros c e Hin Hfail Hins.
    destruct (process_failure req db file resp db' t Hf Hn Ho Hp c e Hin Hfail Hins)
      as (H1 & H2 & _). auto.
  - intros u e Eu Ee.
    rewrite (process_pdf_compress L req db file Hf Hn Ho) in Hp.
    pose proof (route_body_compress_outcome file) as Hout.
    destruct (route_body L file (Some "compress")) as [o t'].
    cbn [outcome fst] in Hout. rewrite Eu, Ee in Hout. cbn [rbind] in Hout.
    subst o. inversion Hp; subst. auto.
  - destruct (process_outcomes req db file resp db' t Hf Hn Ho Hp)
      as [He | (out & t0 & _ & H1 & H2 & H3)]; [left; exact He |].
    right. exists out, t0. auto.
Qed.

End ProcessFacts.

(** ** The raster loop (lines 123-150) *)

Lemma bind_ret {A B} (a : A) (k : A -> M B) : bind (ret a) k = k a.
Proof. unfold bind, ret. destruct (k a). reflexivity. Qed.

Lemma bind_lift_ok {A B} (a : A) (k : A -> M B) : bind (lift (Ok a)) k = k a.
Proof. exact (bind_ret a k). Qed.

Lemma bind_lift_raise {A B} (e : exn) (k : A -> M B) :
  bind (lift (Raise e)) k = (Raise e, []).
Proof. reflexivity. Qed.

Lemma updated_app (t1 t2 : list call) : updated (t1 ++ t2) = updated t1 ++ updated t2.
Proof. apply flat_map_app. Qed.

Lemma listed_app (t1 t2 : list call) : listed (t1 ++ t2) = listed t1 ++ listed t2.
Proof. apply flat_map_app. Qed.

Lemma saves_app (t1 t2 : list call) : saves (t1 ++ t2) = saves t1 ++ saves t2.
Proof. apply flat_map_app. Qed.

Section RasterFacts.

Context (L : library).

Lemma reencode_unchanged (image : Image) :
  gt_int (effective_dpi image) DPI_THRESHOLD = false ->
  reencode L image =
  invoke (Image_save L image (chosen_kw image))
    (c_Image_save image (chosen_kw image)).
Proof.
  intros Hgt. unfold reencode. rewrite Hgt, bind_ret. reflexivity.
Qed.

Lemma reencode_resized (image : Image) (size : Z * Z) :
  gt_int (effective_dpi image) DPI_THRESHOLD = true ->
  new_size image (effective_dpi image) = Ok size ->
  reencode L image =
  (resized <- invoke (Image_resize L image size LANCZOS)
                (c_resize image size LANCZOS) ;;
   invoke (Image_save L resized (chosen_kw image))
     (c_Image_save resized (chosen_kw image))).
Proof.
  intros Hgt Hsize. unfold reencode. rewrite Hgt, Hsize, bind_lift_ok. reflexivity.
Qed.

Lemma reencode_size_error (image : Image) (e : exn) :
  gt_int (effective_dpi image) DPI_THRESHOLD = true ->
  new_size image (effective_dpi image) = Raise e ->
  reencode L image = (Raise e, []).
Proof.
  intros Hgt Hsize. unfold reencode. rewrite Hgt, Hsize, bind_lift_raise. reflexivity.
Qed.

(** the calls of [reencode]: at most one resize, then at most one save *)
Lemma reencode_trace (image : Image) :
  exists t, trace (reencode L image) = t /\ updated t = [] /\ listed t = [] /\
    (saves t = [chosen_kw image] \/
     saves t = [] /\ exists e, outcome (reencode L image) = Raise e).
Proof.
  eexists. split; [reflexivity|].
  destruct (gt_int (effective_dpi image) DPI_THRESHOLD) eqn:Hgt.
  - destruct (new_size image (effective_dpi image)) as [size | e] eqn:Hsize.
    + rewrite (reencode_resized image size Hgt Hsize).
      rewrite trace_bind, outcome_bind, invoke_outcome, invoke_trace.
      destruct (Image_resize L image size LANCZOS) as [resized | e]; cbn.
      * auto.
      * repeat split; try reflexivity. right. split; [reflexivity|]. eauto.
    + rewrite (reencode_size_error image e Hgt Hsize). cbn.
      repeat split; try reflexivity. right. split; [reflexivity|]. eauto.
  - rewrite (reencode_unchanged image Hgt). cbn. auto.
Qed.

(** one image, processed to the end *)
Lemma process_image_ok (doc doc' : FitzDoc L) (img : image_item) :
  outcome (process_image L doc img) = Ok doc' ->
  exists data image stream,
    extract_image L doc (item_xref img) = Ok (Some data) /\
    Image_open L data = Ok image /\
    outcome (reencode L image) = Ok stream /\
    update_image L doc (item_xref img) stream = Ok doc' /\
    trace (process_image L doc img) =
      c_extract_image (item_xref img) (Ok (Some data)) ::
      c_Image_open data (Ok image) ::
      trace (reencode L image) ++
      [c_update_image (item_xref img) stream (Ok tt)].
Proof.
  unfold process_image. intros H.
  apply bind_ok_inv in H. destruct H as (base & Ebase & H & ->).
  apply bind_ok_inv in H. destruct H as (data & Edata & H & ->).
  apply bind_ok_inv in H. destruct H as (image & Eimage & H & ->).
  apply bind_ok_inv in H. destruct H as (stream & Estream & H & ->).
  rewrite invoke_outcome in Ebase. rewrite invoke_outcome in Eimage.
  rewrite invoke_outcome in H.
  destruct base as [b |]; cbn in Edata; [| discriminate].
  inversion Edata; subst b.
  exists data, image, stream.
  rewrite !invoke_trace, Ebase, Eimage, H. cbn [lift trace snd app forget].
  auto.
Qed.

(** a loop that returns has replaced the stream of each image, in order *)
Lemma for_images_ok (images : list image_item) : forall (doc doc' : FitzDoc L),
  outcome (for_images L doc images) = Ok doc' ->
  updated (trace (for_images L doc images)) = map item_xref images /\
  listed (trace (for_images L doc images)) = [] /\
  ((forall d x s d', update_image L d x s = Ok d' -> fitz_len L d' = fitz_len L d) ->
   fitz_len L doc' = fitz_len L doc).
Proof.
  induction images as [| img rest IH]; intros doc doc' H; cbn [for_images] in *.
  - cbn in H. inversion H; subst. cbn. auto.
  - apply bind_ok_inv in H. destruct H as (doc1 & E1 & H & ->).
    destruct (process_image_ok doc doc1 img E1)
      as (data & image & stream & _ & _ & _ & Eupd & ->).
    destruct (reencode_trace image) as (t & -> & Hu & Hl & _).
    destruct (IH doc1 doc' H) as (IHu & IHl & IHlen).
    rewrite updated_app, listed_app, IHu, IHl.
    change (?a :: ?b :: ?t ++ ?u) with ([a; b] ++ t ++ u).
    rewrite !updated_app, !listed_app, Hu, Hl. cbn.
    repeat split. intros Hlen. rewrite (IHlen Hlen). exact (Hlen _ _ _ _ Eupd).
Qed.

Lemma for_pages_ok (indices : list nat) : forall (doc doc' : FitzDoc L),
  outcome (for_pages L doc indices) = Ok doc' ->
  updated (trace (for_pages L doc indices)) = listed (trace (for_pages L doc indices)) /\
  ((forall d x s d', update_image L d x s = Ok d' -> fitz_len L d' = fitz_len L d) ->
   fitz_len L doc' = fitz_len L doc).
Proof.
  induction indices as [| i rest IH]; intros doc doc' H; cbn [for_pages] in *.
  - cbn in H. inversion H; subst. cbn. auto.
  - apply bind_ok_inv in H. destruct H as (page & Epage & H & ->).
    apply bind_ok_inv in H. destruct H as (images & Eimages & H & ->).
    apply bind_ok_inv in H. destruct H as (doc1 & E1 & H & ->).
    rewrite invoke_outcome in Eimages. rewrite invoke_trace, Eimages.
    destruct (for_images_ok images doc doc1 E1) as (Hu & Hl & Hlen1).
    destruct (IH doc1 doc' H) as (IHu & IHlen).
    cbn [lift trace snd app].
    change (?a :: ?t ++ ?u) with ([a] ++ t ++ u).
    rewrite !updated_app, !listed_app, Hu, Hl, IHu. cbn.
    rewrite app_nil_r. split; [reflexivity|].
    intros Hlen. rewrite (IHlen Hlen). exact (Hlen1 Hlen).
Qed.

Lemma inspection_quiet (t : list call) :
  Forall (fun c => inspection_call c = true) t -> updated t = [] /\ listed t = [].
Proof.
  induction 1 as [| c t Hc _ [IHu IHl]]; [auto|].
  destruct c; cbn in Hc; try discriminate; cbn; auto.
Qed.

(** the branch, run to the end: it took the raster path, replaced every
    listed image and nothing else, and saved the document it opened *)
Lemma compress_ok (file : FileStorage) (pdf_path : string) (fn : string) (out : bytes) :
  outcome (compress L file pdf_path) = Ok (fn, out) ->
  exists doc0 doc1,
    fitz_open L pdf_path = Ok doc0 /\
    fitz_save L doc1 final_save_kw = Ok out /\
    updated (trace (compress L file pdf_path)) = listed (trace (compress L file pdf_path)) /\
    ((forall d x s d', update_image L d x s = Ok d' -> fitz_len L d' = fitz_len L d) ->
     fitz_len L doc1 = fitz_len L doc0).
Proof.
  unfold compress. intros H.
  pose proof (classify_inspection L pdf_path) as Hins.
  apply inspection_quiet in Hins. destruct Hins as [Hcu Hcl].
  apply bind_ok_inv in H. destruct H as (locals & Eloc & H & ->).
  apply bind_ok_inv in H. destruct H as (doc & Edoc & H & ->).
  apply bind_ok_inv in H. destruct H as (d & Elocal & H & ->).
  destruct doc as [d' |]; [| discriminate]. cbn in Elocal. inversion Elocal; subst d'.
  apply bind_ok_inv in H. destruct H as (bs & Esave & H & ->).
  apply bind_ok_inv in H. destruct H as (u & _ & H & ->).
  cbn in H. inversion H; subst. rewrite invoke_outcome in Esave.
  destruct (snd locals).
  - (* the vector path leaves [doc] unbound *)
    exfalso.
    rewrite outcome_bind in Edoc.
    destruct (outcome (local "pdf" (fst locals))); cbn [rbind] in Edoc; [| discriminate].
    rewrite outcome_bind in Edoc.
    destruct (outcome (vector_branch L a)); cbn in Edoc; discriminate.
  - apply bind_ok_inv in Edoc. destruct Edoc as (doc1 & Eraster & Eret & Etr).
    cbn in Eret. inversion Eret; subst doc1. rewrite Etr.
    unfold raster_branch in *.
    apply bind_ok_inv in Eraster. destruct Eraster as (doc0 & Eopen & Eloop & ->).
    rewrite invoke_outcome in Eopen. rewrite invoke_trace, Eopen.
    destruct (for_pages_ok _ doc0 d Eloop) as (Hu & Hlen).
    exists doc0, d. split; [reflexivity|]. split; [exact Esave|].
    rewrite invoke_trace.
    cbn [local ret print trace snd forget].
    rewrite !updated_app, !listed_app, Hcu, Hcl, Hu. cbn. auto.
Qed.

End RasterFacts.

(** ** The pages the loop visits (lines 123-126) *)

Lemma visited_app (t1 t2 : list call) : visited (t1 ++ t2) = visited t1 ++ visited t2.
Proof. apply flat_map_app. Qed.

Section VisitFacts.

Context (L : library).

Lemma visited_none (t : list call) :
  Forall (fun c => visited [c] = []) t -> visited t = [].
Proof.
  induction 1 as [| c t Hc _ IH]; [reflexivity |].
  change (visited (c :: t)) with (visited ([c] ++ t)).
  rewrite visited_app, Hc, IH. reflexivity.
Qed.

Lemma for_images_not_visiting (images : list image_item) : forall doc,
  Forall (fun c => visited [c] = []) (trace (for_images L doc images)).
Proof.
  induction images as [| img rest IH]; intros doc; cbn [for_images].
  - constructor.
  - apply trace_bind_Forall; [| intros d _; apply IH].
    unfold process_image.
    apply trace_bind_Forall; [repeat constructor | intros base _].
    apply trace_bind_Forall; [constructor | intros b _].
    apply trace_bind_Forall; [repeat constructor | intros image _].
    apply trace_bind_Forall; [| intros stream _; repeat constructor].
    unfold reencode.
    apply trace_bind_Forall; [| intros im _; repeat constructor].
    destruct (gt_int _ _); [| constructor].
    apply trace_bind_Forall; [constructor | intros size _; repeat constructor].
Qed.

(** every page is visited once, in order *)
Lemma for_pages_visited (indices : list nat) : forall (doc doc' : FitzDoc L),
  outcome (for_pages L doc indices) = Ok doc' ->
  visited (trace (for_pages L doc indices)) = indices.
Proof.
  induction indices as [| i rest IH]; intros doc doc' H; cbn [for_pages] in *.
  - reflexivity.
  - apply bind_ok_inv in H. destruct H as (page & Epage & H & ->).
    apply bind_ok_inv in H. destruct H as (images & Eimages & H & ->).
    apply bind_ok_inv in H. destruct H as (doc1 & E1 & H & ->).
    rewrite invoke_trace. cbn [lift trace snd app].
    change (?a :: ?t ++ ?u) with ([a] ++ t ++ u).
    rewrite !visited_app, (IH doc1 doc' H). cbn [visited flat_map app].
    rewrite (visited_none _ (for_images_not_visiting images doc)).
    reflexivity.
Qed.

(** the branch, run to the end, call by call *)
Lemma compress_run (file : FileStorage) (pdf_path : string) (fn : string) (out : bytes) :
  outcome (compress L file pdf_path) = Ok (fn, out) ->
  exists doc0 doc1,
    fitz_open L pdf_path = Ok doc0 /\
    outcome (for_pages L doc0 (seq 0 (fitz_len L doc0))) = Ok doc1 /\
    fitz_save L doc1 final_save_kw = Ok out /\
    trace (compress L file pdf_path) =
      trace (classify L pdf_path) ++
      c_fitz_open pdf_path (Ok tt) ::
      trace (for_pages L doc0 (seq 0 (fitz_len L doc0))) ++
      [c_fitz_save final_save_kw (Ok out);
       c_print "Scanned PDF compressed with image optimization."].
Proof.
  unfold compress. intros H.
  apply bind_ok_inv in H. destruct H as (locals & Eloc & H & ->).
  apply bind_ok_inv in H. destruct H as (doc & Edoc & H & ->).
  apply bind_ok_inv in H. destruct H as (d & Elocal & H & ->).
  destruct doc as [d' |]; [| discriminate]. cbn in Elocal. inversion Elocal; subst d'.
  apply bind_ok_inv in H. destruct H as (bs & Esave & H & ->).
  apply bind_ok_inv in H. destruct H as (u & _ & H & ->).
  cbn in H. inversion H; subst. rewrite invoke_outcome in Esave.
  destruct (snd locals).
  - exfalso.
    rewrite outcome_bind in Edoc.
    destruct (outcome (local "pdf" (fst locals))); cbn [rbind] in Edoc; [| discriminate].
    rewrite outcome_bind in Edoc.
    destruct (outcome (vector_branch L a)); cbn in Edoc; discriminate.
  - apply bind_ok_inv in Edoc. destruct Edoc as (doc1 & Eraster & Eret & Etr).
    cbn in Eret. inversion Eret; subst doc1. rewrite Etr.
    unfold raster_branch in *.
    apply bind_ok_inv in Eraster. destruct Eraster as (doc0 & Eopen & Eloop & ->).
    rewrite invoke_outcome in Eopen. rewrite invoke_trace, Eopen.
    exists doc0, d. split; [reflexivity |]. split; [exact Eloop |].
    split; [exact Esave |].
    rewrite invoke_trace, Esave.
    cbn [local ret print trace snd forget app]. rewrite ?app_nil_r.
    reflexivity.
Qed.

Lemma inspection_not_visiting (t : list call) :
  Forall (fun c => inspection_call c = true) t ->
  visited t = [] /\ Forall (fun c => image_call c = false) t.
Proof.
  induction 1 as [| c t Hc _ [IHv IHi]]; [split; [reflexivity | constructor] |].
  destruct c; cbn in Hc; try discriminate; cbn; split; try assumption;
    constructor; try assumption; reflexivity.
Qed.

End VisitFacts.

(** ** The per-image decisions (lines 132-149) *)

(** lines 132-137 and 145-148 are the table, read through the color mode *)
Lemma chosen_kw_table (image : Image) :
  chosen_kw image = kw_of_encoding (encoding_table (color_mode_of (mode image))).
Proof.
  unfold chosen_kw, choose_compression, color_mode_of.
  destruct (mode image =? "1")%string; [reflexivity|].
  destruct (mode image =? "L")%string; reflexivity.
Qed.

(** C3. For every image the raster strategy re-encodes, the arguments of
    the one [image.save] call are those the table gives for the image's
    color mode: group-4 TIFF for bilevel, JPEG at quality 85 for grayscale
    and for color.  Two images of the same mode get the same arguments,
    whatever their size, resolution or pixels. *)
Theorem format_by_color_mode (L : library) (image : Image) :
  chosen_kw image = kw_of_encoding (encoding_table (color_mode_of (mode image))) /\
  (saves (trace (reencode L image)) =
     [kw_of_encoding (encoding_table (color_mode_of (mode image)))] \/
   saves (trace (reencode L image)) = [] /\
   exists e, outcome (reencode L image) = Raise e) /\
  (forall doc img,
     saves (trace (process_image L doc img)) = [] \/
     exists data decoded,
       extract_image L doc (item_xref img) = Ok (Some data) /\
       Image_open L data = Ok decoded /\
       saves (trace (process_image L doc img)) =
         [kw_of_encoding (encoding_table (color_mode_of (mode decoded)))]) /\
  (forall other, mode other = mode image -> chosen_kw other = chosen_kw image).
Proof.
  split; [apply chosen_kw_table|].
  split; [| split].
  - destruct (reencode_trace L image) as (t & <- & _ & _ & Hs).
    rewrite <- chosen_kw_table. exact Hs.
  - intros doc img. unfold process_image.
    rewrite trace_bind, invoke_trace, invoke_outcome.
    destruct (extract_image L doc (item_xref img)) as [[data |] | e] eqn:Eext;
      try (left; reflexivity).
    rewrite bind_lift_ok, trace_bind, invoke_trace, invoke_outcome.
    destruct (Image_open L data) as [decoded | e] eqn:Eopen;
      try (left; reflexivity).
    rewrite trace_bind.
    destruct (reencode_trace L decoded) as (t & Et & _ & _ & Hs).
    rewrite Et.
    change (?a :: ?b ++ ?c) with ([a] ++ b ++ c).
    rewrite !saves_app.
    assert (Hupd : saves (match outcome (reencode L decoded) with
                          | Ok a => trace (invoke (update_image L doc (item_xref img) a)
                                             (fun r => c_update_image (item_xref img) a (forget r)))
                          | Raise _ => []
                          end) = []).
    { destruct (outcome (reencode L decoded)); reflexivity. }
    rewrite Hupd, app_nil_r. cbn [saves flat_map app].
    destruct Hs as [Hs | [Hs _]]; rewrite Hs.
    + right. exists data, decoded. rewrite <- chosen_kw_table. auto.
    + left. reflexivity.
  - intros other Hm. rewrite !chosen_kw_table, Hm. reflexivity.
Qed.

Lemma format_by_color_mode_witness :
  mode Toy.im_thin = mode Toy.im_gray /\
  chosen_kw Toy.im_thin = chosen_kw Toy.im_gray.
Proof.
  split; [reflexivity|].
  apply (proj2 (proj2 (proj2 (format_by_color_mode Toy.lib Toy.im_gray)))).
  reflexivity.
Defined.

(** lines 140-142 for an integer DPI: both dimensions within one of the exact quotient *)
Lemma new_size_int (image : Image) (d : Z) :
  200 < d < 2 ^ 31 ->
  0 <= width image < 2 ^ 31 ->
  0 <= height image < 2 ^ 31 ->
  exists nw nh,
    new_size image (PyInt d) = Ok (nw, nh) /\
    0 <= nw /\ 0 <= nh /\
    scaled_down (width image) d - 1 <= nw <= scaled_down (width image) d /\
    scaled_down (height image) d - 1 <= nh <= scaled_down (height image) d.
Proof.
  intros Hd Hw Hh.
  destruct (scaled_dimension (width image) d Hw Hd) as (f & nw & Ef & Ew & Hw0 & Hwb).
  destruct (scaled_dimension (height image) d Hh Hd) as (f' & nh & Ef' & Eh & Hh0 & Hhb).
  assert (f' = f) by congruence. subst f'.
  exists nw, nh. unfold new_size, truediv_int, TARGET_DPI.
  rewrite Ef. cbn [rbind]. rewrite Ew. cbn [rbind]. rewrite Eh. cbn [rbind].
  unfold scaled_down. auto.
Qed.




(** C10. For an image of positive size whose width or height times
    150/DPI is below 1, at an integer DPI above 200, the computed target
    size has a 0, and the resize call receives it as computed: it is the
    first call made, and its failure is the failure of the re-encoding. *)
Theorem zero_dimension_reaches_resize (L : library) (image : Image) (d : Z) :
  effective_dpi image = PyInt d -> 200 < d < 2 ^ 31 ->
  1 <= width image < 2 ^ 31 -> 1 <= height image < 2 ^ 31 ->
  150 * width image < d \/ 150 * height image < d ->
  exists nw nh,
    (nw = 0 \/ nh = 0) /\
    gt_int (effective_dpi image) DPI_THRESHOLD = true /\
    new_size image (effective_dpi image) = Ok (nw, nh) /\
    (exists rest,
       trace (reencode L image) =
       c_resize image (nw, nh) LANCZOS (Image_resize L image (nw, nh) LANCZOS) :: rest) /\
    (forall e, Image_resize L image (nw, nh) LANCZOS = Raise e ->
               outcome (reencode L image) = Raise e).
Proof.
  intros Hdpi Hd Hw Hh Hsmall.
  destruct (new_size_int image d Hd ltac:(lia) ltac:(lia))
    as (nw & nh & E & Hw0 & Hh0 & Hwb & Hhb).
  assert (Hgt : gt_int (effective_dpi image) DPI_THRESHOLD = true).
  { rewrite Hdpi. cbn [gt_int]. apply Z.ltb_lt. unfold DPI_THRESHOLD. lia. }
  rewrite <- Hdpi in E.
  exists nw, nh. split; [| split; [exact Hgt | split; [exact E | split]]].
  - unfold scaled_down in *. destruct Hsmall as [Hs | Hs].
    + left. rewrite (Z.div_small (150 * width image) d) in Hwb by lia. lia.
    + right. rewrite (Z.div_small (150 * height image) d) in Hhb by lia. lia.
  - rewrite (reencode_resized L image (nw, nh) Hgt E).
    rewrite trace_bind, invoke_trace. eexists. reflexivity.
  - intros e He. rewrite (reencode_resized L image (nw, nh) Hgt E).
    rewrite outcome_bind, invoke_outcome, He. reflexivity.
Qed.

Lemma zero_dimension_reaches_resize_witness :
  exists nw nh,
    (nw = 0 \/ nh = 0) /\
    gt_int (effective_dpi Toy.im_thin) DPI_THRESHOLD = true /\
    new_size Toy.im_thin (effective_dpi Toy.im_thin) = Ok (nw, nh) /\
    (exists rest,
       trace (reencode Toy.lib Toy.im_thin) =
       c_resize Toy.im_thin (nw, nh) LANCZOS
         (Image_resize Toy.lib Toy.im_thin (nw, nh) LANCZOS) :: rest) /\
    (forall e, Image_resize Toy.lib Toy.im_thin (nw, nh) LANCZOS = Raise e ->
               outcome (reencode Toy.lib Toy.im_thin) = Raise e).
Proof.
  apply (zero_dimension_reaches_resize Toy.lib Toy.im_thin 300).
  - reflexivity.
  - cbn; lia.
  - cbn; lia.
  - cbn; lia.
  - left. cbn. lia.
Defined.

(** ** Requests *)

Section RequestFacts.

Context (L : library).

Lemma process_trace (req : request) (db : Db.table) (file : FileStorage)
  (resp : response) (db' : Db.table) (t : list call) :
  files_file req = Some file ->
  not_file (files_file req) = false ->
  form_operation req = Some "compress" ->
  process_pdf L req db = (resp, db', t) ->
  t = trace (route_body L file (Some "compress")).
Proof.
  intros Hf Hn Ho Hp.
  rewrite (process_pdf_compress L req db file Hf Hn Ho) in Hp.
  destruct (route_body L file (Some "compress")) as [[[r | fn out] | e] t'];
    inversion Hp; reflexivity.
Qed.

(** C5, as the code has it.  When an image fails to decode, the exception
    of the Pillow call that met it is the response as it is, with no image
    index added; the failing call is the last call of the request, so no
    later image is touched, no document is saved and nothing is stored.  A
    request that succeeds has replaced every image [get_images] listed, and
    no call outside structural inspection has failed in it. *)
Theorem decode_failure_aborts (req : request) (db : Db.table) (file : FileStorage)
  (resp : response) (db' : Db.table) (t : list call) :
  files_file req = Some file ->
  not_file (files_file req) = false ->
  form_operation req = Some "compress" ->
  process_pdf L req db = (resp, db', t) ->
  (forall c e, In c t -> pillow_call c = true -> failed c = Some e ->
     resp = InternalServerError e /\ db' = db /\ exists t0, t = t0 ++ [c]) /\
  (forall fn op id, resp = ResultPage fn op id ->
     updated t = listed t /\
     forall c e, In c t -> failed c = Some e -> inspection_call c = true).
Proof.
  intros Hf Hn Ho Hp. split.
  - intros c e Hin Hpil Hfail.
    apply (process_failure L req db file resp db' t Hf Hn Ho Hp c e Hin Hfail).
    destruct c; cbn in Hpil; try discriminate; reflexivity.
  - intros fn op id Hresp. split.
    + destruct (process_outcomes L req db file resp db' t Hf Hn Ho Hp)
        as [(e & He & _) | (out & t0 & Ec & _)]; [congruence|].
      destruct (compress_ok L file _ _ out Ec) as (doc0 & doc1 & _ & _ & Hu & _).
      rewrite (process_trace req db file resp db' t Hf Hn Ho Hp).
      rewrite route_body_compress_trace.
      destruct (file_save L (pdf_path_of L file) (upload_content file)); cbn;
        [exact Hu | reflexivity].
    + intros c e Hin Hfail.
      destruct (inspection_call c) eqn:Hins; [reflexivity|].
      destruct (process_failure L req db file resp db' t Hf Hn Ho Hp c e Hin Hfail Hins)
        as (He & _). congruence.
Qed.


(** C9.  The bytes the two-save vector branch leaves in [output_bytes] are
    those of the second save alone: whenever the branch returns, the
    single-save branch returns the same bytes, and once the first save has
    returned the two branches have the same outcome, success or failure. *)
Theorem double_save_is_single_save (pdf : Pdf L) :
  (forall out, outcome (vector_branch L pdf) = Ok out ->
               outcome (vector_single_save L pdf) = Ok out) /\
  (forall b1,
     pdf_save L pdf {| optimize_streams := true; compression := None |} = Ok b1 ->
     outcome (vector_branch L pdf) = outcome (vector_single_save L pdf)).
Proof.
  assert (Hsecond : forall b1,
    pdf_save L pdf {| optimize_streams := true; compression := None |} = Ok b1 ->
    outcome (vector_branch L pdf) = outcome (vector_single_save L pdf)).
  { intros b1 E1. unfold vector_branch, vector_single_save.
    rewrite outcome_bind, invoke_outcome, E1. reflexivity. }
  split; [| exact Hsecond].
  intros out Hout.
  destruct (pdf_save L pdf {| optimize_streams := true; compression := None |})
    as [b1 | e1] eqn:E1.
  - rewrite <- (Hsecond b1 eq_refl). exact Hout.
  - unfold vector_branch in Hout.
    rewrite outcome_bind, invoke_outcome, E1 in Hout. discriminate.
Qed.

End RequestFacts.




(** ** Closed examples on the reference instance *)

Lemma vector_request_never_stored_witness :
  classifier Toy.lib (pdf_path_of Toy.lib (Toy.named "text.pdf")) = Ok Vector /\
  exists t,
    process_pdf Toy.lib (Toy.upload "text.pdf") [] =
    (InternalServerError (UnboundLocalError "doc"), [], t).
Proof.
  split; [reflexivity|].
  destruct (vector_request_never_stored Toy.lib (Toy.upload "text.pdf") []
              (Toy.named "text.pdf") eq_refl eq_refl eq_refl eq_refl)
    as (e & t & Hp & He).
  exists t.
  rewrite (He Toy.vector_doc [x01; x00] [x01; x00] eq_refl eq_refl eq_refl eq_refl) in Hp.
  exact Hp.
Defined.

(** a text PDF, sent for compression: the error page, an empty table *)
Lemma vector_upload_fails :
  fst (process_pdf Toy.lib (Toy.upload "text.pdf") []) =
  (InternalServerError (UnboundLocalError "doc"), []).
Proof. vm_compute. reflexivity. Qed.

(** a scan of two pages with a bilevel image at 150 DPI, a grayscale one at
    300 DPI and a color one at 600 DPI: the three streams are replaced, the
    second and third image are downsampled, the first is saved as decoded,
    and the stored document has two pages *)
Lemma scanned_upload_stored :
  let run := process_pdf Toy.lib (Toy.upload "scan.pdf") [] in
  fst (fst run) = ResultPage "scan_compressed.pdf" "compress" 1 /\
  updated (snd run) = [5; 6; 7] /\
  flat_map (fun c => match c with
                     | c_resize im size _ _ => [(width im, height im, size)]
                     | _ => []
                     end) (snd run)
    = [(3000, 2400, (1500, 1200)); (2000, 1000, (500, 250))] /\
  map (fun r => pdf_page_count Toy.lib (Db.file_data r)) (snd (fst run)) = [Some 2%nat].
Proof. vm_compute. repeat split. Qed.

Lemma compress_all_or_nothing_witness :
  (In (c_Image_open [xee] (Raise Toy.decode_error))
      (snd (process_pdf Toy.lib (Toy.upload "bad2.pdf") [])) /\
   fst (fst (process_pdf Toy.lib (Toy.upload "bad2.pdf") [])) =
     InternalServerError Toy.decode_error /\
   snd (fst (process_pdf Toy.lib (Toy.upload "bad2.pdf") [])) = []) /\
  (outcome (compress Toy.lib (Toy.named "bad1.pdf")
              (pdf_path_of Toy.lib (Toy.named "bad1.pdf"))) = Raise Toy.decode_error /\
   fst (fst (process_pdf Toy.lib (Toy.upload "bad1.pdf") [])) =
     InternalServerError Toy.decode_error /\
   snd (fst (process_pdf Toy.lib (Toy.upload "bad1.pdf") [])) = []).
Proof.
  assert (Hin : In (c_Image_open [xee] (Raise Toy.decode_error))
                  (snd (process_pdf Toy.lib (Toy.upload "bad2.pdf") []))).
  { vm_compute. do 10 right. left. reflexivity. }
  assert (Hraise : outcome (compress Toy.lib (Toy.named "bad1.pdf")
                              (pdf_path_of Toy.lib (Toy.named "bad1.pdf")))
                   = Raise Toy.decode_error).
  { vm_compute. reflexivity. }
  split; (split; [assumption|]).
  - apply (proj1 (compress_all_or_nothing Toy.lib (Toy.upload "bad2.pdf") []
                    (Toy.named "bad2.pdf")
                    (fst (fst (process_pdf Toy.lib (Toy.upload "bad2.pdf") [])))
                    (snd (fst (process_pdf Toy.lib (Toy.upload "bad2.pdf") [])))
                    (snd (process_pdf Toy.lib (Toy.upload "bad2.pdf") []))
                    eq_refl eq_refl eq_refl eq_refl)
             (c_Image_open [xee] (Raise Toy.decode_error)) Toy.decode_error
             Hin eq_refl eq_refl).
  - apply (proj1 (proj2 (compress_all_or_nothing Toy.lib (Toy.upload "bad1.pdf") []
                           (Toy.named "bad1.pdf")
                           (fst (fst (process_pdf Toy.lib (Toy.upload "bad1.pdf") [])))
                           (snd (fst (process_pdf Toy.lib (Toy.upload "bad1.pdf") [])))
                           (snd (process_pdf Toy.lib (Toy.upload "bad1.pdf") []))
                           eq_refl eq_refl eq_refl eq_refl))
             tt Toy.decode_error eq_refl Hraise).
Defined.

Lemma decode_failure_aborts_witness :
  (In (c_Image_open [xee] (Raise Toy.decode_error))
      (snd (process_pdf Toy.lib (Toy.upload "bad2.pdf") [])) /\
   fst (fst (process_pdf Toy.lib (Toy.upload "bad2.pdf") [])) =
     InternalServerError Toy.decode_error /\
   snd (fst (process_pdf Toy.lib (Toy.upload "bad2.pdf") [])) = [] /\
   exists t0, snd (process_pdf Toy.lib (Toy.upload "bad2.pdf") []) =
              t0 ++ [c_Image_open [xee] (Raise Toy.decode_error)]) /\
  (fst (fst (process_pdf Toy.lib (Toy.upload "scan.pdf") [])) =
     ResultPage "scan_compressed.pdf" "compress" 1 /\
   updated (snd (process_pdf Toy.lib (Toy.upload "scan.pdf") [])) =
   listed (snd (process_pdf Toy.lib (Toy.upload "scan.pdf") []))).
Proof.
  assert (Hin : In (c_Image_open [xee] (Raise Toy.decode_error))
                  (snd (process_pdf Toy.lib (Toy.upload "bad2.pdf") []))).
  { vm_compute. do 10 right. left. reflexivity. }
  assert (Hpage : fst (fst (process_pdf Toy.lib (Toy.upload "scan.pdf") [])) =
                  ResultPage "scan_compressed.pdf" "compress" 1).
  { vm_compute. reflexivity. }
  split; (split; [assumption|]).
  - apply (proj1 (decode_failure_aborts Toy.lib (Toy.upload "bad2.pdf") []
                    (Toy.named "bad2.pdf")
                    (fst (fst (process_pdf Toy.lib (Toy.upload "bad2.pdf") [])))
                    (snd (fst (process_pdf Toy.lib (Toy.upload "bad2.pdf") [])))
                    (snd (process_pdf Toy.lib (Toy.upload "bad2.pdf") []))
                    eq_refl eq_refl eq_refl eq_refl)
             (c_Image_open [xee] (Raise Toy.decode_error)) Toy.decode_error
             Hin eq_refl eq_refl).
  - apply (proj1 (proj2 (decode_failure_aborts Toy.lib (Toy.upload "scan.pdf") []
                           (Toy.named "scan.pdf")
                           (fst (fst (process_pdf Toy.lib (Toy.upload "scan.pdf") [])))
                           (snd (fst (process_pdf Toy.lib (Toy.upload "scan.pdf") [])))
                           (snd (process_pdf Toy.lib (Toy.upload "scan.pdf") []))
                           eq_refl eq_refl eq_refl eq_refl)
                    "scan_compressed.pdf" "compress" 1 Hpage)).
Defined.

(** C5 as stated fails: the first image of one upload and the second image
    of another fail to decode, and the two responses are the same, so the
    response does not tell the failing index. *)
Lemma decode_failure_carries_no_index :
  ~ exists identify : response -> option nat,
      forall name i,
        failing_index (snd (process_pdf Toy.lib (Toy.upload name) [])) = Some i ->
        identify (fst (fst (process_pdf Toy.lib (Toy.upload name) []))) = Some i.
Proof.
  intros [identify H].
  pose proof (H "bad1.pdf" 0%nat eq_refl) as H1.
  pose proof (H "bad2.pdf" 1%nat eq_refl) as H2.
  vm_compute in H1, H2. congruence.
Qed.


Lemma double_save_is_single_save_witness :
  (outcome (vector_branch Toy.lib Toy.vector_doc) = Ok [x01; x00] /\
   outcome (vector_single_save Toy.lib Toy.vector_doc) = Ok [x01; x00]) /\
  (pdf_save Toy.lib Toy.vector_doc {| optimize_streams := true; compression := None |}
     = Ok [x01; x00] /\
   outcome (vector_branch Toy.lib Toy.vector_doc) =
   outcome (vector_single_save Toy.lib Toy.vector_doc)).
Proof.
  split; (split; [reflexivity|]).
  - apply (proj1 (double_save_is_single_save Toy.lib Toy.vector_doc) [x01; x00]).
    reflexivity.
  - apply (proj2 (double_save_is_single_save Toy.lib Toy.vector_doc) [x01; x00]).
    reflexivity.
Defined.

(** * More of the code *)

(** ** File names (lines 76, 85, 100, 193) *)

Lemma append_empty_r (s : string) : (s ++ EmptyString)%string = s.
Proof. induction s as [| c s IH]; cbn; [reflexivity | rewrite IH; reflexivity]. Qed.

(** X1. A name in which [old] does not occur is left as it is: an upload
    whose name has no [".pdf"] in it is stored under the name it came
    with. *)
Theorem replace_absent (s old new : string) :
  occurs old s = false -> replace s old new = s.
Proof.
  unfold replace.
  induction s as [| c s IH]; intros H; cbn [replace_from].
  - reflexivity.
  - cbn [occurs] in H. apply orb_false_iff in H. destruct H as [Hp Ho].
    rewrite Hp, (IH Ho). reflexivity.
Qed.

Lemma replace_absent_witness :
  occurs ".pdf" "scan.PDF" = false /\
  replace "scan.PDF" ".pdf" "_compressed.pdf" = "scan.PDF".
Proof.
  split; [reflexivity|].
  apply (replace_absent "scan.PDF" ".pdf" "_compressed.pdf"). reflexivity.
Defined.

(** X2. For a name [stem ++ ".pdf"] whose stem has no dot, the three
    routes replace the extension and nothing else: [stem_compressed.pdf],
    [stem.docx], [stem_selected.pdf]. *)
Theorem replace_extension (stem new : string) :
  occurs "." stem = false ->
  replace (stem ++ ".pdf") ".pdf" new = (stem ++ new)%string.
Proof.
  unfold replace. induction stem as [| c stem IH]; intros H.
  - cbn. apply append_empty_r.
  - change (String c stem ++ ".pdf")%string with (String c (stem ++ ".pdf")).
    cbn [replace_from].
    assert (Hp : String.prefix ".pdf" (String c (stem ++ ".pdf")) = false).
    { cbn [String.prefix]. cbn [occurs String.prefix] in H.
      apply orb_false_iff in H. destruct H as [H _].
      destruct (ascii_dec "." c) as [E | N]; [| reflexivity].
      destruct stem; discriminate. }
    rewrite Hp. cbn [occurs] in H. apply orb_false_iff in H. destruct H as [_ H].
    rewrite (IH H). reflexivity.
Qed.

Lemma replace_extension_witness :
  occurs "." "scan" = false /\
  compressed_name (Toy.named "scan.pdf") = "scan_compressed.pdf".
Proof.
  split; [reflexivity|].
  apply (replace_extension "scan" "_compressed.pdf"). reflexivity.
Defined.

(** ** The table and the download route (lines 34-38, 161-168, 195-201, 211-219) *)

Lemma get_sequential (db : Db.table) : forall (k : nat),
  map Db.id db = map (fun j => Z.of_nat j + 1) (seq k (List.length db)) ->
  (forall n r, nth_error db n = Some r -> get db (Z.of_nat (k + n) + 1) = Some r) /\
  (forall i, i <= Z.of_nat k \/ Z.of_nat (k + List.length db) < i -> get db i = None).
Proof.
  unfold get.
  induction db as [| r db IH]; intros k H.
  - split; [intros [| n] r Hn; discriminate | reflexivity].
  - cbn [List.length seq map] in H. inversion H as [[Hid Hrest]].
    destruct (IH (S k) Hrest) as [IH1 IH2].
    split.
    + intros [| n] r0 Hn; cbn [nth_error find] in *.
      * inversion Hn; subst r0. rewrite Hid.
        replace (Z.of_nat (k + 0)) with (Z.of_nat k) by lia.
        rewrite Z.eqb_refl. reflexivity.
      * rewrite Hid.
        destruct (Z.eqb_spec (Z.of_nat k + 1) (Z.of_nat (k + S n) + 1)); [lia|].
        replace (k + S n)%nat with (S k + n)%nat by lia. exact (IH1 n r0 Hn).
    + intros i Hout. cbn [find List.length] in *. rewrite Hid.
      destruct (Z.eqb_spec (Z.of_nat k + 1) i); [lia|].
      apply IH2. lia.
Qed.

(** X3. In a table whose keys run 1, 2, ... in row order, [download]
    serves row number [n] for the key [n], with the name and the bytes of
    that row, and answers 404 for every other key. *)
Theorem download_by_key (db : Db.table) :
  sequential db ->
  (forall n r, nth_error db n = Some r ->
     download db (Z.of_nat n + 1) = Attachment (Db.filename r) (Db.file_data r)) /\
  (forall file_id, file_id <= 0 \/ Z.of_nat (List.length db) < file_id ->
     download db file_id = NotFound).
Proof.
  intros Hseq. destruct (get_sequential db 0 Hseq) as [H1 H2].
  unfold download. split.
  - intros n r Hn. change (Z.of_nat n) with (Z.of_nat (0 + n)).
    rewrite (H1 n r Hn). reflexivity.
  - intros file_id Hout. rewrite (H2 file_id); [reflexivity | lia].
Qed.

Lemma get_app (db rows : Db.table) (k : Z) :
  get (db ++ rows) k =
  match get db k with
  | Some r => Some r
  | None => get rows k
  end.
Proof.
  unfold get. induction db as [| r db IH]; cbn [app find]; [reflexivity|].
  destruct (Db.id r =? k); [reflexivity | exact IH].
Qed.

Lemma sequential_nil : sequential [].
Proof. reflexivity. Qed.

Lemma add_commit_sequential (db : Db.table) (fn op : string) (data : bytes) :
  sequential db -> sequential (fst (Db.add_commit db fn op data)).
Proof.
  unfold sequential, Db.add_commit. cbn [fst]. intros H.
  rewrite length_app, map_app. cbn [List.length map Db.id].
  rewrite Nat.add_1_r, seq_S, map_app, <- H. reflexivity.
Qed.

(** the row just added is the one served for its key; the rows before it
    are served as before *)
Lemma download_after_commit (db : Db.table) (fn op : string) (data : bytes) :
  sequential db ->
  download (fst (Db.add_commit db fn op data)) (Z.of_nat (List.length db) + 1) =
    Attachment fn data /\
  (forall k, download db k <> NotFound ->
     download (fst (Db.add_commit db fn op data)) k = download db k).
Proof.
  intros Hseq. unfold download, Db.add_commit. cbn [fst]. split.
  - rewrite get_app.
    destruct (get_sequential db 0 Hseq) as [_ Hnone].
    rewrite (Hnone (Z.of_nat (List.length db) + 1)) by lia.
    unfold get. cbn [find Db.id]. rewrite Z.eqb_refl. reflexivity.
  - intros k Hk. rewrite get_app. destruct (get db k); [reflexivity | contradiction].
Qed.

Lemma op_is_true (operation : option string) (name : string) :
  op_is operation name = true -> operation = Some name.
Proof.
  destruct operation as [s |]; cbn; [| discriminate].
  intros H. apply String.eqb_eq in H. congruence.
Qed.

Section TableFacts.

Context (L : library).

Lemma split_outcome (file : FileStorage) (pdf_path : string) (b : branch_result) :
  outcome (split L file pdf_path) = Ok b ->
  exists names, b = Return (PreviewPage (upload_filename file) names).
Proof.
  unfold split. intros H.
  apply bind_ok_inv in H. destruct H as (images & _ & H & _).
  apply bind_ok_inv in H. destruct H as (names & _ & H & _).
  cbn in H. inversion H. exists names. reflexivity.
Qed.

Lemma convert_outcome (file : FileStorage) (pdf_path : string) (b : branch_result) :
  outcome (convert L file pdf_path) = Ok b ->
  exists paragraphs out,
    b = Continue (replace (upload_filename file) ".pdf" ".docx") out /\
    In (c_docx_save paragraphs (Ok out)) (trace (convert L file pdf_path)).
Proof.
  unfold convert. intros H.
  apply bind_ok_inv in H. destruct H as (pages & _ & H & ->).
  apply bind_ok_inv in H. destruct H as (paragraphs & _ & H & ->).
  apply bind_ok_inv in H. destruct H as (out & Esave & H & ->).
  cbn in H. inversion H. exists paragraphs, out. split; [reflexivity|].
  rewrite invoke_outcome in Esave. rewrite invoke_trace, Esave.
  apply in_or_app. right. apply in_or_app. right. apply in_or_app. left.
  left. reflexivity.
Qed.

(** what the branches leave behind: only the convert and the compress
    branch reach the table, with the bytes their last save returned *)
Lemma route_body_outcome (file : FileStorage) (operation : option string)
  (b : branch_result) :
  outcome (route_body L file operation) = Ok b ->
  (exists names, operation = Some "split" /\
     b = Return (PreviewPage (upload_filename file) names)) \/
  (exists paragraphs out, operation = Some "convert" /\
     b = Continue (replace (upload_filename file) ".pdf" ".docx") out /\
     In (c_docx_save paragraphs (Ok out)) (trace (route_body L file operation))) \/
  (exists out, operation = Some "compress" /\
     b = Continue (compressed_name file) out /\
     In (c_fitz_save final_save_kw (Ok out)) (trace (route_body L file operation))) \/
  (op_is operation "split" = false /\ op_is operation "convert" = false /\
   op_is operation "compress" = false /\
   b = Return (PlainText "Invalid operation" 400)).
Proof.
  unfold route_body. intros H.
  apply bind_ok_inv in H. destruct H as (u & _ & H & ->).
  destruct (op_is operation "split") eqn:E1.
  { left. destruct (split_outcome _ _ _ H) as [names ->].
    exists names. split; [apply op_is_true; exact E1 | reflexivity]. }
  destruct (op_is operation "convert") eqn:E2.
  { right. left. destruct (convert_outcome _ _ _ H) as (ps & out & -> & Hin).
    exists ps, out. split; [apply op_is_true; exact E2 |].
    split; [reflexivity |]. apply in_or_app. right. exact Hin. }
  destruct (op_is operation "compress") eqn:E3.
  { right. right. left.
    apply bind_ok_inv in H. destruct H as ([fn out] & Ec & H & ->).
    cbn in H. inversion H; subst b.
    destruct (compress_ok_trace L file _ fn out Ec) as [-> [t0 Et0]].
    exists out. split; [apply op_is_true; exact E3 |].
    split; [reflexivity |]. apply in_or_app. right. apply in_or_app. left.
    rewrite Et0. apply in_or_app. right. left. reflexivity. }
  right. right. right. cbn in H. inversion H. auto.
Qed.

(** X4. A request to [process_pdf] changes the table in one way only: a
    convert or compress request that runs through appends one row, with the
    next key, the operation of the request and the output name, and is
    answered with the result page for that key.  Every other request (no
    file, split, an unknown operation, any failure) leaves the table as it
    was and is not answered with a result page. *)
Theorem process_pdf_table (req : request) (db : Db.table) :
  let '(resp, db', t) := process_pdf L req db in
  (db' = db /\ forall fn op id, resp <> ResultPage fn op id) \/
  (exists fn op data,
     (op = "convert" \/ op = "compress") /\ form_operation req = Some op /\
     resp = ResultPage fn op (Z.of_nat (List.length db) + 1) /\
     db' = db ++ [ {| Db.id := Z.of_nat (List.length db) + 1;
                      Db.filename := fn;
                      Db.operation := op;
                      Db.file_data := data |} ]).
Proof.
  unfold process_pdf.
  destruct (files_file req) as [file |]; [| left; split; [reflexivity | discriminate]].
  destruct (not_file (Some file)); [left; split; [reflexivity | discriminate] |].
  pose proof (route_body_outcome file (form_operation req)) as Hb.
  destruct (route_body L file (form_operation req)) as [[b | e] t];
    cbn [outcome trace fst snd] in Hb;
    [| left; split; [reflexivity | discriminate]].
  destruct (Hb b eq_refl)
    as [(names & _ & ->) | [(ps & out & Eop & -> & _) | [(out & Eop & -> & _) |
        (_ & _ & _ & ->)]]].
  - left. split; [reflexivity | discriminate].
  - right. rewrite Eop. cbn [Db.add_commit op_name Db.id].
    eexists _, "convert"%string, out. auto.
  - right. rewrite Eop. cbn [Db.add_commit op_name Db.id].
    eexists _, "compress"%string, out. auto.
  - left. split; [reflexivity | discriminate].
Qed.

(** X5. A result page leads to its file: after a request answered with the
    result page for [file_id], [download] serves for that key the name
    shown on the page and the bytes the last save of the request returned
    ([doc.save] of PyMuPDF on a compress request, of python-docx on a
    convert request); every file that could be downloaded before is served
    as before, and the keys still run 1, 2, ... *)
Theorem stored_result_downloads (req : request) (db db' : Db.table)
  (fn op : string) (file_id : Z) (t : list call) :
  sequential db ->
  process_pdf L req db = (ResultPage fn op file_id, db', t) ->
  sequential db' /\
  (exists data,
     download db' file_id = Attachment fn data /\
     (In (c_fitz_save final_save_kw (Ok data)) t \/
      exists paragraphs, In (c_docx_save paragraphs (Ok data)) t)) /\
  (forall k, download db k <> NotFound -> download db' k = download db k).
Proof.
  intros Hseq. unfold process_pdf.
  destruct (files_file req) as [file |]; [| discriminate].
  destruct (not_file (Some file)); [discriminate |].
  pose proof (route_body_outcome file (form_operation req)) as Hb.
  destruct (route_body L file (form_operation req)) as [[b | e] t'];
    cbn [outcome trace fst snd] in Hb; [| discriminate].
  assert (Hstore : forall out,
            b = Continue fn out ->
            (let (db0, record) :=
               Db.add_commit db fn (op_name (form_operation req)) out in
             (ResultPage fn (op_name (form_operation req)) (Db.id record), db0, t')) =
            (ResultPage fn op file_id, db', t) ->
            sequential db' /\
            download db' file_id = Attachment fn out /\
            (forall k, download db k <> NotFound -> download db' k = download db k) /\
            t' = t).
  { intros out _ H. cbn [Db.add_commit Db.id] in H. inversion H; subst.
    destruct (download_after_commit db fn (op_name (form_operation req)) out Hseq)
      as [H1 H2].
    split; [exact (add_commit_sequential db fn _ out Hseq) |].
    split; [exact H1 |]. split; [exact H2 | reflexivity]. }
  destruct (Hb b eq_refl)
    as [(names & _ & ->) | [(ps & out & Eop & -> & Hin) | [(out & Eop & -> & Hin) |
        (_ & _ & _ & ->)]]]; intros H.
  - inversion H.
  - assert (Efn : replace (upload_filename file) ".pdf" ".docx" = fn).
    { cbn [Db.add_commit] in H. inversion H. reflexivity. }
    rewrite Efn in *.
    destruct (Hstore out eq_refl H) as (H1 & H2 & H3 & <-).
    split; [exact H1 |]. split; [| exact H3].
    exists out. split; [exact H2 |]. right. exists ps. exact Hin.
  - assert (Efn : compressed_name file = fn).
    { cbn [Db.add_commit] in H. inversion H. reflexivity. }
    rewrite Efn in *.
    destruct (Hstore out eq_refl H) as (H1 & H2 & H3 & <-).
    split; [exact H1 |]. split; [| exact H3].
    exists out. split; [exact H2 |]. left. exact Hin.
  - inversion H.
Qed.

End TableFacts.

Lemma download_by_key_witness :
  sequential
    [ {| Db.id := 1; Db.filename := "a.docx"; Db.operation := "convert";
         Db.file_data := [x01] |};
      {| Db.id := 2; Db.filename := "b_compressed.pdf"; Db.operation := "compress";
         Db.file_data := [x02; x03] |} ] /\
  download
    [ {| Db.id := 1; Db.filename := "a.docx"; Db.operation := "convert";
         Db.file_data := [x01] |};
      {| Db.id := 2; Db.filename := "b_compressed.pdf"; Db.operation := "compress";
         Db.file_data := [x02; x03] |} ] 2 =
    Attachment "b_compressed.pdf" [x02; x03] /\
  download
    [ {| Db.id := 1; Db.filename := "a.docx"; Db.operation := "convert";
         Db.file_data := [x01] |};
      {| Db.id := 2; Db.filename := "b_compressed.pdf"; Db.operation := "compress";
         Db.file_data := [x02; x03] |} ] 3 = NotFound.
Proof.
  split; [reflexivity |].
  destruct (download_by_key
              [ {| Db.id := 1; Db.filename := "a.docx"; Db.operation := "convert";
                   Db.file_data := [x01] |};
                {| Db.id := 2; Db.filename := "b_compressed.pdf";
                   Db.operation := "compress"; Db.file_data := [x02; x03] |} ]
              eq_refl) as [H1 H2].
  split.
  - exact (H1 1%nat _ eq_refl).
  - apply H2. right. reflexivity.
Defined.

Lemma stored_result_downloads_witness :
  sequential [] /\
  fst (process_pdf toy_ocr (toy_request "scan.pdf" (Some "convert")) []) =
    (ResultPage "scan.docx" "convert" 1,
     [ {| Db.id := 1; Db.filename := "scan.docx"; Db.operation := "convert";
          Db.file_data := [x01; x01; x01] |} ]) /\
  exists data,
    download [ {| Db.id := 1; Db.filename := "scan.docx"; Db.operation := "convert";
                  Db.file_data := [x01; x01; x01] |} ] 1 =
      Attachment "scan.docx" data.
Proof.
  split; [reflexivity |]. split; [reflexivity |].
  destruct (stored_result_downloads toy_ocr
              (toy_request "scan.pdf" (Some "convert")) [] _ _ _ _ _
              sequential_nil eq_refl) as (_ & (data & Hd & _) & _).
  exists data. exact Hd.
Defined.

(** ** The selection route (lines 178-208) *)

Section SplitFinalFacts.

Context (L : library) (P : pypdf).

Lemma add_pages_bad (reader : Reader P) (p : string) (pages : list string) :
  In p pages ->
  (forall i, int_of_str P p = Ok i -> exists e, pages_getitem P reader i = Raise e) ->
  forall writer, exists e, add_pages P reader writer pages = Raise e.
Proof.
  intros Hin Hbad.
  induction pages as [| q rest IH]; [destruct Hin |].
  intros writer. cbn [add_pages].
  destruct (int_of_str P q) as [i | e] eqn:Ei; cbn [rbind]; [| eauto].
  destruct (pages_getitem P reader i) as [page | e] eqn:Eg; cbn [rbind]; [| eauto].
  destruct (add_page P writer page) as [w' | e]; cbn [rbind]; [| eauto].
  destruct Hin as [-> | Hin].
  - destruct (Hbad i Ei) as [e He]. congruence.
  - exact (IH Hin w').
Qed.


(** X7. One page value that cannot be resolved voids the whole selection:
    if some submitted value is not a number, or is a number the reader has
    no page for, the request ends in an error and nothing is stored,
    whatever the other values are; so does a request without [pdf_name]. *)
Theorem split_final_rejects_bad_selection (pdf_name : option string)
  (pages : list string) (p : string) (db : Db.table) :
  pdf_name = None \/
  (In p pages /\
   forall name reader i,
     pdf_name = Some name ->
     PdfReader P (os_path_join L (PDF_DIR L) name) = Ok reader ->
     int_of_str P p = Ok i ->
     exists e, pages_getitem P reader i = Raise e) ->
  exists e, split_final L P pdf_name pages db = (InternalServerError e, db).
Proof.
  unfold split_final, split_final_body.
  intros [-> | [Hin Hbad]]; [cbn; eauto |].
  destruct pdf_name as [name |]; cbn [needs_str rbind]; [| eauto].
  destruct (PdfReader P _) as [reader | e] eqn:Er; cbn [rbind]; [| eauto].
  destruct (add_pages_bad reader p pages Hin (fun i => Hbad name reader i eq_refl Er)
              (PdfWriter P)) as [e He].
  rewrite He. cbn [rbind]. eauto.
Qed.

End SplitFinalFacts.


Lemma split_final_rejects_bad_selection_witness :
  In "7" ["0"; "7"] /\
  exists e,
    split_final toy_ocr toy_pypdf (Some "scan.pdf") ["0"; "7"] [] =
      (InternalServerError e, []).
Proof.
  split; [right; left; reflexivity |].
  apply (split_final_rejects_bad_selection toy_ocr toy_pypdf (Some "scan.pdf")
           ["0"; "7"] "7" []).
  right. split; [right; left; reflexivity |].
  intros name reader i Hn Hr Hi.
  inversion Hn; subst name. vm_compute in Hr. inversion Hr; subst reader.
  vm_compute in Hi. inversion Hi; subst i.
  eexists. reflexivity.
Defined.

(** ** The request before it is dispatched (lines 58-68, 158-159) *)

Section DispatchFacts.

Context (L : library).

Lemma save_previews_escapes (file_name : string) (images : list Image) : forall i,
  escapes (save_previews L file_name i images).
Proof.
  induction images as [| img rest IH]; intros i; cbn [save_previews].
  - escapes_step.
  - repeat escapes_step. apply IH.
Qed.

Lemma ocr_pages_escapes (pages : list Image) : escapes (ocr_pages L pages).
Proof.
  induction pages as [| p rest IH]; cbn [ocr_pages].
  - escapes_step.
  - repeat escapes_step. exact IH.
Qed.

Lemma route_body_escapes (file : FileStorage) (operation : option string) :
  escapes (route_body L file operation).
Proof.
  unfold route_body. escapes_step; [escapes_step |].
  destruct (op_is operation "split").
  { unfold split. repeat escapes_step. apply save_previews_escapes. }
  destruct (op_is operation "convert").
  { unfold convert. repeat escapes_step. apply ocr_pages_escapes. }
  destruct (op_is operation "compress").
  { repeat escapes_step. apply compress_escapes. }
  escapes_step.
Qed.

(** the calls of a request are those of the body of the route *)
Lemma process_pdf_body (req : request) (db : Db.table) (file : FileStorage) :
  files_file req = Some file ->
  not_file (files_file req) = false ->
  snd (process_pdf L req db) = trace (route_body L file (form_operation req)) /\
  (forall e, outcome (route_body L file (form_operation req)) = Raise e ->
     fst (process_pdf L req db) = (InternalServerError e, db)) /\
  (forall r, outcome (route_body L file (form_operation req)) = Ok (Return r) ->
     fst (process_pdf L req db) = (r, db)).
Proof.
  intros Hf Hn. unfold process_pdf. rewrite Hf in *. rewrite Hn.
  destruct (route_body L file (form_operation req)) as [[[r | fn out] | e] t];
    cbn [outcome trace fst snd Db.add_commit].
  - split; [reflexivity |]. split; [discriminate |]. intros r' H. inversion H. reflexivity.
  - split; [reflexivity |]. split; discriminate.
  - split; [reflexivity |]. split; [| discriminate]. intros e' H. inversion H. reflexivity.
Qed.

(** X8. The upload is written to disk before the operation is looked at.
    Without a file (or with an unnamed one) the answer is 400 and nothing
    is called.  With a file, the first call writes its content to the
    upload directory under the client's file name; if that write raises,
    the request ends there, and if the operation is none of split, convert
    and compress, the file stays written, the answer is 400 and nothing
    else is called or stored. *)
Theorem upload_written_before_dispatch (req : request) (db : Db.table) :
  (not_file (files_file req) = true ->
   process_pdf L req db = (PlainText "No file uploaded" 400, db, [])) /\
  (forall file,
     files_file req = Some file -> not_file (files_file req) = false ->
     exists rest,
       snd (process_pdf L req db) =
         c_file_save (pdf_path_of L file)
           (file_save L (pdf_path_of L file) (upload_content file)) :: rest /\
       (forall e, file_save L (pdf_path_of L file) (upload_content file) = Raise e ->
          process_pdf L req db =
            (InternalServerError e, db, [c_file_save (pdf_path_of L file) (Raise e)])) /\
       (forall u, file_save L (pdf_path_of L file) (upload_content file) = Ok u ->
          op_is (form_operation req) "split" = false ->
          op_is (form_operation req) "convert" = false ->
          op_is (form_operation req) "compress" = false ->
          process_pdf L req db =
            (PlainText "Invalid operation" 400, db,
             [c_file_save (pdf_path_of L file) (Ok u)]))).
Proof.
  split.
  - unfold process_pdf. intros Hn.
    destruct (files_file req) as [file |]; [| reflexivity]. rewrite Hn. reflexivity.
  - intros file Hf Hn. unfold process_pdf. rewrite Hf in *. rewrite Hn.
    unfold route_body. fold (pdf_path_of L file).
    destruct (file_save L (pdf_path_of L file) (upload_content file)) as [u | e] eqn:Es.
    + unfold invoke.
      match goal with
      | |- context [bind (Ok u, ?t) ?k] =>
          change (bind (Ok u, t) k)
            with (let (r, t') := k u in (r, t ++ t'))
      end.
      cbv beta.
      match goal with
      | |- context [if op_is ?o "split" then ?a else ?b] =>
          set (branch := if op_is o "split" then a else b)
      end.
      destruct branch as [[[r | fn out] | e] t'] eqn:Eb;
        cbn [snd app Db.add_commit].
      all: eexists; split; [reflexivity |]; split; [discriminate |].
      all: intros u' Hu H1 H2 H3; inversion Hu; subst u'.
      all: subst branch; rewrite H1, H2, H3 in Eb; cbn in Eb; inversion Eb; reflexivity.
    + unfold invoke. cbn [bind snd].
      eexists. split; [reflexivity |]. split; [| discriminate].
      intros e' He. inversion He. reflexivity.
Qed.

(** X9. Any failure ends the request where it happens.  On every request,
    whatever the operation, a call outside the classifier's [try] that
    raises is the last call made, its exception is the response, and the
    table is as it was: previews written before a failing one stay on
    disk, but no page lists them and no row is stored. *)
Theorem failure_ends_request (req : request) (db : Db.table) :
  forall c e,
    In c (snd (process_pdf L req db)) -> failed c = Some e ->
    inspection_call c = false ->
    fst (process_pdf L req db) = (InternalServerError e, db) /\
    exists t0, snd (process_pdf L req db) = t0 ++ [c].
Proof.
  intros c e Hin Hfail Hins.
  destruct (files_file req) as [file |] eqn:Hf;
    [| unfold process_pdf in Hin; rewrite Hf in Hin; destruct Hin].
  destruct (not_file (files_file req)) eqn:Hn.
  { unfold process_pdf in Hin. rewrite Hf in *. rewrite Hn in Hin. destruct Hin. }
  destruct (process_pdf_body req db file Hf Hn) as (Ht & Hraise & _).
  rewrite Ht in *.
  destruct (route_body_escapes file (form_operation req) c e Hin Hfail Hins)
    as [Hout Hlast].
  split; [exact (Hraise e Hout) | exact Hlast].
Qed.

End DispatchFacts.

Lemma upload_written_before_dispatch_witness :
  not_file (files_file (toy_request "scan.pdf" (Some "rotate"))) = false /\
  process_pdf Toy.lib (toy_request "scan.pdf" (Some "rotate")) [] =
    (PlainText "Invalid operation" 400, [], [c_file_save "pdf/scan.pdf" (Ok tt)]).
Proof.
  split; [reflexivity |].
  destruct (upload_written_before_dispatch Toy.lib
              (toy_request "scan.pdf" (Some "rotate")) []) as [_ H].
  destruct (H (Toy.named "scan.pdf") eq_refl eq_refl) as (rest & _ & _ & Hinvalid).
  exact (Hinvalid tt eq_refl eq_refl eq_refl eq_refl).
Defined.

Lemma failure_ends_request_witness :
  In (c_Image_open [xee] (Raise Toy.decode_error))
     (snd (process_pdf Toy.lib (Toy.upload "bad2.pdf") [])) /\
  fst (process_pdf Toy.lib (Toy.upload "bad2.pdf") []) =
    (InternalServerError Toy.decode_error, []).
Proof.
  assert (Hin : In (c_Image_open [xee] (Raise Toy.decode_error))
                  (snd (process_pdf Toy.lib (Toy.upload "bad2.pdf") []))).
  { vm_compute. tauto. }
  split; [exact Hin |].
  exact (proj1 (failure_ends_request Toy.lib (Toy.upload "bad2.pdf") [] _ _ Hin
                  eq_refl eq_refl)).
Defined.

(** ** The preview branch and the preview route (lines 70-81, 222-224) *)

Section PreviewFacts.

Context (L : library).

(** the loop of lines 75-79, run to the end *)
Lemma save_previews_ok (file_name : string) (images : list Image) :
  forall (i : nat) (names : list string),
  outcome (save_previews L file_name i images) = Ok names ->
  names = map (preview_name file_name) (seq i (List.length images)) /\
  trace (save_previews L file_name i images) =
    map (fun name => c_Image_save_file (preview_image L name) "PNG" (Ok tt)) names.
Proof.
  induction images as [| img rest IH]; intros i names H; cbn [save_previews] in *.
  - cbn in H. inversion H. split; reflexivity.
  - apply bind_ok_inv in H. destruct H as (u & Eu & H & ->).
    apply bind_ok_inv in H. destruct H as (names' & En & H & ->).
    cbn in H. inversion H; subst names.
    destruct (IH (S i) names' En) as [-> ->].
    rewrite invoke_outcome in Eu. rewrite invoke_trace, Eu. destruct u.
    cbn [List.length seq map ret trace snd]. rewrite app_nil_r.
    split; reflexivity.
Qed.

(** the body of a split request, run to the end *)
Lemma route_body_split_ok (file : FileStorage) (b : branch_result) :
  outcome (route_body L file (Some "split")) = Ok b ->
  exists images u,
    convert_from_path L (pdf_path_of L file) (Some 120) = Ok images /\
    b = Return (PreviewPage (upload_filename file)
                  (map (preview_name (upload_filename file))
                     (seq 0 (List.length images)))) /\
    trace (route_body L file (Some "split")) =
      c_file_save (pdf_path_of L file) (Ok u) ::
      c_convert_from_path (pdf_path_of L file) (Some 120) (Ok images) ::
      map (fun name => c_Image_save_file (preview_image L name) "PNG" (Ok tt))
        (map (preview_name (upload_filename file)) (seq 0 (List.length images))).
Proof.
  unfold route_body. cbn [op_is String.eqb Ascii.eqb Bool.eqb].
  fold (pdf_path_of L file). intros Hout.
  apply bind_ok_inv in Hout. destruct Hout as (u & Eu & H & ->).
  rewrite invoke_outcome in Eu. rewrite invoke_trace, Eu.
  unfold split in *.
  apply bind_ok_inv in H. destruct H as (images & Ei & H & ->).
  rewrite invoke_outcome in Ei. rewrite invoke_trace, Ei.
  apply bind_ok_inv in H. destruct H as (names & En & H & ->).
  cbn in H. inversion H; subst b.
  destruct (save_previews_ok _ _ _ _ En) as [-> ->].
  cbn [ret trace snd app]. rewrite app_nil_r.
  exists images, u. auto.
Qed.


(** the names on a preview page, and the first call of the request *)
Lemma preview_page_names (req : request) (db db' : Db.table) (file : FileStorage)
  (pdf_name : string) (names : list string) (t : list call) :
  files_file req = Some file ->
  not_file (files_file req) = false ->
  form_operation req = Some "split" ->
  process_pdf L req db = (PreviewPage pdf_name names, db', t) ->
  exists n u rest,
    pdf_name = upload_filename file /\
    names = map (preview_name (upload_filename file)) (seq 0 n) /\
    t = c_file_save (pdf_path_of L file) (Ok u) :: rest.
Proof.
  intros Hf Hn Ho Hp.
  destruct (process_pdf_body L req db file Hf Hn) as (Ht & Hraise & Hret).
  rewrite Hp, Ho in *. cbn [fst snd] in *.
  destruct (outcome (route_body L file (Some "split"))) as [b | e] eqn:Hout;
    [| discriminate (Hraise e eq_refl)].
  destruct (route_body_split_ok file b Hout) as (images & u & Ei & -> & Etr).
  pose proof (Hret _ eq_refl) as Hr. inversion Hr; subst pdf_name names db'.
  exists (List.length images), u. eexists. rewrite Ht, Etr. auto.
Qed.

(** a preview page is the answer to a split request only *)
Lemma preview_page_inv (req : request) (db db' : Db.table) (pdf_name : string)
  (names : list string) (t : list call) :
  process_pdf L req db = (PreviewPage pdf_name names, db', t) ->
  exists file,
    files_file req = Some file /\ not_file (files_file req) = false /\
    form_operation req = Some "split".
Proof.
  intros Hp. unfold process_pdf in Hp.
  destruct (files_file req) as [file |] eqn:Hf; [| discriminate].
  destruct (not_file (Some file)) eqn:Hn; [discriminate |].
  exists file. split; [reflexivity |]. split; [reflexivity |].
  pose proof (route_body_outcome L file (form_operation req)) as Hb.
  destruct (route_body L file (form_operation req)) as [[b | e] t'];
    cbn [outcome trace fst snd] in Hb; [| discriminate].
  destruct (Hb b eq_refl)
    as [(ns & Eop & ->) | [(ps & out & Eop & -> & _) | [(out & Eop & -> & _) |
        (_ & _ & _ & ->)]]].
  - exact Eop.
  - cbn [Db.add_commit] in Hp. discriminate.
  - cbn [Db.add_commit] in Hp. discriminate.
  - discriminate.
Qed.

End PreviewFacts.

(** *** The names of the previews *)

Lemma string_of_nat_inj (i j : nat) : string_of_nat i = string_of_nat j -> i = j.
Proof.
  unfold string_of_nat. intros H.
  apply (f_equal DecimalString.NilEmpty.uint_of_string) in H.
  rewrite !DecimalString.NilEmpty.usu in H. inversion H as [H'].
  apply (f_equal Nat.of_uint) in H'.
  rewrite !DecimalNat.Unsigned.of_to in H'. exact H'.
Qed.

Lemma append_inj_l (s a b : string) : (s ++ a)%string = (s ++ b)%string -> a = b.
Proof.
  induction s as [| c s IH]; cbn; intros H; [exact H |].
  inversion H. auto.
Qed.

Lemma append_length (a b : string) :
  String.length (a ++ b) = (String.length a + String.length b)%nat.
Proof. induction a as [| c a IH]; cbn; [reflexivity | rewrite IH; reflexivity]. Qed.

Lemma append_inj_r (a b s : string) : (a ++ s)%string = (b ++ s)%string -> a = b.
Proof.
  revert b. induction a as [| c a IH]; intros [| d b] H; cbn in H.
  - reflexivity.
  - apply (f_equal String.length) in H. cbn in H. rewrite append_length in H. lia.
  - apply (f_equal String.length) in H. cbn in H. rewrite append_length in H. lia.
  - inversion H. f_equal. auto.
Qed.

Lemma preview_name_NoDup (file_name : string) (n : nat) :
  NoDup (map (preview_name file_name) (seq 0 n)).
Proof.
  apply Finite.Injective_map_NoDup; [| apply seq_NoDup].
  intros i j H. unfold preview_name in H.
  apply append_inj_l in H. apply append_inj_l in H. apply append_inj_r in H.
  apply string_of_nat_inj. exact H.
Qed.

(** X11. The previews of one request never overwrite each other: on
    every preview page the image names are pairwise different, whatever
    the file name and the number of pages. *)
Theorem preview_names_distinct (L : library) (req : request) (db db' : Db.table)
  (pdf_name : string) (names : list string) (t : list call) :
  process_pdf L req db = (PreviewPage pdf_name names, db', t) ->
  NoDup names.
Proof.
  intros Hp. destruct (preview_page_inv L req db db' pdf_name names t Hp)
    as (file & Hf & Hn & Ho).
  destruct (preview_page_names L req db db' file pdf_name names t Hf Hn Ho Hp)
    as (n & u & rest & _ & -> & _).
  apply preview_name_NoDup.
Qed.

Lemma preview_names_distinct_witness :
  NoDup ["scan.pdf_0.png"; "scan.pdf_1.png"; "scan.pdf_2.png"].
Proof.
  apply (preview_names_distinct toy_ocr (toy_request "scan.pdf" (Some "split")) [] []
           "scan.pdf" ["scan.pdf_0.png"; "scan.pdf_1.png"; "scan.pdf_2.png"]
           (snd (process_pdf toy_ocr (toy_request "scan.pdf" (Some "split")) []))).
  reflexivity.
Defined.


(** ** The convert branch (lines 84-96) *)

Section ConvertFacts.

Context (L : library).

(** the loop of lines 90-91, run to the end *)
Lemma ocr_pages_ok (pages : list Image) : forall (texts : list string),
  outcome (ocr_pages L pages) = Ok texts ->
  Forall2 (fun p text => image_to_string L p = Ok text) pages texts /\
  trace (ocr_pages L pages) = map (fun text => c_image_to_string (Ok text)) texts.
Proof.
  induction pages as [| p rest IH]; intros texts H; cbn [ocr_pages] in *.
  - cbn in H. inversion H. split; [constructor | reflexivity].
  - apply bind_ok_inv in H. destruct H as (text & Et & H & ->).
    apply bind_ok_inv in H. destruct H as (texts' & En & H & ->).
    cbn in H. inversion H; subst texts.
    destruct (IH texts' En) as [HF ->].
    rewrite invoke_outcome in Et. rewrite invoke_trace, Et.
    cbn [map ret trace snd]. rewrite app_nil_r.
    split; [constructor; assumption | reflexivity].
Qed.

(** X12. A convert request that runs through renders the upload at the
    default resolution, reads every page image once, in page order, and
    saves a document whose paragraphs are exactly the recognised texts,
    one per page in page order (an empty text is still a paragraph, a PDF
    without pages gives a document without paragraphs).  The bytes of that
    save are stored under the name with [".pdf"] replaced by [".docx"]. *)
Theorem convert_one_paragraph_per_page (req : request) (db db' : Db.table)
  (file : FileStorage) (fn op : string) (file_id : Z) (t : list call) :
  files_file req = Some file ->
  not_file (files_file req) = false ->
  form_operation req = Some "convert" ->
  process_pdf L req db = (ResultPage fn op file_id, db', t) ->
  exists pages texts out u,
    convert_from_path L (pdf_path_of L file) None = Ok pages /\
    Forall2 (fun p text => image_to_string L p = Ok text) pages texts /\
    docx_save L texts = Ok out /\
    t = c_file_save (pdf_path_of L file) (Ok u) ::
        c_convert_from_path (pdf_path_of L file) None (Ok pages) ::
        map (fun text => c_image_to_string (Ok text)) texts ++
        [c_docx_save texts (Ok out)] /\
    fn = replace (upload_filename file) ".pdf" ".docx" /\
    op = "convert" /\
    db' = db ++ [ {| Db.id := Z.of_nat (List.length db) + 1;
                     Db.filename := fn;
                     Db.operation := "convert";
                     Db.file_data := out |} ].
Proof.
  intros Hf Hn Ho Hp.
  unfold process_pdf in Hp. rewrite Hf in *. rewrite Hn, Ho in Hp.
  unfold route_body in Hp. cbn [op_is String.eqb Ascii.eqb Bool.eqb] in Hp.
  fold (pdf_path_of L file) in Hp.
  match type of Hp with
  | context [bind ?m ?k] => set (body := bind m k) in Hp
  end.
  destruct (outcome body) as [b | e] eqn:Hout.
  2:{ destruct body as [[b | e'] t']; cbn in Hout; [discriminate | discriminate]. }
  assert (Hbody : body = (Ok b, trace body)) by (destruct body; cbn in *; congruence).
  subst body.
  apply bind_ok_inv in Hout. destruct Hout as (u & Eu & H & Etr).
  rewrite Hbody, Etr in Hp. clear Hbody Etr.
  rewrite invoke_outcome in Eu. rewrite invoke_trace, Eu in Hp.
  unfold convert in H, Hp.
  apply bind_ok_inv in H. destruct H as (pages & Ei & H & Etr2).
  rewrite Etr2 in Hp. rewrite invoke_outcome in Ei. rewrite invoke_trace, Ei in Hp.
  apply bind_ok_inv in H. destruct H as (texts & En & H & Etr3).
  rewrite Etr3 in Hp.
  apply bind_ok_inv in H. destruct H as (out & Es & H & Etr4).
  rewrite Etr4 in Hp. rewrite invoke_outcome in Es. rewrite invoke_trace, Es in Hp.
  cbn in H. inversion H; subst b.
  destruct (ocr_pages_ok pages texts En) as [HF Etrace].
  rewrite Etrace in Hp. cbn [ret trace snd app Db.add_commit op_name Db.id] in Hp.
  inversion Hp; subst.
  exists pages, texts, out, u. repeat split; auto.
Qed.

End ConvertFacts.

Lemma convert_one_paragraph_per_page_witness :
  exists pages texts out u,
    convert_from_path toy_ocr (pdf_path_of toy_ocr (Toy.named "scan.pdf")) None = Ok pages /\
    Forall2 (fun p text => image_to_string toy_ocr p = Ok text) pages texts /\
    docx_save toy_ocr texts = Ok out /\
    snd (process_pdf toy_ocr (toy_request "scan.pdf" (Some "convert")) []) =
      c_file_save (pdf_path_of toy_ocr (Toy.named "scan.pdf")) (Ok u) ::
      c_convert_from_path (pdf_path_of toy_ocr (Toy.named "scan.pdf")) None (Ok pages) ::
      map (fun text => c_image_to_string (Ok text)) texts ++
      [c_docx_save texts (Ok out)] /\
    "scan.docx" = replace (upload_filename (Toy.named "scan.pdf")) ".pdf" ".docx" /\
    "convert" = "convert" /\
    [ {| Db.id := 1; Db.filename := "scan.docx"; Db.operation := "convert";
         Db.file_data := [x01; x01; x01] |} ] =
    [] ++ [ {| Db.id := Z.of_nat (List.length (@nil Db.FileRecord)) + 1;
               Db.filename := "scan.docx";
               Db.operation := "convert";
               Db.file_data := out |} ].
Proof.
  apply (convert_one_paragraph_per_page toy_ocr
           (toy_request "scan.pdf" (Some "convert")) []
           [ {| Db.id := 1; Db.filename := "scan.docx"; Db.operation := "convert";
                Db.file_data := [x01; x01; x01] |} ]
           (Toy.named "scan.pdf") "scan.docx" "convert" 1
           (snd (process_pdf toy_ocr (toy_request "scan.pdf" (Some "convert")) [])));
    reflexivity.
Defined.

(** ** More on the compress branch (lines 99-155) *)

Lemma aborts_quiet (bad : call -> option exn) {A} (m : M A) :
  Forall (fun c => bad c = None) (trace m) -> aborts_on bad m.
Proof.
  intros Hall c e Hin Hbad. rewrite Forall_forall in Hall.
  rewrite (Hall c Hin) in Hbad. discriminate.
Qed.

Lemma aborts_bind (bad : call -> option exn) {A B} (m : M A) (k : A -> M B) :
  aborts_on bad m -> (forall a, outcome m = Ok a -> aborts_on bad (k a)) ->
  aborts_on bad (bind m k).
Proof.
  intros Hm Hk c e Hin Hbad.
  destruct (bind_cases m k) as [(a & Ea & Eb) | (e' & Ee & Eb)];
    rewrite Eb in *; cbn [outcome trace fst snd] in *.
  - apply in_app_or in Hin. destruct Hin as [Hin | Hin].
    + destruct (Hm c e Hin Hbad) as [Hraise _]. congruence.
    + destruct (Hk a Ea c e Hin Hbad) as [Ho [t0 Et]].
      split; [exact Ho |]. exists (trace m ++ t0). rewrite Et. apply app_assoc.
  - destruct (Hm c e Hin Hbad) as [Ho Ht]. split; [congruence | exact Ht].
Qed.

Section CompressMore.

Context (L : library).

Lemma reencode_no_extract (image : Image) :
  Forall (fun c => key_error c = None) (trace (reencode L image)).
Proof.
  unfold reencode.
  apply trace_bind_Forall; [| intros im _; repeat constructor].
  destruct (gt_int _ _); [| constructor].
  apply trace_bind_Forall; [constructor | intros size _; repeat constructor].
Qed.

Lemma process_image_key_error (doc : FitzDoc L) (img : image_item) :
  aborts_on key_error (process_image L doc img).
Proof.
  unfold process_image.
  destruct (extract_image L doc (item_xref img)) as [[data |] | e] eqn:Ex.
  - apply aborts_quiet.
    apply trace_bind_Forall; [repeat constructor |].
    intros base _.
    apply trace_bind_Forall; [constructor | intros b _].
    apply trace_bind_Forall; [repeat constructor | intros image _].
    apply trace_bind_Forall; [apply reencode_no_extract | intros stream _].
    repeat constructor.
  - unfold invoke. cbn.
    intros c e [<- | []] Hbad. cbn in Hbad. inversion Hbad; subst e.
    split; [reflexivity |]. exists []. reflexivity.
  - apply aborts_quiet. unfold invoke. cbn. repeat constructor.
Qed.

Lemma for_images_key_error (images : list image_item) : forall doc,
  aborts_on key_error (for_images L doc images).
Proof.
  induction images as [| img rest IH]; intros doc; cbn [for_images].
  - apply aborts_quiet. constructor.
  - apply aborts_bind; [apply process_image_key_error | intros d _; apply IH].
Qed.

Lemma for_pages_key_error (indices : list nat) : forall doc,
  aborts_on key_error (for_pages L doc indices).
Proof.
  induction indices as [| i rest IH]; intros doc; cbn [for_pages].
  - apply aborts_quiet. constructor.
  - apply aborts_bind; [apply aborts_quiet; constructor | intros page _].
    apply aborts_bind; [apply aborts_quiet; repeat constructor | intros images _].
    apply aborts_bind; [apply for_images_key_error | intros d _; apply IH].
Qed.

Lemma inspection_no_extract (t : list call) :
  Forall (fun c => inspection_call c = true) t ->
  Forall (fun c => key_error c = None) t.
Proof.
  apply Forall_impl. intros c Hc. destruct c; cbn in Hc; try discriminate; reflexivity.
Qed.

Lemma compress_key_error (file : FileStorage) (pdf_path : string) :
  aborts_on key_error (compress L file pdf_path).
Proof.
  unfold compress.
  apply aborts_bind;
    [apply aborts_quiet, inspection_no_extract, classify_inspection | intros locals _].
  apply aborts_bind.
  - destruct (snd locals).
    + apply aborts_quiet.
      apply trace_bind_Forall; [destruct (fst locals); constructor | intros pdf _].
      apply trace_bind_Forall; [| intros; constructor].
      unfold vector_branch.
      apply trace_bind_Forall; [repeat constructor | intros b1 _].
      apply trace_bind_Forall; [repeat constructor | intros b2 _].
      apply trace_bind_Forall; [repeat constructor | intros; constructor].
    + apply aborts_bind; [| intros; apply aborts_quiet; constructor].
      unfold raster_branch.
      apply aborts_bind; [apply aborts_quiet; repeat constructor | intros doc _].
      apply for_pages_key_error.
  - intros doc _.
    apply aborts_bind; [apply aborts_quiet; destruct doc; constructor | intros d _].
    apply aborts_bind; [apply aborts_quiet; repeat constructor | intros out _].
    apply aborts_quiet.
    apply trace_bind_Forall; [repeat constructor | intros; constructor].
Qed.

Lemma save_previews_no_extract (file_name : string) (images : list Image) : forall i,
  Forall (fun c => key_error c = None) (trace (save_previews L file_name i images)).
Proof.
  induction images as [| img rest IH]; intros i; cbn [save_previews].
  - constructor.
  - apply trace_bind_Forall; [repeat constructor | intros u _].
    apply trace_bind_Forall; [apply IH | intros; constructor].
Qed.

Lemma ocr_pages_no_extract (pages : list Image) :
  Forall (fun c => key_error c = None) (trace (ocr_pages L pages)).
Proof.
  induction pages as [| p rest IH]; cbn [ocr_pages].
  - constructor.
  - apply trace_bind_Forall; [repeat constructor | intros text _].
    apply trace_bind_Forall; [exact IH | intros; constructor].
Qed.

Lemma route_body_key_error (file : FileStorage) (operation : option string) :
  aborts_on key_error (route_body L file operation).
Proof.
  unfold route_body.
  apply aborts_bind; [apply aborts_quiet; repeat constructor | intros u _].
  destruct (op_is operation "split").
  { apply aborts_quiet. unfold split.
    apply trace_bind_Forall; [repeat constructor | intros images _].
    apply trace_bind_Forall; [apply save_previews_no_extract | intros; constructor]. }
  destruct (op_is operation "convert").
  { apply aborts_quiet. unfold convert.
    apply trace_bind_Forall; [repeat constructor | intros pages _].
    apply trace_bind_Forall; [apply ocr_pages_no_extract | intros texts _].
    apply trace_bind_Forall; [repeat constructor | intros; constructor]. }
  destruct (op_is operation "compress").
  { apply aborts_bind; [apply compress_key_error | intros; apply aborts_quiet; constructor]. }
  apply aborts_quiet. constructor.
Qed.

(** X13. An image entry without data ends the request.  When
    [extract_image] returns a dict without the key ["image"] (the
    cross-reference number is not an image any more), that call is the last
    call of the request, the response is the [KeyError] of line 130, no
    later image is touched and nothing is stored. *)
Theorem missing_image_key_aborts (req : request) (db : Db.table) (c : call) :
  In c (snd (process_pdf L req db)) ->
  missing_image c = true ->
  fst (process_pdf L req db) = (InternalServerError (KeyError "image"), db) /\
  exists t0, snd (process_pdf L req db) = t0 ++ [c].
Proof.
  intros Hin Hmiss.
  destruct (files_file req) as [file |] eqn:Hf;
    [| unfold process_pdf in Hin; rewrite Hf in Hin; destruct Hin].
  destruct (not_file (files_file req)) eqn:Hn.
  { unfold process_pdf in Hin. rewrite Hf in *. rewrite Hn in Hin. destruct Hin. }
  destruct (process_pdf_body L req db file Hf Hn) as (Ht & Hraise & _).
  rewrite Ht in *.
  assert (Hbad : key_error c = Some (KeyError "image"))
    by (unfold key_error; rewrite Hmiss; reflexivity).
  destruct (route_body_key_error file (form_operation req) c _ Hin Hbad) as [Hout Hlast].
  split; [exact (Hraise _ Hout) | exact Hlast].
Qed.

(** a loop over pages that list no image changes nothing *)
Lemma for_pages_no_images (indices : list nat) : forall (doc doc' : FitzDoc L),
  outcome (for_pages L doc indices) = Ok doc' ->
  listed (trace (for_pages L doc indices)) = [] ->
  doc' = doc /\
  trace (for_pages L doc indices) = map (fun i => c_get_images i (Ok [])) indices.
Proof.
  induction indices as [| i rest IH]; intros doc doc' H Hl; cbn [for_pages] in *.
  - cbn in H. inversion H. split; reflexivity.
  - apply bind_ok_inv in H. destruct H as (page & Epage & H & Etr1).
    rewrite Etr1 in *. clear Etr1.
    apply bind_ok_inv in H. destruct H as (images & Eimages & H & Etr2).
    rewrite Etr2 in *. clear Etr2.
    apply bind_ok_inv in H. destruct H as (doc1 & E1 & H & Etr3).
    rewrite Etr3 in *. clear Etr3.
    rewrite invoke_outcome in Eimages. rewrite invoke_trace, Eimages in *.
    cbn [lift trace snd app] in *.
    change (?a :: ?t ++ ?u) with ([a] ++ t ++ u) in Hl.
    rewrite !listed_app in Hl. cbn [listed flat_map] in Hl.
    apply app_eq_nil in Hl. destruct Hl as [Hl1 Hl].
    apply app_eq_nil in Hl. destruct Hl as [_ Hl].
    rewrite app_nil_r in Hl1. apply map_eq_nil in Hl1. subst images.
    cbn [for_images] in *. cbn in E1. inversion E1; subst doc1.
    destruct (IH doc doc' H Hl) as [-> ->].
    split; reflexivity.
Qed.

(** a compress request that is answered with a result page *)
Lemma process_compress_run (req : request) (db db' : Db.table) (file : FileStorage)
  (fn op : string) (file_id : Z) (t : list call) :
  files_file req = Some file ->
  not_file (files_file req) = false ->
  form_operation req = Some "compress" ->
  process_pdf L req db = (ResultPage fn op file_id, db', t) ->
  exists doc0 doc1 out u,
    fitz_open L (pdf_path_of L file) = Ok doc0 /\
    outcome (for_pages L doc0 (seq 0 (fitz_len L doc0))) = Ok doc1 /\
    fitz_save L doc1 final_save_kw = Ok out /\
    t = c_file_save (pdf_path_of L file) (Ok u) ::
        trace (classify L (pdf_path_of L file)) ++
        c_fitz_open (pdf_path_of L file) (Ok tt) ::
        trace (for_pages L doc0 (seq 0 (fitz_len L doc0))) ++
        [c_fitz_save final_save_kw (Ok out);
         c_print "Scanned PDF compressed with image optimization."] /\
    db' = db ++ [ {| Db.id := Z.of_nat (List.length db) + 1;
                     Db.filename := compressed_name file;
                     Db.operation := "compress";
                     Db.file_data := out |} ].
Proof.
  intros Hf Hn Ho Hp.
  pose proof (process_trace L req db file _ _ _ Hf Hn Ho Hp) as Ht.
  destruct (process_outcomes L req db file _ _ _ Hf Hn Ho Hp)
    as [(e & He & _) | (out & t0 & Ec & _ & Hdb & _)]; [discriminate |].
  destruct (compress_run L file _ _ out Ec) as (doc0 & doc1 & Eopen & Eloop & Esave & Etr).
  rewrite route_body_compress_trace in Ht.
  destruct (file_save L (pdf_path_of L file) (upload_content file)) as [u | e] eqn:Es.
  - exists doc0, doc1, out, u. rewrite Ht, Etr. auto.
  - exfalso. unfold process_pdf in Hp. rewrite Hf in *. rewrite Hn, Ho in Hp.
    pose proof (route_body_compress_outcome L file) as Hout.
    rewrite Es in Hout. cbn [rbind] in Hout.
    destruct (route_body L file (Some "compress")) as [[b | e'] t'];
      cbn [outcome fst] in Hout; [discriminate |]. discriminate.
Qed.

(** X14. A compress request that runs through has asked every page of the
    document for its images exactly once, in page order from 0 to
    [len(doc) - 1], on the document as [fitz.open] returned its length. *)
Theorem compress_visits_every_page (req : request) (db db' : Db.table)
  (file : FileStorage) (fn op : string) (file_id : Z) (t : list call) :
  files_file req = Some file ->
  not_file (files_file req) = false ->
  form_operation req = Some "compress" ->
  process_pdf L req db = (ResultPage fn op file_id, db', t) ->
  exists doc0,
    fitz_open L (pdf_path_of L file) = Ok doc0 /\
    visited t = seq 0 (fitz_len L doc0).
Proof.
  intros Hf Hn Ho Hp.
  destruct (process_compress_run req db db' file fn op file_id t Hf Hn Ho Hp)
    as (doc0 & doc1 & out & u & Eopen & Eloop & _ & -> & _).
  exists doc0. split; [exact Eopen |].
  destruct (inspection_not_visiting _ (classify_inspection L (pdf_path_of L file)))
    as [Hv _].
  change (?a :: ?t1 ++ ?b :: ?t2 ++ ?t3) with ([a] ++ t1 ++ [b] ++ t2 ++ t3).
  rewrite !visited_app, Hv, (for_pages_visited L _ doc0 doc1 Eloop).
  cbn. rewrite app_nil_r. reflexivity.
Qed.

(** X15. A scan without embedded images is saved as it was opened: when
    no page lists an image, a compress request that runs through makes no
    call on any image, and the stored bytes are what the final save
    ([garbage=4, deflate=True]) returns for the document [fitz.open]
    returned, unchanged. *)
Theorem imageless_scan_saved_as_opened (req : request) (db db' : Db.table)
  (file : FileStorage) (fn op : string) (file_id : Z) (t : list call) :
  files_file req = Some file ->
  not_file (files_file req) = false ->
  form_operation req = Some "compress" ->
  process_pdf L req db = (ResultPage fn op file_id, db', t) ->
  listed t = [] ->
  Forall (fun c => image_call c = false) t /\
  exists doc out,
    fitz_open L (pdf_path_of L file) = Ok doc /\
    fitz_save L doc final_save_kw = Ok out /\
    db' = db ++ [ {| Db.id := Z.of_nat (List.length db) + 1;
                     Db.filename := compressed_name file;
                     Db.operation := "compress";
                     Db.file_data := out |} ].
Proof.
  intros Hf Hn Ho Hp Hl.
  destruct (process_compress_run req db db' file fn op file_id t Hf Hn Ho Hp)
    as (doc0 & doc1 & out & u & Eopen & Eloop & Esave & -> & Hdb).
  destruct (inspection_not_visiting _ (classify_inspection L (pdf_path_of L file)))
    as [_ Hi].
  destruct (inspection_quiet _ (classify_inspection L (pdf_path_of L file)))
    as [_ Hcl].
  change (?a :: ?t1 ++ ?b :: ?t2 ++ ?t3) with ([a] ++ t1 ++ [b] ++ t2 ++ t3) in Hl.
  rewrite !listed_app, Hcl in Hl. cbn [listed flat_map app] in Hl.
  apply app_eq_nil in Hl. destruct Hl as [Hl _].
  destruct (for_pages_no_images _ doc0 doc1 Eloop Hl) as [-> Etr].
  split.
  - constructor; [reflexivity |].
    apply Forall_app. split; [exact Hi |].
    constructor; [reflexivity |].
    apply Forall_app. split; [| repeat constructor].
    rewrite Etr. apply Forall_forall. intros c Hc.
    apply in_map_iff in Hc. destruct Hc as (i & <- & _). reflexivity.
  - exists doc0, out. auto.
Qed.

End CompressMore.

Lemma missing_image_key_aborts_witness :
  In (c_extract_image 8 (Ok None))
     (snd (process_pdf toy_more (Toy.upload "hole.pdf") [])) /\
  fst (process_pdf toy_more (Toy.upload "hole.pdf") []) =
    (InternalServerError (KeyError "image"), []).
Proof.
  assert (Hin : In (c_extract_image 8 (Ok None))
                  (snd (process_pdf toy_more (Toy.upload "hole.pdf") []))).
  { vm_compute. tauto. }
  split; [exact Hin |].
  exact (proj1 (missing_image_key_aborts toy_more (Toy.upload "hole.pdf") [] _ Hin
                  eq_refl)).
Defined.

Lemma compress_visits_every_page_witness :
  exists doc0,
    fitz_open Toy.lib (pdf_path_of Toy.lib (Toy.named "scan.pdf")) = Ok doc0 /\
    visited (snd (process_pdf Toy.lib (Toy.upload "scan.pdf") [])) =
      seq 0 (fitz_len Toy.lib doc0).
Proof.
  apply (compress_visits_every_page Toy.lib (Toy.upload "scan.pdf") []
           (snd (fst (process_pdf Toy.lib (Toy.upload "scan.pdf") [])))
           (Toy.named "scan.pdf") "scan_compressed.pdf" "compress" 1
           (snd (process_pdf Toy.lib (Toy.upload "scan.pdf") [])));
    reflexivity.
Defined.

Lemma imageless_scan_saved_as_opened_witness :
  listed (snd (process_pdf toy_more (Toy.upload "blank.pdf") [])) = [] /\
  Forall (fun c => image_call c = false)
    (snd (process_pdf toy_more (Toy.upload "blank.pdf") [])) /\
  exists doc out,
    fitz_open toy_more (pdf_path_of toy_more (Toy.named "blank.pdf")) = Ok doc /\
    fitz_save toy_more doc final_save_kw = Ok out /\
    snd (fst (process_pdf toy_more (Toy.upload "blank.pdf") [])) =
      [] ++ [ {| Db.id := Z.of_nat (List.length (@nil Db.FileRecord)) + 1;
                 Db.filename := compressed_name (Toy.named "blank.pdf");
                 Db.operation := "compress";
                 Db.file_data := out |} ].
Proof.
  split; [reflexivity |].
  apply (imageless_scan_saved_as_opened toy_more (Toy.upload "blank.pdf") []
           (snd (fst (process_pdf toy_more (Toy.upload "blank.pdf") [])))
           (Toy.named "blank.pdf") "blank_compressed.pdf" "compress" 1
           (snd (process_pdf toy_more (Toy.upload "blank.pdf") [])));
    reflexivity.
Defined.

(** ** The scan of the classifier stops early (line 107) *)

Section ScanFacts.

Context (L : library).

Lemma any_contents_first (pages : list (result (PdfPage L))) :
  outcome (any_contents L pages) = Ok true ->
  exists n page,
    nth_error pages n = Some (Ok page) /\
    exposes_content L page /\
    (forall m next, (m < n)%nat -> nth_error pages m = Some next ->
       exists q, next = Ok q /\ ~ exposes_content L q) /\
    trace (any_contents L pages) = repeat (c_page_get "/Contents" (Ok tt)) (S n).
Proof.
  induction pages as [| next rest IH]; intros H; [discriminate |].
  cbn [any_contents] in H |- *.
  apply bind_ok_inv in H. destruct H as (page & Epage & H & ->).
  apply bind_ok_inv in H. destruct H as (v & Ev & H & ->).
  apply bind_ok_inv in H. destruct H as (b & Eb & H & ->).
  cbn in Epage. subst next. rewrite invoke_outcome in Ev. cbn in Eb.
  rewrite invoke_trace, Ev. cbn [lift trace snd app forget].
  destruct b.
  - exists 0%nat, page. split; [reflexivity |]. split.
    + apply truth_true in Eb. destruct Eb as (o & -> & Ho). exists o. auto.
    + split; [intros m next Hm; lia | reflexivity].
  - destruct (IH H) as (n & p & Hn & Hp & Hbefore & ->).
    exists (S n), p. split; [exact Hn |]. split; [exact Hp |]. split; [| reflexivity].
    intros [| m] next Hm Hnth; cbn [nth_error] in Hnth.
    + inversion Hnth; subst next. exists page. split; [reflexivity |].
      intros (o & Hget & Hbool). rewrite Hget in Ev. inversion Ev; subst v.
      cbn in Eb. congruence.
    + apply (Hbefore m next); [lia | exact Hnth].
Qed.

(** X16. The scan for content streams stops at the first hit: when the
    classifier answers Vector, it has opened the file and asked pages
    0 .. n for [/Contents], where page n is the first page that exposes a
    non-empty content stream; every page before it was read and exposes
    none, and no page after it is read. *)
Theorem classifier_stops_at_first_content (pdf_path : string) (pdf : Pdf L) :
  pikepdf_open L pdf_path = Ok pdf ->
  outcome (any_contents L (pdf_pages L pdf)) = Ok true ->
  classifier L pdf_path = Ok Vector /\
  exists n page,
    nth_error (pdf_pages L pdf) n = Some (Ok page) /\
    exposes_content L page /\
    (forall m next, (m < n)%nat -> nth_error (pdf_pages L pdf) m = Some next ->
       exists q, next = Ok q /\ ~ exposes_content L q) /\
    trace (classify L pdf_path) =
      c_pikepdf_open pdf_path (Ok tt) :: repeat (c_page_get "/Contents" (Ok tt)) (S n).
Proof.
  intros Eopen Hany.
  assert (Hbody : try_body L pdf_path =
                  (Ok (pdf, true),
                   c_pikepdf_open pdf_path (Ok tt) ::
                   trace (any_contents L (pdf_pages L pdf)))).
  { unfold try_body.
    rewrite (bind_ok _ _ pdf) by (rewrite invoke_outcome; exact Eopen).
    rewrite (bind_ok _ _ true Hany).
    rewrite invoke_trace, Eopen. cbn [outcome trace fst snd ret app forget].
    rewrite app_nil_r. reflexivity. }
  split.
  - unfold classifier. rewrite classify_of_try_body, Hbody. reflexivity.
  - destruct (any_contents_first _ Hany) as (n & page & Hn & Hp & Hbefore & Etr).
    exists n, page. split; [exact Hn |]. split; [exact Hp |]. split; [exact Hbefore |].
    unfold classify. rewrite Hbody. cbn [bind ret try_except trace snd fst].
    rewrite ?app_nil_r. rewrite Etr. reflexivity.
Qed.

End ScanFacts.

Lemma classifier_stops_at_first_content_witness :
  exists pdf,
    pikepdf_open toy_more "pdf/mixed.pdf" = Ok pdf /\
    classifier toy_more "pdf/mixed.pdf" = Ok Vector /\
    exists n page,
      nth_error (pdf_pages toy_more pdf) n = Some (Ok page) /\
      exposes_content toy_more page /\
      (forall m next, (m < n)%nat -> nth_error (pdf_pages toy_more pdf) m = Some next ->
         exists q, next = Ok q /\ ~ exposes_content toy_more q) /\
      trace (classify toy_more "pdf/mixed.pdf") =
        c_pikepdf_open "pdf/mixed.pdf" (Ok tt) ::
        repeat (c_page_get "/Contents" (Ok tt)) (S n).
Proof.
  eexists. split; [reflexivity |].
  apply (classifier_stops_at_first_content toy_more "pdf/mixed.pdf"); reflexivity.
Defined.

(** ** The arithmetic of the resize (lines 138-142) *)

Lemma float_of_int_not_zero_division (w : Z) : float_of_int w <> Raise ZeroDivisionError.
Proof. unfold float_of_int. destruct (binary_normalize _ _ _ _ _); discriminate. Qed.

(** X17. The division of line 140 never divides by zero: the factor is
    computed only for a resolution above the threshold, so a declared
    resolution of 0 (as an int or as a float of either sign) is saved
    without a resize, and above the threshold neither the factor nor the
    new size can raise [ZeroDivisionError]. *)
Theorem zero_dpi_never_divides (L : library) (image : Image) :
  (effective_dpi image = PyInt 0 \/
   (exists s, effective_dpi image = PyFloat (S754_zero s)) ->
   reencode L image =
   invoke (Image_save L image (chosen_kw image))
     (c_Image_save image (chosen_kw image))) /\
  (gt_int (effective_dpi image) DPI_THRESHOLD = true ->
   truediv_int TARGET_DPI (effective_dpi image) <> Raise ZeroDivisionError /\
   new_size image (effective_dpi image) <> Raise ZeroDivisionError).
Proof.
  split.
  - intros Hz. apply reencode_unchanged.
    destruct Hz as [-> | [s ->]]; [reflexivity | destruct s; reflexivity].
  - intros Hgt.
    assert (Hdiv : truediv_int TARGET_DPI (effective_dpi image) <> Raise ZeroDivisionError).
    { destruct (effective_dpi image) as [z | f]; cbn [gt_int truediv_int] in *.
      - unfold int_truediv. apply Z.ltb_lt in Hgt. unfold DPI_THRESHOLD in Hgt.
        destruct (Z.eqb_spec z 0) as [-> | _]; [lia |].
        destruct (SFdiv _ _ _ _); discriminate.
      - destruct f as [s | s | | s m e]; cbn [is_zero].
        + destruct s; vm_compute in Hgt; discriminate.
        + vm_compute. discriminate.
        + vm_compute. discriminate.
        + change (float_of_int TARGET_DPI) with (Ok (S754_finite false 5277655813324800 (-45))).
          cbn [rbind]. discriminate. }
    split; [exact Hdiv |].
    unfold new_size.
    destruct (truediv_int TARGET_DPI (effective_dpi image)) as [factor | e];
      cbn [rbind]; [| congruence].
    assert (Hdim : forall w, (x <-? mul_int_float w factor ;; int_of_float x)
                             <> Raise ZeroDivisionError).
    { intros w. unfold mul_int_float.
      pose proof (float_of_int_not_zero_division w) as Hw.
      destruct (float_of_int w) as [fw | e]; cbn [rbind]; [| congruence].
      destruct (SFmul prec emax fw factor); cbn [int_of_float]; discriminate. }
    pose proof (Hdim (width image)) as Hw. pose proof (Hdim (height image)) as Hh.
    destruct (x <-? mul_int_float (width image) factor ;; int_of_float x);
      cbn [rbind]; [| congruence].
    destruct (y <-? mul_int_float (height image) factor ;; int_of_float y);
      cbn [rbind]; [discriminate | congruence].
Qed.

Lemma zero_dpi_never_divides_witness :
  gt_int (effective_dpi Toy.im_gray) DPI_THRESHOLD = true /\
  new_size Toy.im_gray (effective_dpi Toy.im_gray) <> Raise ZeroDivisionError.
Proof.
  split; [reflexivity |].
  apply (proj2 (zero_dpi_never_divides Toy.lib Toy.im_gray)). reflexivity.
Defined.

(** the product of an int below 2^31 by the float [2^-k], truncated *)
Lemma scale_pow2_exact (w k : Z) :
  0 <= w < 2 ^ 31 -> 1 <= k <= 16 ->
  (x <-? mul_int_float w (S754_finite false 4503599627370496 (- 52 - k)) ;;
   int_of_float x) = Ok (w / 2 ^ k).
Proof.
  intros Hw Hk.
  destruct (Z.eq_dec w 0) as [-> | Hw0].
  { rewrite Z.div_0_l by (pose proof (pow2_pos k); lia). reflexivity. }
  assert (Hwpos : 0 < w) by lia.
  destruct (float_of_int_exact w) as (mW & eW & EW & HeW & HmW & HmWr).
  { change (2 ^ 53) with 9007199254740992. change (2 ^ 31) with 2147483648 in Hw. lia. }
  pose proof (Zdigits2_le w 31 Hwpos ltac:(lia) (proj2 Hw)) as Hw31.
  pose proof (Zdigits2_pos w Hwpos) as Hw1.
  set (dw := Zdigits2 w) in *.
  unfold mul_int_float. rewrite EW. cbn [rbind SFmul xorb].
  rewrite Pos2Z.inj_mul.
  change (Zpos 4503599627370496) with (2 ^ 52).
  set (mx := Zpos mW * 2 ^ 52).
  assert (Hmx : 2 ^ 104 <= mx < 2 ^ 105).
  { unfold mx. change (2 ^ 104) with (2 ^ 52 * 2 ^ 52).
    change (2 ^ 105) with (2 ^ 53 * 2 ^ 52). split.
    - apply Z.mul_le_mono_nonneg_r; [apply Z.pow_nonneg; lia | lia].
    - apply Z.mul_lt_mono_pos_r; [apply pow2_pos; lia | lia]. }
  assert (Hdx : Zdigits2 mx = 105).
  { apply Zdigits2_unique; [| lia]. change (105 - 1) with 104. exact Hmx. }
  destruct (binary_round_aux_enclosure mx (eW + (- 52 - k)) loc_Exact)
    as (mp & ep & r & Eres & Hep & Hval & Hr & _ & Hmp); try lia.
  rewrite Eres. rewrite Hdx in *.
  replace (105 - 53) with 52 in * by lia.
  assert (Hdiv : mx / 2 ^ 52 = Zpos mW) by (unfold mx; apply Z.div_mul; lia).
  rewrite Hdiv in Hr.
  assert (Hepneg : ep < 0) by lia.
  destruct ep as [| pe | pe]; try lia.
  cbn [int_of_float].
  rewrite Z.shiftr_div_pow2 by lia.
  f_equal.
  set (a := - eW) in *.
  assert (Ha : 22 <= a <= 52) by lia.
  set (i := Zneg pe - (eW + (- 52 - k))) in *.
  assert (Hi : 0 <= i) by lia.
  pose proof (pow2_pos (Zpos pe) ltac:(lia)) as Hpe.
  pose proof (pow2_pos i Hi) as Hpi.
  pose proof (pow2_pos k ltac:(lia)) as Hpk.
  pose proof (pow2_pos a ltac:(lia)) as Hpa.
  assert (Hscale : 2 ^ Zpos pe * 2 ^ i = 2 ^ 52 * (2 ^ k * 2 ^ a)).
  { rewrite <- !Z.pow_add_r by lia. f_equal. lia. }
  assert (Ha2 : 2 <= 2 ^ a).
  { change 2 with (2 ^ 1) at 1. apply Z.pow_le_mono_r; lia. }
  set (N := Zpos mp / 2 ^ Zpos pe).
  pose proof (Z.div_mod (Zpos mp) (2 ^ Zpos pe) ltac:(lia)) as HNdm.
  pose proof (Z.mod_pos_bound (Zpos mp) (2 ^ Zpos pe) Hpe) as HNmod.
  fold N in HNdm.
  assert (HN0 : 0 <= N) by (apply Z.div_pos; lia).
  (* N * 2^(k+a) <= r < (N+1) * 2^(k+a) *)
  assert (H1 : N * (2 ^ 52 * (2 ^ k * 2 ^ a)) <= r * 2 ^ 52).
  { rewrite <- Hscale, <- Hval.
    replace (N * (2 ^ Zpos pe * 2 ^ i)) with (N * 2 ^ Zpos pe * 2 ^ i) by ring.
    apply Z.mul_le_mono_nonneg_r; lia. }
  assert (H2 : r * 2 ^ 52 < (N + 1) * (2 ^ 52 * (2 ^ k * 2 ^ a))).
  { rewrite <- Hscale, <- Hval.
    replace ((N + 1) * (2 ^ Zpos pe * 2 ^ i)) with ((N + 1) * 2 ^ Zpos pe * 2 ^ i) by ring.
    apply Z.mul_lt_mono_pos_r; lia. }
  set (K := 2 ^ k) in *. set (A := 2 ^ a) in *.
  assert (H1' : N * K * A <= r).
  { apply (Z.mul_le_mono_pos_r _ _ (2 ^ 52)); [apply pow2_pos; lia |].
    replace (N * K * A * 2 ^ 52) with (N * (2 ^ 52 * (K * A))) by ring. exact H1. }
  assert (H2' : r < (N + 1) * K * A).
  { apply (Z.mul_lt_mono_pos_r (2 ^ 52)); [apply pow2_pos; lia |].
    replace ((N + 1) * K * A * 2 ^ 52) with ((N + 1) * (2 ^ 52 * (K * A))) by ring.
    exact H2. }
  rewrite HmW in Hr. fold A in Hr.
  apply (Z.div_unique_pos w K N (w - N * K)); [| lia].
  split.
  - (* N * K <= w *)
    assert (N * K * A < (w + 1) * A) by lia.
    assert (N * K < w + 1); [| lia].
    apply (Z.mul_lt_mono_pos_r A); lia.
  - assert (w * A < (N + 1) * K * A) by lia.
    assert (w < (N + 1) * K); [| lia].
    apply (Z.mul_lt_mono_pos_r A); lia.
Qed.

(** X18. At the resolutions 300, 600, 1200 and 2400 DPI the scaling is
    exact: the factor 150/DPI is a power of two, no rounding occurs, and
    both new dimensions are the exact quotients rounded down (half, a
    quarter, an eighth, a sixteenth) for every image below 2^31 pixels a
    side. *)
Theorem scaling_exact_at_scanner_resolutions (image : Image) (d : Z) :
  In d [300; 600; 1200; 2400] ->
  0 <= width image < 2 ^ 31 -> 0 <= height image < 2 ^ 31 ->
  new_size image (PyInt d) =
    Ok (scaled_down (width image) d, scaled_down (height image) d) /\
  scaled_down (width image) d = width image / (d / 150) /\
  scaled_down (height image) d = height image / (d / 150).
Proof.
  intros Hd Hw Hh.
  assert (Hk : exists k, 1 <= k <= 16 /\ d = 150 * 2 ^ k /\
                 int_truediv 150 d = Ok (S754_finite false 4503599627370496 (- 52 - k))).
  { cbn [In] in Hd. destruct Hd as [<- | [<- | [<- | [<- | []]]]].
    - exists 1. split; [lia |]. split; reflexivity.
    - exists 2. split; [lia |]. split; reflexivity.
    - exists 3. split; [lia |]. split; reflexivity.
    - exists 4. split; [lia |]. split; reflexivity. }
  destruct Hk as (k & Hk & -> & Ediv).
  pose proof (pow2_pos k ltac:(lia)) as Hpk.
  assert (Hs : forall w, scaled_down w (150 * 2 ^ k) = w / 2 ^ k).
  { intros w. unfold scaled_down. apply Z.div_mul_cancel_l; lia. }
  assert (Hq : 150 * 2 ^ k / 150 = 2 ^ k).
  { rewrite Z.mul_comm. apply Z.div_mul. lia. }
  rewrite !Hs, Hq. split; [| split; reflexivity].
  unfold new_size, truediv_int, TARGET_DPI. rewrite Ediv. cbn [rbind].
  rewrite (scale_pow2_exact (width image) k Hw Hk). cbn [rbind].
  rewrite (scale_pow2_exact (height image) k Hh Hk). reflexivity.
Qed.

Lemma scaling_exact_at_scanner_resolutions_witness :
  In 600 [300; 600; 1200; 2400] /\
  new_size Toy.im_color (PyInt 600) = Ok (500, 250).
Proof.
  split; [right; left; reflexivity |].
  apply (proj1 (scaling_exact_at_scanner_resolutions Toy.im_color 600
                  ltac:(right; left; reflexivity) ltac:(cbn; lia) ltac:(cbn; lia))).
Defined.

(** ** From the preview page to the selection (lines 81, 180-183) *)

(** X19. The preview page carries the name the selection route needs:
    after a split request answered with the preview page for [pdf_name],
    the upload has been written to [PDF_DIR/pdf_name], and a selection
    request posting that name back opens its reader on exactly that path;
    if the reader cannot open it, the selection ends in that error and
    stores nothing. *)
Theorem preview_page_names_the_saved_upload (L : library) (P : pypdf)
  (req : request) (db db' : Db.table) (pdf_name : string) (names : list string)
  (t : list call) :
  process_pdf L req db = (PreviewPage pdf_name names, db', t) ->
  exists u rest,
    t = c_file_save (os_path_join L (PDF_DIR L) pdf_name) (Ok u) :: rest /\
    forall pages db2,
      (forall e, PdfReader P (os_path_join L (PDF_DIR L) pdf_name) = Raise e ->
         split_final L P (Some pdf_name) pages db2 = (InternalServerError e, db2)) /\
      (forall reader,
         PdfReader P (os_path_join L (PDF_DIR L) pdf_name) = Ok reader ->
         split_final_body L P (Some pdf_name) pages =
           (writer <-? add_pages P reader (PdfWriter P) pages ;;
            data <-? writer_write P writer ;;
            Ok (replace pdf_name ".pdf" "_selected.pdf", data))).
Proof.
  intros Hp.
  destruct (preview_page_inv L req db db' pdf_name names t Hp) as (file & Hf & Hn & Ho).
  destruct (preview_page_names L req db db' file pdf_name names t Hf Hn Ho Hp)
    as (n & u & rest & -> & _ & Ht).
  exists u, rest. split; [exact Ht |].
  intros pages db2. unfold split_final, split_final_body. cbn [needs_str rbind].
  split.
  - intros e He. rewrite He. reflexivity.
  - intros reader Hr. rewrite Hr. reflexivity.
Qed.

Lemma preview_page_names_the_saved_upload_witness :
  exists u rest,
    snd (process_pdf toy_ocr (toy_request "scan.pdf" (Some "split")) []) =
      c_file_save (os_path_join toy_ocr (PDF_DIR toy_ocr) "scan.pdf") (Ok u) :: rest /\
    forall pages db2,
      (forall e,
         PdfReader toy_pypdf (os_path_join toy_ocr (PDF_DIR toy_ocr) "scan.pdf") = Raise e ->
         split_final toy_ocr toy_pypdf (Some "scan.pdf") pages db2 =
           (InternalServerError e, db2)) /\
      (forall reader,
         PdfReader toy_pypdf (os_path_join toy_ocr (PDF_DIR toy_ocr) "scan.pdf") = Ok reader ->
         split_final_body toy_ocr toy_pypdf (Some "scan.pdf") pages =
           (writer <-? add_pages toy_pypdf reader (PdfWriter toy_pypdf) pages ;;
            data <-? writer_write toy_pypdf writer ;;
            Ok (replace "scan.pdf" ".pdf" "_selected.pdf", data))).
Proof.
  apply (preview_page_names_the_saved_upload toy_ocr toy_pypdf
           (toy_request "scan.pdf" (Some "split")) [] []
           "scan.pdf" ["scan.pdf_0.png"; "scan.pdf_1.png"; "scan.pdf_2.png"]
           (snd (process_pdf toy_ocr (toy_request "scan.pdf" (Some "split")) []))).
  reflexivity.
Defined.
